(** * BetterConsole: the decision-and-delivery pipeline of better-console.js

    A shallow embedding of the logging core of [src/better-console.js]
    (pattern compilation, namespace gating, level and sampling rules,
    record assembly, the bounded history buffer, dedup-by-key, sink
    fan-out, buffer export and import) and the properties the
    specification states about it; then of the functions around it
    (configuration overrides, installation over the global console,
    groups and tables, the HTTP transport, the clock text and the text
    escaping of the viewer), of the pipeline over sinks and redactors
    that act on what they are handed, and further properties of the
    whole.

    Conventions of the embedding.
    - JavaScript strings are [string]: sequences of code units below 256.
    - The mutable module-level [state] object is the record [State]; a
      function that only reads or writes it is a function on [State], the
      others are computations of the monad [M] over a [World]: the state,
      the number of random draws and clock readings made, and the calls
      made to the native console and to the sinks.
    - A JavaScript exception is the [Throw] outcome of the [result] type.
    - A number is its literal and an object the outcome of the conversions
      applied to it; what the host decides (number formatting, the clock,
      [Math.random], the redactor, the sinks, the native console) is a
      field of [Host].  In the pipeline the redactor and the sinks are
      seen through their outcome alone; callbacks that edit the record or
      the array they are handed, or that call back into the module, are
      those of [Callbacks], and the pipeline over them is [Live].
    - The host is the non-browser one ([isBrowser = false]): the overlay
      and the window transport are not part of the pipeline, and neither
      is the prefix the presentation layer prints before the arguments. *)

From Stdlib Require Import ZArith QArith Qround Lia List Bool Ascii String
  DecimalString.
From stdpp Require Import base strings gmap list.

Local Open Scope string_scope.
Local Open Scope list_scope.
Local Open Scope Z_scope.

#[local] Arguments String.append !_ _ / : simpl nomatch.

(** ** Outcomes of JavaScript computations *)

Inductive result (A : Type) : Type :=
| Ok (a : A)
| Throw (msg : string).
Arguments Ok {A} a.
Arguments Throw {A} msg.

#[global] Instance result_ret : MRet result := fun _ a => Ok a.
#[global] Instance result_bind : MBind result := fun _ _ k r =>
  match r with
  | Ok a => k a
  | Throw m => Throw m
  end.
#[global] Instance result_fmap : FMap result := fun _ _ f r =>
  match r with
  | Ok a => Ok (f a)
  | Throw m => Throw m
  end.

(** ** Strings *)

Module Str.

(** [s.replace(/./g, f)] for a replacement decided character by
    character. *)
Fixpoint flat_map (f : ascii -> string) (s : string) : string :=
  match s with
  | "" => ""
  | String c r => f c +:+ flat_map f r
  end.

Fixpoint mem (c : ascii) (s : string) : bool :=
  match s with
  | "" => false
  | String d r => Ascii.eqb c d || mem c r
  end.

(** The class [\s] restricted to code units below 256: TAB, LF, VT, FF,
    CR, SPACE and NBSP. *)
Definition is_space (c : ascii) : bool :=
  let n := nat_of_ascii c in
  ((9 <=? n)%nat && (n <=? 13)%nat) || (n =? 32)%nat || (n =? 160)%nat.

(** Line terminators, the characters [.] does not match: the line feed
    and the carriage return among the code units below 256 (the two
    others, U+2028 and U+2029, are not among them). *)
Definition is_line_terminator (c : ascii) : bool :=
  Ascii.eqb c "010" || Ascii.eqb c "013".

Fixpoint all (p : ascii -> bool) (s : string) : bool :=
  match s with
  | "" => true
  | String c r => p c && all p r
  end.

Fixpoint drop_while (p : ascii -> bool) (s : string) : string :=
  match s with
  | "" => ""
  | String c r => if p c then drop_while p r else s
  end.

Fixpoint rev_onto (s acc : string) : string :=
  match s with
  | "" => acc
  | String c r => rev_onto r (String c acc)
  end.

Definition rev (s : string) : string := rev_onto s "".

(** [s.trim()] *)
Definition trim (s : string) : string :=
  rev (drop_while is_space (rev (drop_while is_space s))).

(** [s.replace(/\s+/g, ',')]: every maximal run of white space becomes
    one comma. *)
Fixpoint replace_space_runs (s : string) : string :=
  match s with
  | "" => ""
  | String c r =>
      if is_space c
      then match r with
           | String d _ =>
               if is_space d then replace_space_runs r
               else String "," (replace_space_runs r)
           | "" => ","
           end
      else String c (replace_space_runs r)
  end.

(** [s.split(',')]: never empty, [''.split(',')] is [['']]. *)
Fixpoint split_comma_acc (s : string) (cur : string) : list string :=
  match s with
  | "" => [rev cur]
  | String c r =>
      if Ascii.eqb c ","
      then rev cur :: split_comma_acc r ""
      else split_comma_acc r (String c cur)
  end.

Definition split_comma (s : string) : list string := split_comma_acc s "".

Definition is_empty (s : string) : bool :=
  match s with "" => true | _ => false end.

End Str.

(** ** Regular expressions: the fragment [createWildcardRegex] produces

    A pattern is compiled to a [program]: a sequence of assertions, single
    atoms and starred atoms.  [RegExp.compile] is [new RegExp(source)] on
    the fragment made of [^], [$], [.], escaped syntax characters, plain
    characters and the [*] quantifier; on anything else (a syntax error,
    or a construct outside the fragment) it answers [None]. *)

Module RegExp.

Inductive atom : Type :=
| AChar (c : ascii)   (* a character standing for itself *)
| AAny.               (* [.]: any character but a line terminator *)

Inductive item : Type :=
| IBegin              (* [^] *)
| IEnd                (* [$] *)
| IOne (a : atom)
| IStar (a : atom).   (* [a*] *)

Definition program := list item.

(** SyntaxCharacter of the ECMAScript pattern grammar. *)
Definition is_syntax_char (c : ascii) : bool := Str.mem c "^$\.*+?()[]{}|".

(** A [*] after an atom turns it into a starred atom; an assertion cannot
    be quantified; an escape is accepted before a syntax character only. *)
Fixpoint compile (src : string) : option program :=
  match src with
  | "" => Some []
  | String c r =>
      if (c =? "^")%char || (c =? "$")%char then
        (* an assertion cannot be quantified *)
        match r with
        | String d _ =>
            if (d =? "*")%char then None
            else cons (if (c =? "^")%char then IBegin else IEnd) <$> compile r
        | "" => Some [if (c =? "^")%char then IBegin else IEnd]
        end
      else if (c =? "\")%char then
        match r with
        | String e r' =>
            if is_syntax_char e
            then match r' with
                 | String d r'' =>
                     if (d =? "*")%char
                     then cons (IStar (AChar e)) <$> compile r''
                     else cons (IOne (AChar e)) <$> compile r'
                 | "" => Some [IOne (AChar e)]
                 end
            else None
        | "" => None
        end
      else if is_syntax_char c && negb (c =? ".")%char then None
      else
        let a := if (c =? ".")%char then AAny else AChar c in
        match r with
        | String d r' =>
            if (d =? "*")%char
            then cons (IStar a) <$> compile r'
            else cons (IOne a) <$> compile r
        | "" => Some [IOne a]
        end
  end.

Definition atom_accepts (a : atom) (c : ascii) : bool :=
  match a with
  | AChar d => Ascii.eqb d c
  | AAny => negb (Str.is_line_terminator c)
  end.

(** Does the program match a prefix of [s]?  [at_start] tells whether
    [s] begins at index 0 of the subject. *)
Fixpoint match_here (p : program) (at_start : bool) (s : string) : bool :=
  match p with
  | [] => true
  | IBegin :: p' => at_start && match_here p' at_start s
  | IEnd :: p' => Str.is_empty s && match_here p' at_start s
  | IOne a :: p' =>
      match s with
      | String c s' => atom_accepts a c && match_here p' false s'
      | "" => false
      end
  | IStar a :: p' =>
      (fix star (at_start : bool) (s : string) : bool :=
         match_here p' at_start s
         || match s with
            | String c s' => atom_accepts a c && star false s'
            | "" => false
            end) at_start s
  end.

Fixpoint search (p : program) (at_start : bool) (s : string) : bool :=
  match_here p at_start s
  || match s with
     | String _ s' => search p false s'
     | "" => false
     end.

(** [re.test(s)] for a regular expression without flags. *)
Definition test (p : program) (s : string) : bool := search p true s.

End RegExp.

(** ** PatternMatcher: [createWildcardRegex] *)

(** [token.replace(/[.+?^${}()|[\]\\]/g, '\\$&')] *)
Definition escape_special (token : string) : string :=
  Str.flat_map
    (fun c => if Str.mem c ".+?^${}()|[]\" then String "\" (String c "")
              else String c "")
    token.

(** [s.replace(/\*/g, '.*')] *)
Definition star_to_dotstar (s : string) : string :=
  Str.flat_map (fun c => if Ascii.eqb c "*" then ".*" else String c "") s.

Definition wildcard_source (token : string) : string :=
  "^" +:+ star_to_dotstar (escape_special token) +:+ "$".

(** [createWildcardRegex(token)]; [Throw] stands for the [SyntaxError] of
    the [RegExp] constructor. *)
Definition createWildcardRegex (token : string) : result RegExp.program :=
  match RegExp.compile (wildcard_source token) with
  | Some p => Ok p
  | None => Throw "SyntaxError"
  end.

(** ** JSON text

    [JSON.parse] on the whole JSON grammar.  A number is kept as its
    literal: the two observations the pipeline makes of a number (its
    truthiness and its [String(.)]) are the host's.  A [\uXXXX] escape of
    a code unit of 256 or more is outside the strings of the model and is
    reported as a failure. *)

Module JSON.

#[local] Set Warnings "-register-all".

Inductive json : Type :=
| JNull
| JBool (b : bool)
| JNum (literal : string)
| JStr (s : string)
| JArr (elems : list json)
| JObj (props : list (string * json)).

Definition is_ws (c : ascii) : bool :=
  (c =? " ")%char || (c =? "009")%char || (c =? "010")%char || (c =? "013")%char.

Fixpoint skip_ws (s : string) : string :=
  match s with
  | "" => ""
  | String c r => if is_ws c then skip_ws r else s
  end.

Definition is_digit (c : ascii) : bool :=
  let n := nat_of_ascii c in (48 <=? n)%nat && (n <=? 57)%nat.

Definition hex_value (c : ascii) : option nat :=
  let n := nat_of_ascii c in
  if (48 <=? n)%nat && (n <=? 57)%nat then Some (n - 48)%nat
  else if (97 <=? n)%nat && (n <=? 102)%nat then Some (n - 87)%nat
  else if (65 <=? n)%nat && (n <=? 70)%nat then Some (n - 55)%nat
  else None.

(** The code unit of [\uh1h2h3h4], when it is below 256. *)
Definition unicode_escape (h1 h2 h3 h4 : ascii) : option ascii :=
  a ← hex_value h1; b ← hex_value h2; c ← hex_value h3; d ← hex_value h4;
  if ((a =? 0) && (b =? 0))%nat then Some (ascii_of_nat (16 * c + d)) else None.

(** The characters of a string literal after its opening quote, up to the
    closing quote. *)
Fixpoint parse_string (s : string) : option (string * string) :=
  match s with
  | "" => None
  | String c r =>
      if (c =? "034")%char then Some ("", r)
      else if (c =? "\")%char then
        match r with
        | String e r' =>
            let simple (x : ascii) :=
              '(body, rest) ← parse_string r'; Some (String x body, rest) in
            if (e =? "034")%char || (e =? "\")%char || (e =? "/")%char then simple e
            else if (e =? "b")%char then simple "008"%char
            else if (e =? "f")%char then simple "012"%char
            else if (e =? "n")%char then simple "010"%char
            else if (e =? "r")%char then simple "013"%char
            else if (e =? "t")%char then simple "009"%char
            else if (e =? "u")%char then
              match r' with
              | String h1 (String h2 (String h3 (String h4 r''))) =>
                  x ← unicode_escape h1 h2 h3 h4;
                  '(body, rest) ← parse_string r'';
                  Some (String x body, rest)
              | _ => None
              end
            else None
        | "" => None
        end
      else if (nat_of_ascii c <? 32)%nat then None
      else '(body, rest) ← parse_string r; Some (String c body, rest)
  end.

Fixpoint take_digits (s : string) : string * string :=
  match s with
  | "" => ("", "")
  | String c r =>
      if is_digit c
      then let '(d, rest) := take_digits r in (String c d, rest)
      else ("", s)
  end.

(** A number literal: an optional minus sign, an integer part without a
    leading zero, an optional fraction and an optional exponent. *)
Definition parse_number (s : string) : option (string * string) :=
  let '(sign, s1) :=
    match s with
    | String c r => if (c =? "-")%char then ("-", r) else ("", s)
    | "" => ("", s)
    end in
  '(int, s2) ←
    match s1 with
    | String c r =>
        if (c =? "0")%char then Some ("0", r)
        else if is_digit c
             then let '(d, rest) := take_digits r in Some (String c d, rest)
             else None
    | "" => None
    end;
  '(frac, s3) ←
    match s2 with
    | String c r =>
        if (c =? ".")%char
        then let '(d, rest) := take_digits r in
             if Str.is_empty d then None else Some (String c d, rest)
        else Some ("", s2)
    | "" => Some ("", s2)
    end;
  '(exp, s4) ←
    match s3 with
    | String c r =>
        if (c =? "e")%char || (c =? "E")%char
        then
          let '(sg, r1) :=
            match r with
            | String x r' =>
                if (x =? "+")%char || (x =? "-")%char
                then (String x "", r') else ("", r)
            | "" => ("", r)
            end in
          let '(d, rest) := take_digits r1 in
          if Str.is_empty d then None else Some (String c (sg +:+ d), rest)
        else Some ("", s3)
    | "" => Some ("", s3)
    end;
  Some (sign +:+ int +:+ frac +:+ exp, s4).

Fixpoint strip_prefix (p s : string) : option string :=
  match p, s with
  | "", _ => Some s
  | String a p', String b s' => if (a =? b)%char then strip_prefix p' s' else None
  | String _ _, "" => None
  end.

(** Recursive descent; [fuel] bounds the nesting and the number of
    elements read. *)
Fixpoint parse_value (fuel : nat) (s : string) : option (json * string) :=
  match fuel with
  | O => None
  | S fuel' =>
      match skip_ws s with
      | "" => None
      | String c r =>
          if (c =? "034")%char then
            '(body, rest) ← parse_string r; Some (JStr body, rest)
          else if (c =? "[")%char then
            match skip_ws r with
            | String d r' =>
                if (d =? "]")%char then Some (JArr [], r')
                else '(elems, rest) ← parse_elements fuel' r; Some (JArr elems, rest)
            | "" => None
            end
          else if (c =? "{")%char then
            match skip_ws r with
            | String d r' =>
                if (d =? "}")%char then Some (JObj [], r')
                else '(props, rest) ← parse_members fuel' r; Some (JObj props, rest)
            | "" => None
            end
          else if (c =? "t")%char then
            rest ← strip_prefix "rue" r; Some (JBool true, rest)
          else if (c =? "f")%char then
            rest ← strip_prefix "alse" r; Some (JBool false, rest)
          else if (c =? "n")%char then
            rest ← strip_prefix "ull" r; Some (JNull, rest)
          else
            '(lit, rest) ← parse_number (String c r); Some (JNum lit, rest)
      end
  end
with parse_elements (fuel : nat) (s : string) : option (list json * string) :=
  match fuel with
  | O => None
  | S fuel' =>
      '(v, rest) ← parse_value fuel' s;
      match skip_ws rest with
      | String c r =>
          if (c =? ",")%char then
            '(vs, rest') ← parse_elements fuel' r; Some (v :: vs, rest')
          else if (c =? "]")%char then Some ([v], r)
          else None
      | "" => None
      end
  end
with parse_members (fuel : nat) (s : string)
  : option (list (string * json) * string) :=
  match fuel with
  | O => None
  | S fuel' =>
      match skip_ws s with
      | String q r =>
          if (q =? "034")%char then
            '(key, rest) ← parse_string r;
            match skip_ws rest with
            | String colon r1 =>
                if (colon =? ":")%char then
                  '(v, rest1) ← parse_value fuel' r1;
                  match skip_ws rest1 with
                  | String c r2 =>
                      if (c =? ",")%char then
                        '(ps, rest2) ← parse_members fuel' r2;
                        Some ((key, v) :: ps, rest2)
                      else if (c =? "}")%char then Some ([(key, v)], r2)
                      else None
                  | "" => None
                  end
                else None
            | "" => None
            end
          else None
      | "" => None
      end
  end.

(** [JSON.parse(text)]: [None] is the [SyntaxError]. *)
Definition parse (text : string) : option json :=
  '(v, rest) ← parse_value (S (String.length text)) text;
  if Str.is_empty (skip_ws rest) then Some v else None.

(** *** Serialisation of strings (QuoteJSONString) *)

Definition hex_char (n : nat) : ascii :=
  if (n <? 10)%nat then ascii_of_nat (48 + n) else ascii_of_nat (87 + n).

Definition quote_char (c : ascii) : string :=
  let n := nat_of_ascii c in
  if (c =? "034")%char then String "\" (String "034" "")
  else if (c =? "\")%char then "\\"
  else if (n =? 8)%nat then "\b"
  else if (n =? 9)%nat then "\t"
  else if (n =? 10)%nat then "\n"
  else if (n =? 12)%nat then "\f"
  else if (n =? 13)%nat then "\r"
  else if (n <? 32)%nat
       then "\u00" +:+ String (hex_char (n / 16)) (String (hex_char (n mod 16)) "")
       else String c "".

Definition quote (s : string) : string :=
  String "034" (Str.flat_map quote_char s +:+ String "034" "").

(** Own property lookup on a parsed object: a later duplicate key wins. *)
Fixpoint lookup (key : string) (props : list (string * json)) : option json :=
  match props with
  | [] => None
  | (k, v) :: rest =>
      match lookup key rest with
      | Some v' => Some v'
      | None => if String.eqb k key then Some v else None
      end
  end.

End JSON.

(** ** JavaScript values handed to the logger

    An object is described by the outcome of the two conversions the
    pipeline applies to it: [String(o)] and [JSON.stringify(o)].  Either
    may throw (a [toString] that raises, an object without prototype, a
    cyclic structure, a nested BigInt).  A [JSON.stringify] that answers
    [undefined] is the empty text, which is how [Array.prototype.join]
    renders it.  A number is its literal, as in [JSON.json]. *)

Record object : Type := {
  obj_string : result string;
  obj_json : result string
}.

Inductive value : Type :=
| VUndefined
| VNull
| VBool (b : bool)
| VNum (literal : string)
| VBigInt (n : Z)
| VStr (s : string)
| VSymbol (description : string)
| VFun (id : nat) (source : string)
| VObj (o : object).

Definition Z_to_string (n : Z) : string := NilZero.string_of_int (Z.to_int n).

Definition bool_to_string (b : bool) : string := if b then "true" else "false".

(** A buffered entry: the trimmed projection of a record. *)
Record BufferedEntry : Type := {
  time : string;
  level : string;
  namespace : string;
  preview : string
}.

(** The entry [emit] hands to the transports. *)
Record LogRecord : Type := {
  rec_time : string;
  rec_level : string;
  rec_namespace : string;
  rec_preview : string;
  rec_args : list value;
  rec_stack : option string
}.

(** What the pipeline takes from its host.  Clock readings and random
    draws are indexed by the number of readings made so far. *)
Record Host : Type := {
  random : nat -> Q;                   (* Math.random() *)
  wall_clock : nat -> string;          (* new Date().toISOString() *)
  monotonic : nat -> Q;                (* nowMs() *)
  toFixed1 : Q -> string;              (* n.toFixed(1) *)
  number_text : string -> string;      (* String(n), n given by its literal *)
  number_truthy : string -> bool;      (* !!n *)
  stack_text : string;                 (* new Error().stack, '' when absent *)
  function_text : string -> string;    (* String(Object.prototype[name]) *)
  sink_call : nat -> LogRecord -> result unit;
  redactor_call :
    nat -> list value -> string -> string -> result (option (list value));
  native_call : string -> list value -> result unit
}.

Section Pipeline.

(** The host the pipeline runs on. *)
Context (h : Host).

(** [String(v)] *)
Definition to_string (v : value) : result string :=
  match v with
  | VUndefined => Ok "undefined"
  | VNull => Ok "null"
  | VBool b => Ok (bool_to_string b)
  | VNum lit => Ok (number_text h lit)
  | VBigInt n => Ok (Z_to_string n)
  | VStr s => Ok s
  | VSymbol d => Ok ("Symbol(" +:+ d +:+ ")")
  | VFun _ src => Ok src
  | VObj o => obj_string o
  end.

(** [!!v] *)
Definition truthy (v : value) : bool :=
  match v with
  | VUndefined | VNull => false
  | VBool b => b
  | VNum lit => number_truthy h lit
  | VBigInt n => negb (n =? 0)
  | VStr s => negb (Str.is_empty s)
  | VSymbol _ | VFun _ _ | VObj _ => true
  end.

(** *** Values produced by [JSON.parse] *)

Fixpoint join (sep : string) (parts : list string) : string :=
  match parts with
  | [] => ""
  | [p] => p
  | p :: rest => p +:+ sep +:+ join sep rest
  end.

(** [String(j)] for a value made of plain data, as [JSON.parse] builds
    it.  An array is the texts of its elements joined by commas, [null]
    being the empty text there.  An object is converted by the [toString]
    it inherits, unless it has a property [toString] of its own: that one
    is data, not a function, no [valueOf] answers a primitive either, and
    the conversion throws a [TypeError]. *)
Fixpoint json_to_string (j : JSON.json) : result string :=
  match j with
  | JSON.JNull => Ok "null"
  | JSON.JBool b => Ok (bool_to_string b)
  | JSON.JNum lit => Ok (number_text h lit)
  | JSON.JStr s => Ok s
  | JSON.JArr elems =>
      parts ← (fix texts (l : list JSON.json) : result (list string) :=
                 match l with
                 | [] => Ok []
                 | e :: rest =>
                     t ← (match e with
                          | JSON.JNull => Ok ""
                          | _ => json_to_string e
                          end);
                     ts ← texts rest;
                     Ok (t :: ts)
                 end) elems;
      Ok (join "," parts)
  | JSON.JObj props =>
      match JSON.lookup "toString" props with
      | Some _ => Throw "TypeError"
      | None => Ok "[object Object]"
      end
  end.

Definition json_truthy (j : JSON.json) : bool :=
  match j with
  | JSON.JNull => false
  | JSON.JBool b => b
  | JSON.JNum lit => number_truthy h lit
  | JSON.JStr s => negb (Str.is_empty s)
  | JSON.JArr _ | JSON.JObj _ => true
  end.

(** ** Levels *)

Definition LEVELS : list (string * Z) :=
  [("trace", 10); ("debug", 20); ("log", 30); ("info", 40); ("warn", 50);
   ("error", 60)].

Fixpoint assoc {V} (key : string) (table : list (string * V)) : option V :=
  match table with
  | [] => None
  | (k, v) :: rest => if String.eqb k key then Some v else assoc key rest
  end.

(** [LEVELS.hasOwnProperty(name)] and the value of the own property. *)
Definition LEVELS_own (name : string) : option Z := assoc name LEVELS.

Definition LEVELS_debug : Z := 20.

(** The property names [LEVELS] inherits from [Object.prototype]. *)
Definition Object_prototype_names : list string :=
  ["constructor"; "hasOwnProperty"; "isPrototypeOf"; "propertyIsEnumerable";
   "toLocaleString"; "toString"; "valueOf"; "__proto__"; "__defineGetter__";
   "__defineSetter__"; "__lookupGetter__"; "__lookupSetter__"].

(** [name in o] for a plain object [o] that has no such property of its
    own. *)
Definition inherited (name : string) : bool :=
  existsb (String.eqb name) Object_prototype_names.

(** The threshold of a per-namespace rule: a weight, or a value that is
    not a number, against which every [<] comparison is false. *)
Inductive threshold : Type :=
| Weight (w : Z)
| NotANumber.

(** [LEVELS[lvl] || LEVELS.debug], the transform of [setNamespaceLevels]. *)
Definition level_rule_value (lvl : string) : threshold :=
  match LEVELS_own lvl with
  | Some w => Weight w
  | None =>
      if existsb (String.eqb lvl) Object_prototype_names then NotANumber
      else Weight LEVELS_debug
  end.

(** [w < t] *)
Definition below (w : Z) (t : threshold) : bool :=
  match t with
  | Weight n => w <? n
  | NotANumber => false
  end.

(** ** The state object *)

Record Rule (V : Type) : Type := {
  re : RegExp.program;
  rule_value : V
}.
#[global] Arguments re {V} r.
#[global] Arguments rule_value {V} r.

Record State : Type := {
  config_level : string;
  config_namespaces : string;
  config_bufferSize : Z;
  config_printToNative : bool;
  config_captureStack : value;
  levelWeight : Z;
  includePatterns : list RegExp.program;
  excludePatterns : list RegExp.program;
  buffer : list BufferedEntry;
  transports : list nat;
  paused : bool;
  onceKeys : gset string;
  nsLevelRules : list (Rule threshold);
  sampleRules : list (Rule Q);
  redactorFn : option nat
}.

(** What a run has observed so far. *)
Inductive event : Type :=
| ENative (method : string) (args : list value)
| ESink (sink : nat) (record : LogRecord).

Record World : Type := {
  st : State;
  draws : nat;          (* random draws consumed *)
  ticks : nat;          (* clock readings made *)
  events : list event   (* oldest first *)
}.

(** Computations over the world: an exception leaves the mutations made
    before it in place. *)
Definition M (A : Type) : Type := World -> result A * World.

#[global] Instance M_ret : MRet M := fun _ a w => (Ok a, w).
#[global] Instance M_bind : MBind M := fun _ _ k m w =>
  match m w with
  | (Ok a, w') => k a w'
  | (Throw e, w') => (Throw e, w')
  end.

Definition throw {A} (msg : string) : M A := fun w => (Throw msg, w).

(** [try { body } catch (_) { handler }] *)
Definition try_catch {A} (body handler : M A) : M A := fun w =>
  match body w with
  | (Ok a, w') => (Ok a, w')
  | (Throw _, w') => handler w'
  end.

Definition lift {A} (r : result A) : M A := fun w => (r, w).

Definition get_state : M State := fun w => (Ok (st w), w).

Definition put_state (s : State) : M unit := fun w =>
  (Ok tt, {| st := s; draws := draws w; ticks := ticks w; events := events w |}).

Definition modify (f : State -> State) : M unit :=
  s ← get_state; put_state (f s).

Definition emit_event (e : event) : M unit := fun w =>
  (Ok tt, {| st := st w; draws := draws w; ticks := ticks w;
             events := events w ++ [e] |}).

(** *** Field updates of the state object *)

Definition with_level (name : string) (w : Z) (s : State) : State :=
  {| config_level := name; config_namespaces := config_namespaces s;
     config_bufferSize := config_bufferSize s;
     config_printToNative := config_printToNative s;
     config_captureStack := config_captureStack s; levelWeight := w;
     includePatterns := includePatterns s; excludePatterns := excludePatterns s;
     buffer := buffer s; transports := transports s; paused := paused s;
     onceKeys := onceKeys s; nsLevelRules := nsLevelRules s;
     sampleRules := sampleRules s; redactorFn := redactorFn s |}.

Definition with_namespaces (spec : string) (inc exc : list RegExp.program)
  (s : State) : State :=
  {| config_level := config_level s; config_namespaces := spec;
     config_bufferSize := config_bufferSize s;
     config_printToNative := config_printToNative s;
     config_captureStack := config_captureStack s; levelWeight := levelWeight s;
     includePatterns := inc; excludePatterns := exc;
     buffer := buffer s; transports := transports s; paused := paused s;
     onceKeys := onceKeys s; nsLevelRules := nsLevelRules s;
     sampleRules := sampleRules s; redactorFn := redactorFn s |}.

Definition with_bufferSize (n : Z) (s : State) : State :=
  {| config_level := config_level s; config_namespaces := config_namespaces s;
     config_bufferSize := n;
     config_printToNative := config_printToNative s;
     config_captureStack := config_captureStack s; levelWeight := levelWeight s;
     includePatterns := includePatterns s; excludePatterns := excludePatterns s;
     buffer := buffer s; transports := transports s; paused := paused s;
     onceKeys := onceKeys s; nsLevelRules := nsLevelRules s;
     sampleRules := sampleRules s; redactorFn := redactorFn s |}.

Definition with_buffer (b : list BufferedEntry) (s : State) : State :=
  {| config_level := config_level s; config_namespaces := config_namespaces s;
     config_bufferSize := config_bufferSize s;
     config_printToNative := config_printToNative s;
     config_captureStack := config_captureStack s; levelWeight := levelWeight s;
     includePatterns := includePatterns s; excludePatterns := excludePatterns s;
     buffer := b; transports := transports s; paused := paused s;
     onceKeys := onceKeys s; nsLevelRules := nsLevelRules s;
     sampleRules := sampleRules s; redactorFn := redactorFn s |}.

Definition with_transports (t : list nat) (s : State) : State :=
  {| config_level := config_level s; config_namespaces := config_namespaces s;
     config_bufferSize := config_bufferSize s;
     config_printToNative := config_printToNative s;
     config_captureStack := config_captureStack s; levelWeight := levelWeight s;
     includePatterns := includePatterns s; excludePatterns := excludePatterns s;
     buffer := buffer s; transports := t; paused := paused s;
     onceKeys := onceKeys s; nsLevelRules := nsLevelRules s;
     sampleRules := sampleRules s; redactorFn := redactorFn s |}.

Definition with_onceKeys (k : gset string) (s : State) : State :=
  {| config_level := config_level s; config_namespaces := config_namespaces s;
     config_bufferSize := config_bufferSize s;
     config_printToNative := config_printToNative s;
     config_captureStack := config_captureStack s; levelWeight := levelWeight s;
     includePatterns := includePatterns s; excludePatterns := excludePatterns s;
     buffer := buffer s; transports := transports s; paused := paused s;
     onceKeys := k; nsLevelRules := nsLevelRules s;
     sampleRules := sampleRules s; redactorFn := redactorFn s |}.

Definition with_nsLevelRules (r : list (Rule threshold)) (s : State) : State :=
  {| config_level := config_level s; config_namespaces := config_namespaces s;
     config_bufferSize := config_bufferSize s;
     config_printToNative := config_printToNative s;
     config_captureStack := config_captureStack s; levelWeight := levelWeight s;
     includePatterns := includePatterns s; excludePatterns := excludePatterns s;
     buffer := buffer s; transports := transports s; paused := paused s;
     onceKeys := onceKeys s; nsLevelRules := r;
     sampleRules := sampleRules s; redactorFn := redactorFn s |}.

Definition with_sampleRules (r : list (Rule Q)) (s : State) : State :=
  {| config_level := config_level s; config_namespaces := config_namespaces s;
     config_bufferSize := config_bufferSize s;
     config_printToNative := config_printToNative s;
     config_captureStack := config_captureStack s; levelWeight := levelWeight s;
     includePatterns := includePatterns s; excludePatterns := excludePatterns s;
     buffer := buffer s; transports := transports s; paused := paused s;
     onceKeys := onceKeys s; nsLevelRules := nsLevelRules s;
     sampleRules := r; redactorFn := redactorFn s |}.

Definition with_redactorFn (f : option nat) (s : State) : State :=
  {| config_level := config_level s; config_namespaces := config_namespaces s;
     config_bufferSize := config_bufferSize s;
     config_printToNative := config_printToNative s;
     config_captureStack := config_captureStack s; levelWeight := levelWeight s;
     includePatterns := includePatterns s; excludePatterns := excludePatterns s;
     buffer := buffer s; transports := transports s; paused := paused s;
     onceKeys := onceKeys s; nsLevelRules := nsLevelRules s;
     sampleRules := sampleRules s; redactorFn := f |}.

Definition with_paused (p : bool) (s : State) : State :=
  {| config_level := config_level s; config_namespaces := config_namespaces s;
     config_bufferSize := config_bufferSize s;
     config_printToNative := config_printToNative s;
     config_captureStack := config_captureStack s; levelWeight := levelWeight s;
     includePatterns := includePatterns s; excludePatterns := excludePatterns s;
     buffer := buffer s; transports := transports s; paused := p;
     onceKeys := onceKeys s; nsLevelRules := nsLevelRules s;
     sampleRules := sampleRules s; redactorFn := redactorFn s |}.

(** The state the module starts with ([DEFAULT_CONFIG]). *)
Definition initial_state : result State :=
  star ← createWildcardRegex "*";
  Ok {| config_level := "debug"; config_namespaces := "*";
        config_bufferSize := 500; config_printToNative := true;
        config_captureStack := VBool false; levelWeight := LEVELS_debug;
        includePatterns := [star]; excludePatterns := [];
        buffer := []; transports := []; paused := false;
        onceKeys := ∅; nsLevelRules := []; sampleRules := [];
        redactorFn := None |}.

(** ** Configuration operations *)

(** [setLevel(levelName)] *)
Definition setLevel (levelName : string) (s : State) : State :=
  match LEVELS_own levelName with
  | None => s
  | Some w => with_level levelName w s
  end.

(** [getLevel()] *)
Definition getLevel (s : State) : string := config_level s.

(** [n | 0] for an integral number [n]. *)
Definition to_int32 (n : Z) : Z :=
  (n + 2147483648) mod 4294967296 - 2147483648.

(** The [bufferSize] branch of [applyOverrides], reached through
    [updateConfig({bufferSize: n})] with an integral [n]. *)
Definition updateConfig_bufferSize (n : Z) (s : State) : State :=
  if 0 <? n then with_bufferSize (to_int32 n) s else s.

(** The loop of [enableNamespaces] over the tokens. *)
Fixpoint compile_tokens (tokens : list string)
  (includes excludes : list RegExp.program)
  : result (list RegExp.program * list RegExp.program) :=
  match tokens with
  | [] => Ok (includes, excludes)
  | t :: rest =>
      let token := Str.trim t in
      match token with
      | "" => compile_tokens rest includes excludes
      | String c tail =>
          if (c =? "-")%char
          then p ← createWildcardRegex tail;
               compile_tokens rest includes (excludes ++ [p])
          else p ← createWildcardRegex token;
               compile_tokens rest (includes ++ [p]) excludes
      end
  end.

(** [enableNamespaces(patternString)] *)
Definition enableNamespaces (patternString : value) (s : State) : result State :=
  let reset :=
    star ← createWildcardRegex "*"; Ok (with_namespaces "*" [star] [] s) in
  match patternString with
  | VStr spec =>
      if Str.is_empty (Str.trim spec) then reset
      else
        let tokens :=
          List.filter (fun t => negb (Str.is_empty t))
            (Str.split_comma (Str.replace_space_runs spec)) in
        '(includes, excludes) ← compile_tokens tokens [] [];
        includes' ←
          (match includes with
           | [] => star ← createWildcardRegex "*"; Ok [star]
           | _ => Ok includes
           end);
        Ok (with_namespaces spec includes' excludes s)
  | _ => reset
  end.

(** The namespace a check works on: [whenEmpty] tells whether the empty
    string also falls back to ['global']. *)
Definition namespace_or_global (whenEmpty : bool) (namespace : value) : string :=
  match namespace with
  | VStr ns => if whenEmpty && Str.is_empty ns then "global" else ns
  | _ => "global"
  end.

(** [isNamespaceEnabled(namespace)] *)
Definition isNamespaceEnabled (namespace : value) (s : State) : bool :=
  let ns := namespace_or_global true namespace in
  if existsb (fun re => RegExp.test re ns) (excludePatterns s) then false
  else existsb (fun re => RegExp.test re ns) (includePatterns s).

(** The first rule whose pattern matches. *)
Fixpoint first_match {V} (rules : list (Rule V)) (ns : string) : option V :=
  match rules with
  | [] => None
  | r :: rest =>
      if RegExp.test (re r) ns then Some (rule_value r) else first_match rest ns
  end.

(** [compilePatternMap(map, transform)]; [None] is a [map] that is not an
    object, the list holds the own enumerable properties in enumeration
    order. *)
Fixpoint compile_rules {A V} (props : list (string * A)) (transform : A -> V)
  : result (list (Rule V)) :=
  match props with
  | [] => Ok []
  | (key, a) :: rest =>
      let val := transform a in
      p ← createWildcardRegex key;
      out ← compile_rules rest transform;
      Ok ({| re := p; rule_value := val |} :: out)
  end.

Definition compilePatternMap {A V} (map : option (list (string * A)))
  (transform : A -> V) : result (list (Rule V)) :=
  match map with
  | None => Ok []
  | Some props => compile_rules props transform
  end.

(** [setNamespaceLevels(map)], the map giving a level name per pattern. *)
Definition setNamespaceLevels (map : option (list (string * string)))
  (s : State) : result State :=
  rules ← compilePatternMap map level_rule_value;
  Ok (with_nsLevelRules rules s).

Definition Qlt_bool (a b : Q) : bool := negb (Qle_bool b a).

(** The transform of [setSampling]; a rate is seen through [Number(rate)],
    [None] being [NaN]. *)
Definition sample_rule_value (rate : option Q) : Q :=
  match rate with
  | Some n => if Qle_bool 0 n && Qle_bool n 1 then n else 1%Q
  | None => 1%Q
  end.

(** [setSampling(map)] *)
Definition setSampling (map : option (list (string * option Q)))
  (s : State) : result State :=
  rules ← compilePatternMap map sample_rule_value;
  Ok (with_sampleRules rules s).

(** [pause()], [resume()], [isPaused()] *)
Definition pause (s : State) : State := with_paused true s.
Definition resume (s : State) : State := with_paused false s.
Definition isPaused (s : State) : bool := paused s.

(** [setRedactor(fn)] *)
Definition setRedactor (fn : value) (s : State) : State :=
  with_redactorFn (match fn with VFun id _ => Some id | _ => None end) s.

(** [getEffectiveLevelWeight(namespace)] *)
Definition getEffectiveLevelWeight (namespace : value) (s : State) : threshold :=
  let ns := namespace_or_global false namespace in
  match first_match (nsLevelRules s) ns with
  | Some t => t
  | None => Weight (levelWeight s)
  end.

(** [Math.random()] *)
Definition next_random : M Q := fun w =>
  (Ok (random h (draws w)),
   {| st := st w; draws := S (draws w); ticks := ticks w; events := events w |}).

(** [shouldPassSampling(namespace)] *)
Definition shouldPassSampling (namespace : value) : M bool :=
  s ← get_state;
  let ns := namespace_or_global false namespace in
  match first_match (sampleRules s) ns with
  | Some rate => x ← next_random; mret (Qlt_bool x rate)
  | None => mret true
  end.

(** ** RecordBuilder *)

(** [applyRedaction(argsLike, levelName, namespace)], for a redactor that
    leaves the array it is handed as it is ([Live.applyRedaction] is the
    function for one that edits it). *)
Definition applyRedaction (args : list value)
  (levelName namespace : string) : M (list value) :=
  s ← get_state;
  match redactorFn s with
  | None => mret args
  | Some fn =>
      try_catch
        (out ← lift (redactor_call h fn args levelName namespace);
         match out with
         | Some arr => mret arr
         | None => mret args
         end)
        (mret args)
  end.

(** [stringifyForPreview(value)] *)
Definition stringifyForPreview (v : value) : string :=
  match v with
  | VNull => "null"
  | VUndefined => "undefined"
  | VStr s => s
  | VNum lit => number_text h lit
  | VBool b => bool_to_string b
  | VBigInt n => Z_to_string n
  | VFun _ _ => "[function]"
  | VSymbol _ => "[symbol]"
  | VObj o =>
      match obj_json o with
      | Ok text => text
      | Throw _ => "[object]"
      end
  end.

(** The loop of [buildPreview]: it stops after the argument that takes the
    joined text over 300 characters. *)
Fixpoint preview_parts (args : list value) (out : list string)
  : list string :=
  match args with
  | [] => out
  | a :: rest =>
      let out' := out ++ [stringifyForPreview a] in
      if (300 <? String.length (join " " out'))%nat then out'
      else preview_parts rest out'
  end.

(** [buildPreview(argsLike)] *)
Definition buildPreview (args : list value) : string :=
  match Ok (join " " (preview_parts args [])) with
  | Ok text => text
  | Throw _ => "[unavailable]"
  end.

(** [maybeCaptureStack(levelName)] *)
Definition maybeCaptureStack (levelName : string) (s : State) : string :=
  let cfg := config_captureStack s in
  if negb (truthy cfg) then ""
  else
    let need :=
      match cfg with
      | VStr c =>
          String.eqb c "always"
          || (String.eqb c "error"
              && (String.eqb levelName "error" || String.eqb levelName "warn"))
      | VBool b => b
      | _ => false
      end in
    if need then stack_text h else "".

(** ** TransportHub *)

(** [addTransport(fn)] *)
Definition addTransport (fn : value) (s : State) : State :=
  match fn with
  | VFun id _ => with_transports (transports s ++ [id]) s
  | _ => s
  end.

(** [list.indexOf(x)] followed by [list.splice(i, 1)] when found. *)
Fixpoint remove_first (x : nat) (l : list nat) : list nat :=
  match l with
  | [] => []
  | y :: rest => if (x =? y)%nat then rest else y :: remove_first x rest
  end.

(** [removeTransport(fn)] *)
Definition removeTransport (fn : value) (s : State) : State :=
  match fn with
  | VFun id _ => with_transports (remove_first id (transports s)) s
  | _ => s
  end.

(** One turn of the loop of [notifyTransports]: the call and its
    [try]/[catch]. *)
Definition notify_one (entry : LogRecord) (sink : nat) : M unit :=
  try_catch
    (_ ← emit_event (ESink sink entry); lift (sink_call h sink entry))
    (mret tt).

Fixpoint notify_all (entry : LogRecord) (sinks : list nat) : M unit :=
  match sinks with
  | [] => mret tt
  | sink :: rest => _ ← notify_one entry sink; notify_all entry rest
  end.

(** [notifyTransports(entry)], for sinks that act on the outside world
    only: they leave the record as it is and do not register or remove
    transports while the fan-out runs ([Live.notifyTransports] is the
    function for sinks that do). *)
Definition notifyTransports (entry : LogRecord) : M unit :=
  s ← get_state;
  match transports s with
  | [] => mret tt
  | sinks => notify_all entry sinks
  end.

(** ** RingBuffer *)

(** [addToBuffer(entry)] *)
Definition addToBuffer (entry : BufferedEntry) (s : State) : State :=
  let pushed := buffer s ++ [entry] in
  let overflow := Z.of_nat (length pushed) - config_bufferSize s in
  if 0 <? overflow
  then with_buffer (drop (Z.to_nat overflow) pushed) s
  else with_buffer pushed s.

(** ** emit *)

(** [new Date()] and its [toISOString()] *)
Definition read_wall_clock : M string := fun w =>
  (Ok (wall_clock h (ticks w)),
   {| st := st w; draws := draws w; ticks := S (ticks w); events := events w |}).

(** The call of the original console method with the prefix and the
    sanitized arguments; the prefix is the presentation layer's. *)
Definition print_native (levelName : string) (args : list value)
  : M unit :=
  _ ← emit_event (ENative levelName args);
  lift (native_call h levelName args).

(** [emit(levelName, namespace, argsLike, colorOverride)].  The result is
    the record built, if the call was accepted; the JavaScript function
    itself answers [undefined]. *)
Definition emit (levelName namespace : string) (args : list value)
  : M (option LogRecord) :=
  let levelName :=
    match LEVELS_own levelName with Some _ => levelName | None => "log" end in
  s ← get_state;
  let nsWeight := getEffectiveLevelWeight (VStr namespace) s in
  if match LEVELS_own levelName with
     | Some w => below w nsWeight
     | None => false
     end
  then mret None
  else
    pass ← shouldPassSampling (VStr namespace);
    if negb pass then mret None
    else if negb (isNamespaceEnabled (VStr namespace) s) then mret None
    else
      time ← read_wall_clock;
      sanitized ← applyRedaction args levelName namespace;
      _ ← (if negb (paused s) && config_printToNative s
           then try_catch (print_native levelName sanitized) (mret tt)
           else mret tt);
      let stack := maybeCaptureStack levelName s in
      let entry :=
        {| rec_time := time; rec_level := levelName;
           rec_namespace := namespace;
           rec_preview := buildPreview sanitized;
           rec_args := sanitized;
           rec_stack := if Str.is_empty stack then None else Some stack |} in
      _ ← notifyTransports entry;
      _ ← modify (addToBuffer
                    {| time := rec_time entry; level := rec_level entry;
                       namespace := rec_namespace entry;
                       preview := rec_preview entry |});
      mret (Some entry).

(** ** Loggers *)

(** The [counters] and [timers] of a logger are plain objects ([{}]) used
    as maps from names.  The properties such an object has of its own are
    a [gmap]; under a name it inherits from [Object.prototype] it answers
    the member of the prototype until the name is assigned.  [__proto__] is
    an accessor of the prototype: it is never a property of the object's
    own, and assigning it a number or a text does nothing. *)
Definition own {V} (o : gmap string V) (k : string) : option V :=
  if String.eqb k "__proto__" then None else o !! k.

Definition assign {V} (k : string) (v : V) (o : gmap string V)
  : gmap string V :=
  if String.eqb k "__proto__" then o else <[k := v]> o.

(** [String(o[k])] for a name [o] inherits: the text of a built-in
    function, or that of [Object.prototype] itself under [__proto__]. *)
Definition inherited_text (k : string) : string :=
  if String.eqb k "__proto__" then "[object Object]" else function_text h k.

(** A property of [counters]: a number, or the text [+ 1] makes of a
    member of the prototype. *)
Inductive counter : Type :=
| Count (n : Z)
| CountText (t : string).

Definition counter_text (c : counter) : string :=
  match c with
  | Count n => Z_to_string n
  | CountText t => t
  end.

(** [(counters[k] || 0) + 1] *)
Definition next_count (counters : gmap string counter) (k : string)
  : counter :=
  match own counters k with
  | Some (Count n) => Count (n + 1)
  | Some (CountText t) =>
      if Str.is_empty t then Count 1 else CountText (t +:+ "1")
  | None =>
      if inherited k then CountText (inherited_text k +:+ "1") else Count 1
  end.

(** [String(counters[k])] *)
Definition count_text (counters : gmap string counter) (k : string)
  : string :=
  match own counters k with
  | Some c => counter_text c
  | None => if inherited k then inherited_text k else "undefined"
  end.

Record Logger : Type := {
  lg_ns : string;
  lg_counters : gmap string counter;
  lg_timers : gmap string Q
}.

(** [createLogger(namespace, options)] *)
Definition createLogger (namespace : value) : Logger :=
  {| lg_ns := namespace_or_global true namespace;
     lg_counters := ∅; lg_timers := ∅ |}.

(** The severity methods [trace], [debug], [log], [info], [warn], [error]. *)
Definition severity_methods : list string :=
  ["trace"; "debug"; "log"; "info"; "warn"; "error"].

Definition logger_log (lg : Logger) (method : string)
  (args : list value) : M (option LogRecord) :=
  emit method (lg_ns lg) args.

(** [logger.once(key, ...rest)] *)
Definition logger_once (lg : Logger) (arguments : list value)
  : M (option LogRecord) :=
  let key := match arguments with k :: _ => k | [] => VUndefined end in
  ks ← lift (to_string key);
  let k := lg_ns lg +:+ "|" +:+ ks in
  s ← get_state;
  if bool_decide (k ∈ onceKeys s) then mret None
  else
    _ ← modify (with_onceKeys ({[k]} ∪ onceKeys s));
    emit "info" (lg_ns lg) (tail arguments).

(** [resetOnce()] *)
Definition resetOnce (s : State) : State := with_onceKeys ∅ s.

(** [String(label || 'default')] *)
Definition label_key (label : value) : result string :=
  to_string (if truthy label then label else VStr "default").

(** [logger.count(label)] *)
Definition logger_count (lg : Logger) (label : value)
  : M (Logger * option LogRecord) :=
  k ← lift (label_key label);
  let counters := assign k (next_count (lg_counters lg) k) (lg_counters lg) in
  let lg' := {| lg_ns := lg_ns lg; lg_counters := counters;
                lg_timers := lg_timers lg |} in
  r ← emit "info" (lg_ns lg)
        [VStr ("count " +:+ k +:+ ": " +:+ count_text counters k)];
  mret (lg', r).

(** [logger.countReset(label)] *)
Definition logger_countReset (lg : Logger) (label : value)
  : M (Logger * option LogRecord) :=
  k ← lift (label_key label);
  let lg' := {| lg_ns := lg_ns lg;
                lg_counters := assign k (Count 0) (lg_counters lg);
                lg_timers := lg_timers lg |} in
  r ← emit "info" (lg_ns lg) [VStr ("countReset " +:+ k +:+ ": 0")];
  mret (lg', r).

(** [nowMs()] *)
Definition nowMs : M Q := fun w =>
  (Ok (monotonic h (ticks w)),
   {| st := st w; draws := draws w; ticks := S (ticks w); events := events w |}).

(** [logger.time(label)] *)
Definition logger_time (lg : Logger) (label : value) : M Logger :=
  key ← lift (label_key label);
  now ← nowMs;
  mret {| lg_ns := lg_ns lg; lg_counters := lg_counters lg;
          lg_timers := assign key now (lg_timers lg) |}.

(** [logger.timeEnd(label)].  Under a name [timers] inherits and does not
    have of its own, [start] is a member of the prototype: it is not
    [null], the duration is [NaN], whose [toFixed(1)] is ['NaN'], and
    [delete] removes nothing. *)
Definition logger_timeEnd (lg : Logger) (label : value)
  : M (Logger * option LogRecord) :=
  key ← lift (label_key label);
  match own (lg_timers lg) key with
  | Some start =>
      now ← nowMs;
      let dur := (now - start)%Q in
      let lg' := {| lg_ns := lg_ns lg; lg_counters := lg_counters lg;
                    lg_timers := delete key (lg_timers lg) |} in
      r ← emit "info" (lg_ns lg)
            [VStr ("Timer " +:+ key +:+ ": " +:+ toFixed1 h dur +:+ "ms")];
      mret (lg', r)
  | None =>
      if inherited key
      then
        _ ← nowMs;
        r ← emit "info" (lg_ns lg) [VStr ("Timer " +:+ key +:+ ": NaNms")];
        mret (lg, r)
      else mret (lg, None)
  end.

(** ** Buffer export and import *)

Definition newline : string := String "010" "".

(** The text of one entry at nesting depth one of
    [JSON.stringify(entries, null, 2)]. *)
Definition entry_text (e : BufferedEntry) : string :=
  "{" +:+ newline
  +:+ "    " +:+ JSON.quote "time" +:+ ": " +:+ JSON.quote (time e)
  +:+ "," +:+ newline
  +:+ "    " +:+ JSON.quote "level" +:+ ": " +:+ JSON.quote (level e)
  +:+ "," +:+ newline
  +:+ "    " +:+ JSON.quote "namespace" +:+ ": " +:+ JSON.quote (namespace e)
  +:+ "," +:+ newline
  +:+ "    " +:+ JSON.quote "preview" +:+ ": " +:+ JSON.quote (preview e)
  +:+ newline +:+ "  }".

(** The text between two entries of the exported array. *)
Definition entry_separator : string := "," +:+ newline +:+ "  ".

(** [JSON.stringify(entries, null, 2)] for an array of buffered entries:
    objects with the four string properties, in the order [addToBuffer]
    and [importBuffer] create them. *)
Definition stringify_entries (entries : list BufferedEntry) : result string :=
  match entries with
  | [] => Ok "[]"
  | _ =>
      Ok ("[" +:+ newline +:+ "  "
          +:+ join entry_separator (map entry_text entries)
          +:+ newline +:+ "]")
  end.

(** [exportBuffer()] *)
Definition exportBuffer (s : State) : string :=
  match stringify_entries (buffer s) with
  | Ok text => text
  | Throw _ => "[]"
  end.

(** The first argument of [importBuffer]: an array of plain data, or
    anything else. *)
Inductive import_data : Type :=
| DataArray (elems : list JSON.json)
| DataOther (v : value).

(** The second argument of [importBuffer], when given: an object, seen
    through its [append] property ([VUndefined] when it has none), or a
    value that is not an object ([null], [false], [0], a string), which
    has no [append] property. *)
Inductive import_options : Type :=
| Options (append : value)
| NotAnObject (v : value).

(** [e.name], for an element [e] of the imported array. *)
Definition element_field (e : JSON.json) (name : string)
  : result (option JSON.json) :=
  match e with
  | JSON.JNull => Throw "TypeError"
  | JSON.JObj props => Ok (JSON.lookup name props)
  | _ => Ok None
  end.

(** [String(field || fallback)] *)
Definition field_or (field : option JSON.json) (fallback : string)
  : result string :=
  match field with
  | Some j => if json_truthy j then json_to_string j else Ok fallback
  | None => Ok fallback
  end.

(** The callback of [arr.map] in [importBuffer]: the four properties of
    the entry are computed in turn, each reading its field and converting
    it; the clock is read only when [e.time] is falsy. *)
Definition import_entry (e : JSON.json) : M BufferedEntry :=
  t ← lift (element_field e "time");
  time ←
    (match t with
     | Some j =>
         if json_truthy j then lift (json_to_string j)
         else read_wall_clock
     | None => read_wall_clock
     end);
  l ← lift (element_field e "level");
  level ← lift (field_or l "log");
  n ← lift (element_field e "namespace");
  namespace ← lift (field_or n "global");
  p ← lift (element_field e "preview");
  preview ← lift (field_or p "");
  mret {| time := time; level := level;
          namespace := namespace; preview := preview |}.

Fixpoint import_entries (arr : list JSON.json)
  : M (list BufferedEntry) :=
  match arr with
  | [] => mret []
  | e :: rest =>
      x ← import_entry e; xs ← import_entries rest; mret (x :: xs)
  end.

(** [options && options.append !== false] as a condition: falsy options
    are the condition themselves. *)
Definition import_appends (options : option import_options) : bool :=
  match options with
  | None => false
  | Some (NotAnObject v) => truthy v
  | Some (Options append) =>
      match append with
      | VBool false => false
      | _ => true
      end
  end.

(** [Array.isArray(x) ? x : JSON.parse(String(x))], [None] when the
    conversion or the parse throws. *)
Definition import_source (data : import_data) : option JSON.json :=
  match data with
  | DataArray elems => Some (JSON.JArr elems)
  | DataOther v =>
      match to_string v with
      | Ok text => JSON.parse text
      | Throw _ => None
      end
  end.

(** [importBuffer(jsonOrArray, options)] *)
Definition importBuffer (data : import_data)
  (options : option import_options) : M bool :=
  let append := import_appends options in
  match import_source data with
  | Some (JSON.JArr arr) =>
      trimmed ← import_entries arr;
      _ ← modify (fun s =>
             let kept := if append then buffer s else [] in
             let pushed := kept ++ trimmed in
             let overflow :=
               Z.of_nat (length pushed) - config_bufferSize s in
             if 0 <? overflow
             then with_buffer (drop (Z.to_nat overflow) pushed) s
             else with_buffer pushed s);
      mret true
  | _ => mret false
  end.

(** [getBuffer()] *)
Definition getBuffer (s : State) : list BufferedEntry := buffer s.

End Pipeline.

(** * The notions the statements are written in *)

(** ** The specification's own words, for comparison *)

(** The pattern law of the specification: every character but [*] stands
    for itself and [*] for any run of characters. *)
Inductive spec_matches : string -> string -> Prop :=
| spec_matches_nil : spec_matches "" ""
| spec_matches_char c token ns :
    c <> "*"%char -> spec_matches token ns ->
    spec_matches (String c token) (String c ns)
| spec_matches_star run token ns :
    spec_matches token ns ->
    spec_matches (String "*" token) (run +:+ ns).

(** The same law with the runs [*] stands for restricted to the
    characters [.] matches. *)
Inductive wildcard_matches : string -> string -> Prop :=
| wildcard_matches_nil : wildcard_matches "" ""
| wildcard_matches_char c token ns :
    c <> "*"%char -> wildcard_matches token ns ->
    wildcard_matches (String c token) (String c ns)
| wildcard_matches_star run token ns :
    Str.all (fun c => negb (Str.is_line_terminator c)) run = true ->
    wildcard_matches token ns ->
    wildcard_matches (String "*" token) (run +:+ ns).

(** The acceptance decision of the specification: level, then sampling,
    then namespace.  [draw] is the random value the sampling check would
    take.  The answer tells whether the call is accepted and whether the
    draw was consumed. *)
Definition spec_decision (weight : Z) (effective : threshold)
  (rate : option Q) (draw : Q) (enabled : bool) : bool * bool :=
  if below weight effective then (false, false)
  else
    match rate with
    | Some r =>
        if negb (Qlt_bool draw r) then (false, true)
        else (enabled, true)
    | None => (enabled, false)
    end.

(** The tokens of a namespace specification, read as the specification
    describes: the include tokens, and the exclude tokens without their
    leading [-]. *)
Fixpoint split_tokens (tokens : list string) : list string * list string :=
  match tokens with
  | [] => ([], [])
  | t :: rest =>
      let '(includes, excludes) := split_tokens rest in
      match Str.trim t with
      | "" => (includes, excludes)
      | String c tail =>
          if (c =? "-")%char then (includes, tail :: excludes)
          else (String c tail :: includes, excludes)
      end
  end.

(** The include and exclude tokens of [enableNamespaces(patternString)]:
    the catch-all [*] is the only include when there is none. *)
Definition namespace_tokens (patternString : value)
  : list string * list string :=
  match patternString with
  | VStr spec =>
      if Str.is_empty (Str.trim spec) then (["*"], [])
      else
        let '(includes, excludes) :=
          split_tokens
            (List.filter (fun t => negb (Str.is_empty t))
               (Str.split_comma (Str.replace_space_runs spec))) in
        (match includes with [] => ["*"] | _ => includes end, excludes)
  | _ => (["*"], [])
  end.

(** The namespace a gate sees for an argument: ['global'] for anything
    that is not a non-empty string. *)
Definition gated_namespace (namespace : value) : string :=
  match namespace with
  | VStr ns => if Str.is_empty ns then "global" else ns
  | _ => "global"
  end.

(** The last [n] elements of a list. *)
Definition last_n {A} (n : nat) (l : list A) : list A :=
  drop (length l - n)%nat l.

(** Entries whose [time], [level] and [namespace] are not empty, as the
    ones [emit] stores are. *)
Definition entry_filled (e : BufferedEntry) : bool :=
  negb (Str.is_empty (time e)) && negb (Str.is_empty (level e))
  && negb (Str.is_empty (namespace e)).

(** ** Sequences of operations *)




(** Appends alone. *)
Definition append_all (es : list BufferedEntry) (s : State) : State :=
  fold_left (fun acc e => addToBuffer e acc) es s.

(** [importBuffer(exportBuffer(), {append: false})] *)
Definition export_then_import (h : Host) : M bool := fun w =>
  importBuffer h (DataOther (VStr (exportBuffer (st w))))
    (Some (Options (VBool false))) w.

(** Registrations and removals of transports. *)
Inductive transport_op : Type :=
| TAdd (fn : value)
| TRemove (fn : value).

Definition run_transport_op (s : State) (op : transport_op) : State :=
  match op with
  | TAdd fn => addTransport fn s
  | TRemove fn => removeTransport fn s
  end.

Definition run_transport_ops (ops : list transport_op) (s : State) : State :=
  fold_left run_transport_op ops s.

(** The number of registrations of a sink a sequence of operations leaves,
    counted from the operations alone: [n] is the number before them. *)
Fixpoint registrations (sink : nat) (ops : list transport_op) (n : nat) : nat :=
  match ops with
  | [] => n
  | TAdd (VFun id _) :: rest =>
      registrations sink rest (if (id =? sink)%nat then S n else n)
  | TRemove (VFun id _) :: rest =>
      registrations sink rest (if (id =? sink)%nat then Nat.pred n else n)
  | _ :: rest => registrations sink rest n
  end.

(** The number of times [x] stands in [l]. *)
Fixpoint occurrences (x : nat) (l : list nat) : nat :=
  match l with
  | [] => 0
  | y :: rest => (if (y =? x)%nat then 1 else 0) + occurrences x rest
  end.

(** ** The pipeline as a function of the world

    What the monadic definitions compute, written without the monad; the
    lemmas [emit_run], [notifyTransports_run], [importBuffer_run] and the
    like relate the two. *)

Definition add_events (es : list event) (w : World) : World :=
  {| st := st w; draws := draws w; ticks := ticks w; events := events w ++ es |}.

Definition with_state (s : State) (w : World) : World :=
  {| st := s; draws := draws w; ticks := ticks w; events := events w |}.

(** One more clock reading, one more random draw. *)
Definition tick (w : World) : World :=
  {| st := st w; draws := draws w; ticks := S (ticks w); events := events w |}.

Definition draw (w : World) : World :=
  {| st := st w; draws := S (draws w); ticks := ticks w; events := events w |}.

(** The program [createWildcardRegex] builds for a token, item by item. *)
Definition translate_char (c : ascii) : RegExp.item :=
  if (c =? "*")%char then RegExp.IStar RegExp.AAny
  else RegExp.IOne (RegExp.AChar c).

Fixpoint translate (token : string) : RegExp.program :=
  match token with
  | "" => []
  | String c r => translate_char c :: translate r
  end.

Definition compiled (token : string) : RegExp.program :=
  RegExp.IBegin :: translate token ++ [RegExp.IEnd].

(** The source text of a token between [^] and [$], and of one character
    of it. *)
Definition expand (token : string) : string :=
  star_to_dotstar (escape_special token).

Definition expand_char (c : ascii) : string :=
  if (c =? "*")%char then ".*"
  else if Str.mem c ".+?^${}()|[]\" then String "\" (String c "")
  else String c "".

(** The loop a starred atom runs, with the rest of the program as its
    continuation. *)
Fixpoint star_run (accepts : ascii -> bool) (k : bool -> string -> bool)
  (at_start : bool) (s : string) : bool :=
  k at_start s
  || match s with
     | String c s' => accepts c && star_run accepts k false s'
     | "" => false
     end.

(** The arguments after redaction: the redactor's array, the original
    arguments when there is no redactor, when it throws and when it does
    not answer an array. *)
Definition redacted (h : Host) (s : State) (args : list value)
  (levelName namespace : string) : list value :=
  match redactorFn s with
  | None => args
  | Some fn =>
      match redactor_call h fn args levelName namespace with
      | Ok (Some arr) => arr
      | _ => args
      end
  end.

(** The record an accepted call builds. *)
Definition built_record (h : Host) (s : State) (now : string)
  (levelName namespace : string) (args : list value) : LogRecord :=
  let sanitized := redacted h s args levelName namespace in
  let stack := maybeCaptureStack h levelName s in
  {| rec_time := now; rec_level := levelName; rec_namespace := namespace;
     rec_preview := buildPreview h sanitized; rec_args := sanitized;
     rec_stack := if Str.is_empty stack then None else Some stack |}.

(** Its projection for the buffer. *)
Definition trimmed (r : LogRecord) : BufferedEntry :=
  {| time := rec_time r; level := rec_level r; namespace := rec_namespace r;
     preview := rec_preview r |}.

(** What an accepted call does to the world: one clock reading, the native
    print unless paused or disabled, one invocation per registered sink in
    order, one append. *)
Definition deliver (h : Host) (levelName namespace : string)
  (args : list value) (w : World) : LogRecord * World :=
  let s := st w in
  let r := built_record h s (wall_clock h (ticks w)) levelName namespace args in
  (r,
   with_state (addToBuffer (trimmed r) s)
     (add_events
        ((if negb (paused s) && config_printToNative s
          then [ENative levelName (rec_args r)] else [])
         ++ map (fun sink => ESink sink r) (transports s))
        (tick w))).

(** The level [emit] works with, and its first gate. *)
Definition normal_level (levelName : string) : string :=
  match LEVELS_own levelName with Some _ => levelName | None => "log" end.

Definition level_rejects (levelName namespace : string) (s : State) : bool :=
  match LEVELS_own (normal_level levelName) with
  | Some w => below w (getEffectiveLevelWeight (VStr namespace) s)
  | None => false
  end.

(** Eviction from the front down to the capacity. *)
Definition evict {A} (cap : Z) (l : list A) : list A :=
  let overflow := Z.of_nat (length l) - cap in
  if 0 <? overflow then drop (Z.to_nat overflow) l else l.

(** What [importBuffer] stores once the imported entries are built. *)
Definition store_imported (append : bool) (imported : list BufferedEntry)
  (s : State) : State :=
  with_buffer
    (evict (config_bufferSize s)
       ((if append then buffer s else []) ++ imported)) s.

(** The value [JSON.parse] reads from the text of an entry. *)
Definition entry_json (e : BufferedEntry) : JSON.json :=
  JSON.JObj
    [("time", JSON.JStr (time e)); ("level", JSON.JStr (level e));
     ("namespace", JSON.JStr (namespace e)); ("preview", JSON.JStr (preview e))].

(** The entry [importBuffer] makes of an element that is not [null]. *)
Definition get_field (e : JSON.json) (name : string) : option JSON.json :=
  match e with
  | JSON.JObj props => JSON.lookup name props
  | _ => None
  end.

Definition time_given (h : Host) (e : JSON.json) : bool :=
  match get_field e "time" with
  | Some j => json_truthy h j
  | None => false
  end.

Definition coerce_entry (h : Host) (e : JSON.json) (now : string)
  : result BufferedEntry :=
  t ← field_or h (get_field e "time") now;
  l ← field_or h (get_field e "level") "log";
  n ← field_or h (get_field e "namespace") "global";
  p ← field_or h (get_field e "preview") "";
  Ok {| time := t; level := l; namespace := n; preview := p |}.

(** ** Data of the worked examples *)

(** The state of a fresh module, spelled out. *)
Definition default_state : State :=
  {| config_level := "debug"; config_namespaces := "*";
     config_bufferSize := 500; config_printToNative := true;
     config_captureStack := VBool false; levelWeight := 20;
     includePatterns :=
       [[RegExp.IBegin; RegExp.IStar RegExp.AAny; RegExp.IEnd]];
     excludePatterns := [];
     buffer := []; transports := []; paused := false;
     onceKeys := ∅; nsLevelRules := []; sampleRules := [];
     redactorFn := None |}.

(** A host: the clock reads [T0], [T1], ..., every draw is one half, sink 1
    and redactor 1 throw, the others succeed, a number prints as its
    literal. *)
Definition example_host : Host :=
  {| random := fun _ => (1 # 2)%Q;
     wall_clock := fun n => "T" +:+ Z_to_string (Z.of_nat n);
     monotonic := fun n => (Z.of_nat n # 1)%Q;
     toFixed1 := fun _ => "0.0";
     number_text := fun lit => lit;
     number_truthy := fun lit => negb (String.eqb lit "0");
     stack_text := "Error";
     function_text := fun name =>
       "function "
       +:+ (if String.eqb name "constructor" then "Object" else name)
       +:+ "() { [native code] }";
     sink_call := fun sink _ => if (sink =? 1)%nat then Throw "sink" else Ok tt;
     redactor_call := fun fn args _ _ =>
       if (fn =? 1)%nat then Throw "redactor" else Ok (Some args);
     native_call := fun _ _ => Ok tt |}.

(** The example host with the draws 0.9, then 0.1 ever after. *)
Definition two_draws_host : Host :=
  {| random := fun n => if (n =? 0)%nat then (9 # 10)%Q else (1 # 10)%Q;
     wall_clock := wall_clock example_host;
     monotonic := monotonic example_host;
     toFixed1 := toFixed1 example_host;
     number_text := number_text example_host;
     number_truthy := number_truthy example_host;
     stack_text := stack_text example_host;
     function_text := function_text example_host;
     sink_call := sink_call example_host;
     redactor_call := redactor_call example_host;
     native_call := native_call example_host |}.

(** A world that has observed nothing yet. *)
Definition world_of (s : State) : World :=
  {| st := s; draws := 0; ticks := 0; events := [] |}.

(** The default state with the rule [{'db': 0.75}] of [setSampling]. *)
Definition sampled_state : State :=
  with_sampleRules
    [{| re := [RegExp.IBegin; RegExp.IOne (RegExp.AChar "d");
               RegExp.IOne (RegExp.AChar "b"); RegExp.IEnd];
        rule_value := (3 # 4)%Q |}]
    default_state.

Definition entry_a : BufferedEntry :=
  {| time := "2024-01-01T00:00:00.000Z"; level := "info"; namespace := "db";
     preview := "first" |}.

(** Its preview holds two double quotes. *)
Definition entry_b : BufferedEntry :=
  {| time := "2024-01-01T00:00:01.000Z"; level := "warn"; namespace := "app:ui";
     preview := "second " +:+ String "034" ("quoted" +:+ String "034" "") |}.

Definition entry_c : BufferedEntry :=
  {| time := "2024-01-01T00:00:02.000Z"; level := "error"; namespace := "global";
     preview := "" |}.

(** [createLogger('db')] *)
Definition db_logger : Logger := createLogger (VStr "db").

(** An object without prototype, as [Object.create(null)] makes:
    [String(.)] on it throws a [TypeError]. *)
Definition bare_object : value :=
  VObj {| obj_string := Throw "TypeError"; obj_json := Ok "{}" |}.

(** The array [[{time: 't', level: [], namespace: 'db', preview: 'p'}]]:
    [String([])] is the empty string. *)
Definition blank_level_data : import_data :=
  DataArray
    [JSON.JObj [("time", JSON.JStr "t"); ("level", JSON.JArr []);
                ("namespace", JSON.JStr "db"); ("preview", JSON.JStr "p")]].

(** * The rest of the module

    The functions of [src/better-console.js] around the pipeline: the
    configuration overrides, the clock text, the installation over the
    global console, the HTTP transport and the text escaping of the
    viewer.  The host is still the non-browser one. *)

(** ** Numbers handed to the configuration

    A JavaScript number seen as the comparisons and conversions of the
    configuration need it: a finite value, or one of the three others. *)

Inductive number : Type :=
| Finite (q : Q)
| NaN
| PosInfinity
| NegInfinity.

(** [n > 0] *)
Definition is_positive (n : number) : bool :=
  match n with
  | Finite q => Qlt_bool 0 q
  | PosInfinity => true
  | NaN | NegInfinity => false
  end.

(** The integer part of a finite number, towards zero. *)
Definition truncate (q : Q) : Z :=
  if Qle_bool 0 q then Qfloor q else Qceiling q.

(** [n | 0] *)
Definition number_to_int32 (n : number) : Z :=
  match n with
  | Finite q => to_int32 (truncate q)
  | NaN | PosInfinity | NegInfinity => 0
  end.

(** ** applyOverrides and updateConfig *)

(** The fields of [state.config] the presentation reads; the pipeline
    reads the others, which are fields of [State]. *)
Record Presentation : Type := {
  config_enableColors : bool;
  config_showTime : bool;
  config_showNamespace : bool;
  config_showIcons : bool;
  config_overlay : bool;
  config_overlayLimit : Z;
  config_autoInstall : bool
}.

(** The part of [DEFAULT_CONFIG] that is the presentation's. *)
Definition default_presentation : Presentation :=
  {| config_enableColors := true; config_showTime := true;
     config_showNamespace := true; config_showIcons := true;
     config_overlay := false; config_overlayLimit := 500;
     config_autoInstall := true |}.

(** An overrides object, each property seen through the [typeof] test
    [applyOverrides] puts before its use: [None] when the property is
    absent or of another type.  [captureStack] is taken as a string or a
    boolean, whatever its value. *)
Record Overrides : Type := {
  ov_level : option string;
  ov_namespaces : option string;
  ov_enableColors : option bool;
  ov_showTime : option bool;
  ov_showNamespace : option bool;
  ov_showIcons : option bool;
  ov_bufferSize : option number;
  ov_overlay : option bool;
  ov_overlayLimit : option number;
  ov_autoInstall : option bool;
  ov_captureStack : value
}.

Definition with_captureStack (c : value) (s : State) : State :=
  {| config_level := config_level s; config_namespaces := config_namespaces s;
     config_bufferSize := config_bufferSize s;
     config_printToNative := config_printToNative s;
     config_captureStack := c; levelWeight := levelWeight s;
     includePatterns := includePatterns s; excludePatterns := excludePatterns s;
     buffer := buffer s; transports := transports s; paused := paused s;
     onceKeys := onceKeys s; nsLevelRules := nsLevelRules s;
     sampleRules := sampleRules s; redactorFn := redactorFn s |}.

(** [applyOverrides(overrides)]; [None] is an argument that is falsy or
    not an object. *)
Definition applyOverrides (overrides : option Overrides)
  (sp : State * Presentation) : result (State * Presentation) :=
  match overrides with
  | None => Ok sp
  | Some o =>
      let s := sp.1 in
      let p := sp.2 in
      let s :=
        match ov_level o with
        | Some name =>
            match LEVELS_own name with
            | Some w => with_level name w s
            | None => s
            end
        | None => s
        end in
      s ← (match ov_namespaces o with
           | Some spec => enableNamespaces (VStr spec) s
           | None => Ok s
           end);
      let enableColors := default (config_enableColors p) (ov_enableColors o) in
      let showTime := default (config_showTime p) (ov_showTime o) in
      let showNamespace :=
        default (config_showNamespace p) (ov_showNamespace o) in
      let showIcons := default (config_showIcons p) (ov_showIcons o) in
      let s :=
        match ov_bufferSize o with
        | Some n =>
            if is_positive n then with_bufferSize (number_to_int32 n) s else s
        | None => s
        end in
      let overlay := default (config_overlay p) (ov_overlay o) in
      let overlayLimit :=
        match ov_overlayLimit o with
        | Some n =>
            if is_positive n then number_to_int32 n else config_overlayLimit p
        | None => config_overlayLimit p
        end in
      let autoInstall := default (config_autoInstall p) (ov_autoInstall o) in
      let s :=
        match ov_captureStack o with
        | VStr _ | VBool _ => with_captureStack (ov_captureStack o) s
        | _ => s
        end in
      Ok (s,
          {| config_enableColors := enableColors; config_showTime := showTime;
             config_showNamespace := showNamespace;
             config_showIcons := showIcons; config_overlay := overlay;
             config_overlayLimit := overlayLimit;
             config_autoInstall := autoInstall |})
  end.

(** [updateConfig(partial)] *)
Definition updateConfig (partial : option Overrides)
  (sp : State * Presentation) : result (State * Presentation) :=
  match partial with
  | None => Ok sp
  | Some _ => applyOverrides partial sp
  end.

(** [clearBuffer()] *)
Definition clearBuffer (s : State) : State := with_buffer [] s.

(** ** The clock text *)

(** The local time of day of a [Date], as its four getters answer it. *)
Record Date : Type := {
  getHours : Z;
  getMinutes : Z;
  getSeconds : Z;
  getMilliseconds : Z
}.

(** [pad2(n)] *)
Definition pad2 (n : Z) : string :=
  (if n <? 10 then "0" else "") +:+ Z_to_string n.

(** [pad3(n)] *)
Definition pad3 (n : Z) : string :=
  if n <? 10 then "00" +:+ Z_to_string n
  else if n <? 100 then "0" +:+ Z_to_string n
  else "" +:+ Z_to_string n.

(** [formatTime(d)] *)
Definition formatTime (d : Date) : string :=
  let hh := pad2 (getHours d) in
  let m := pad2 (getMinutes d) in
  let s := pad2 (getSeconds d) in
  let ms := pad3 (getMilliseconds d) in
  hh +:+ ":" +:+ m +:+ ":" +:+ s +:+ "." +:+ ms.

(** ** The text escaping of the viewer *)

(** The replacement of one of the five characters [escapeHtml] looks for:
    the ampersand, the angle brackets, the double quote and the
    apostrophe; the entity of [>] has no semicolon. *)
Definition escape_entity (c : ascii) : string :=
  if (c =? "&")%char then "&amp;"
  else if (c =? "<")%char then "&lt;"
  else if (c =? ">")%char then "&gt"
  else if (c =? "034")%char then "&quot;"
  else if (c =? "'")%char then "&#39;"
  else String c "".

Section Viewer.

Context (h : Host).

(** [escapeHtml(s)]: when [String(s)] throws, the handler applies it
    again. *)
Definition escapeHtml (s : value) : result string :=
  match to_string h s with
  | Ok text => Ok (Str.flat_map escape_entity text)
  | Throw _ => to_string h s
  end.

End Viewer.

(** ** Installation over the global console *)

(** What a property of the console object, of [state.original] or of
    [state.wrappers] can hold: a value of the host (a function when it is
    a [VFun]) or one of the functions of the module. *)
Inductive member : Type :=
| HostValue (v : value)
| Noop                               (* noop *)
| ConsoleWrapper (levelName : string) (* createConsoleWrapper(levelName) *)
| GroupWrapper (collapsed : bool)     (* createGroupWrapper(collapsed) *)
| GroupEndPassthrough                 (* the groupEnd of install *)
| AssertWrapper                       (* the assert of install *)
| TableWrapper.                       (* the table of install *)

(** [typeof x === 'function'], for the property [x] of an object. *)
Definition is_function (x : option member) : bool :=
  match x with
  | Some (HostValue (VFun _ _)) => true
  | Some (HostValue _) => false
  | Some _ => true
  | None => false
  end.

(** The functions [install] puts in place of the console's. *)
Definition is_wrapper (x : member) : bool :=
  match x with
  | HostValue _ | Noop => false
  | _ => true
  end.

(** The module-level [state] beside [State], and the console object of
    the global scope, an ordinary object with writable properties. *)
Record Runtime : Type := {
  rt_state : State;
  rt_config : Presentation;
  installed : bool;
  original : gmap string member;
  wrappers : gmap string member;
  console : gmap string member
}.

(** The [methods] of [install]. *)
Definition console_methods : list string :=
  ["debug"; "log"; "info"; "warn"; "error"; "trace"; "group";
   "groupCollapsed"; "groupEnd"; "assert"; "table"].

(** The original [install] keeps for method [m]: the console's own when
    it is a function, else its [log] when that is one, else [noop]. *)
Definition capture (c : gmap string member) (m : string) : member :=
  if is_function (c !! m) then default Noop (c !! m)
  else if is_function (c !! "log") then default Noop (c !! "log")
  else Noop.

(** The wrappers [install] creates, in the order it stores them. *)
Definition created_wrappers : list (string * member) :=
  [("debug", ConsoleWrapper "debug"); ("log", ConsoleWrapper "log");
   ("info", ConsoleWrapper "info"); ("warn", ConsoleWrapper "warn");
   ("error", ConsoleWrapper "error"); ("trace", ConsoleWrapper "trace");
   ("group", GroupWrapper false); ("groupCollapsed", GroupWrapper true)].

(** [o[k] = v] for each pair in turn. *)
Definition assign_all (props : list (string * member))
  (o : gmap string member) : gmap string member :=
  fold_left (fun acc kv => <[kv.1 := kv.2]> acc) props o.

(** [install(config)] *)
Definition install (config : option Overrides) (r : Runtime)
  : result Runtime :=
  if installed r then Ok r
  else
    sp ← applyOverrides config (rt_state r, rt_config r);
    let captured :=
      fold_left (fun acc m => <[m := capture (console r) m]> acc)
        console_methods (original r) in
    let made := assign_all created_wrappers (wrappers r) in
    let wrapped :=
      assign_all
        (created_wrappers
         ++ [("groupEnd", GroupEndPassthrough); ("assert", AssertWrapper);
             ("table", TableWrapper)])
        (console r) in
    Ok {| rt_state := sp.1; rt_config := sp.2; installed := true;
          original := captured; wrappers := made; console := wrapped |}.

(** [restore()] *)
Definition restore (r : Runtime) : Runtime :=
  if negb (installed r) then r
  else
    {| rt_state := rt_state r; rt_config := rt_config r; installed := false;
       original := original r; wrappers := wrappers r;
       console :=
         map_fold (fun m fn c => <[m := fn]> c) (console r) (original r) |}.

Section Wrappers.

Context (h : Host).

(** The [console.assert] of [install]. *)
Definition console_assert (arguments : list value) : M (option LogRecord) :=
  let condition := hd VUndefined arguments in
  if truthy h condition then mret None
  else emit h "error" "global" (VStr "Assertion failed:" :: tail arguments).

(** [logger.withContext(ctx)]: a logger of the same namespace with
    counters and timers of its own. *)
Definition logger_withContext (lg : Logger) : Logger :=
  createLogger (VStr (lg_ns lg)).

End Wrappers.

(** ** Prefixes, groups and tables

    The text printed before the arguments, and the two kinds of console
    call that do not go through [emit].  The call of an original method
    is, as in [emit], the host's [native_call] under the name of the
    method; here the prefix is the first of its arguments.  Two tables of
    the source are parameters: the upper-casing of strings, which leaves
    the code units below 256, and the icons, which are not made of
    them. *)

(** [ANSI.reset] and [LEVEL_COLORS_NODE] *)
Definition ANSI_reset : string := String "027" "[0m".

Definition LEVEL_COLORS_NODE : list (string * string) :=
  [("trace", String "027" "[35m"); ("debug", String "027" "[90m");
   ("log", String "027" "[32m"); ("info", String "027" "[34m");
   ("warn", String "027" "[33m"); ("error", String "027" "[31m")].

(** [typeof v] *)
Definition typeof (v : value) : string :=
  match v with
  | VUndefined => "undefined"
  | VNull | VObj _ => "object"
  | VBool _ => "boolean"
  | VNum _ => "number"
  | VBigInt _ => "bigint"
  | VStr _ => "string"
  | VSymbol _ => "symbol"
  | VFun _ _ => "function"
  end.

Section Printing.

Context (h : Host).

(** [s.toUpperCase()], and [LEVEL_ICONS[levelName]] when it is truthy. *)
Context (toUpperCase : string -> string).
Context (LEVEL_ICONS : string -> option string).

(** The local time [new Date()] answers, by the number of clock readings
    made before. *)
Context (local_time : nat -> Date).

(** [Array.isArray(o)] with the length of the array, and
    [Object.keys(o).length]; either may throw on a proxy. *)
Context (array_length : object -> result (option nat)).
Context (key_count : object -> result nat).

(** The [parts] of [buildNodePrefix] and [buildPlainPrefix]. *)
Definition prefix_parts (p : Presentation) (levelName timeText nsLabel : string)
  : list string :=
  (if config_showTime p then ["[" +:+ timeText +:+ "]"] else [])
  ++ ["[" +:+ toUpperCase levelName +:+ "]"]
  ++ (if config_showNamespace p && negb (Str.is_empty nsLabel)
      then [nsLabel] else []).

(** The [icon] of [buildNodePrefix] and [buildPlainPrefix]. *)
Definition prefix_icon (p : Presentation) (levelName : string) : string :=
  if config_showIcons p
  then match LEVEL_ICONS levelName with
       | Some icon => icon +:+ " "
       | None => ""
       end
  else "".

(** [buildNodePrefix(levelName, timeText, nsLabel, colorOverride)], for
    one of the six level names and a colour that is [null] or a string. *)
Definition buildNodePrefix (p : Presentation)
  (levelName timeText nsLabel : string) (colorOverride : option string)
  : string :=
  let nodeColor :=
    match colorOverride with
    | Some c =>
        if Str.is_empty c then default "" (assoc levelName LEVEL_COLORS_NODE)
        else c
    | None => default "" (assoc levelName LEVEL_COLORS_NODE)
    end in
  let parts := prefix_parts p levelName timeText nsLabel in
  let icon := prefix_icon p levelName in
  nodeColor +:+ icon +:+ join " " parts +:+ ANSI_reset.

(** [buildPlainPrefix(levelName, timeText, nsLabel)] *)
Definition buildPlainPrefix (p : Presentation)
  (levelName timeText nsLabel : string) : string :=
  let parts := prefix_parts p levelName timeText nsLabel in
  let icon := prefix_icon p levelName in
  icon +:+ join " " parts.

(** [new Date()] read for its local time. *)
Definition read_local_time : M Date := fun w =>
  (Ok (local_time (ticks w)),
   {| st := st w; draws := draws w; ticks := S (ticks w); events := events w |}).

(** [method.apply(globalScope.console, args)] for the original [name]:
    a [TypeError] when [state.original] holds no function under the
    name; what the function held there does (the console's own method,
    its [log] or [noop]) is the host's [native_call] under the name. *)
Definition apply_original (original : gmap string member) (name : string)
  (args : list value) : M unit :=
  if is_function (original !! name) then print_native h name args
  else throw "TypeError".

(** [groupWithNamespace(collapsed, namespace, colorOverride, argsLike)] *)
Definition groupWithNamespace (p : Presentation)
  (original : gmap string member) (collapsed : bool) (namespace : string)
  (colorOverride : option string) (args : list value) : M unit :=
  d ← read_local_time;
  let timeText := formatTime d in
  let nsLabel :=
    if negb (Str.is_empty namespace) && negb (String.eqb namespace "global")
    then "[" +:+ namespace +:+ "]" else "" in
  s ← get_state;
  if paused s then mret tt
  else
    let prefix :=
      if config_enableColors p
      then buildNodePrefix p "log" timeText nsLabel colorOverride
      else buildPlainPrefix p "log" timeText nsLabel in
    apply_original original (if collapsed then "groupCollapsed" else "group")
      (VStr prefix :: args).

(** [logger.group(...)], [logger.groupCollapsed(...)] and
    [logger.groupEnd()] *)
Definition logger_group (p : Presentation) (original : gmap string member)
  (lg : Logger) (collapsed : bool) (colorOverride : option string)
  (args : list value) : M unit :=
  groupWithNamespace p original collapsed (lg_ns lg) colorOverride args.

Definition logger_groupEnd (original : gmap string member) : M unit :=
  apply_original original "groupEnd" [].

(** [summarizeTable(subject)] *)
Definition summarizeTable (subject : value) : string :=
  match subject with
  | VObj o =>
      match array_length o with
      | Ok (Some n) => "rows " +:+ Z_to_string (Z.of_nat n)
      | Ok None =>
          match key_count o with
          | Ok n => "object keys " +:+ Z_to_string (Z.of_nat n)
          | Throw _ => "table"
          end
      | Throw _ => "table"
      end
  | _ => typeof subject
  end.

(** The [console.table] of [install] *)
Definition console_table (p : Presentation) (original : gmap string member)
  (args : list value) : M unit :=
  d ← read_local_time;
  let timeText := formatTime d in
  let prefix := buildPlainPrefix p "log" timeText "" in
  s ← get_state;
  _ ← (if negb (paused s) && is_function (original !! "log")
       then print_native h "log" [VStr (prefix +:+ " TABLE")]
       else mret tt);
  _ ← (if negb (paused s) && is_function (original !! "table")
       then print_native h "table" args
       else mret tt);
  time ← read_wall_clock h;
  modify (addToBuffer
            {| time := time; level := "log"; namespace := "global";
               preview :=
                 "TABLE " +:+ summarizeTable (hd VUndefined args) |}).

End Printing.

(** ** createHttpTransport *)

(** The options of [createHttpTransport], when given. *)
Record HttpOptions : Type := {
  opt_url : value;
  opt_batch : value;
  opt_intervalMs : option number   (* the property when it is a number *)
}.

(** The variables of the closure. *)
Record HttpTransport : Type := {
  ht_url : value;
  ht_batch : bool;
  ht_intervalMs : number;
  ht_queue : list LogRecord;
  ht_timer : bool                  (* an interval is scheduled *)
}.

(** A call of [fetch]: the text sent, beside the payload it is the text
    of. *)
Record request : Type := {
  req_payload : list LogRecord;
  req_body : string
}.

Definition with_queue (q : list LogRecord) (t : HttpTransport) : HttpTransport :=
  {| ht_url := ht_url t; ht_batch := ht_batch t;
     ht_intervalMs := ht_intervalMs t; ht_queue := q; ht_timer := ht_timer t |}.

Definition with_timer (b : bool) (t : HttpTransport) : HttpTransport :=
  {| ht_url := ht_url t; ht_batch := ht_batch t;
     ht_intervalMs := ht_intervalMs t; ht_queue := ht_queue t; ht_timer := b |}.

Section Http.

Context (h : Host).

(** [JSON.stringify(payload)], which throws on a record holding a BigInt
    or a cycle, and whether the host has a [fetch]. *)
Context (stringify_payload : list LogRecord -> result string).
Context (has_fetch : bool).

(** [createHttpTransport(opts)] *)
Definition createHttpTransport (opts : option HttpOptions) : HttpTransport :=
  {| ht_url :=
       match opts with
       | Some o => if truthy h (opt_url o) then opt_url o else VStr ""
       | None => VStr ""
       end;
     ht_batch :=
       match opts with
       | Some o => match opt_batch o with VBool true => true | _ => false end
       | None => false
       end;
     ht_intervalMs :=
       match opts with
       | Some o => default (Finite 2000) (opt_intervalMs o)
       | None => Finite 2000
       end;
     ht_queue := [];
     ht_timer := false |}.

(** [flush()]: the transport after it, and the calls of [fetch] made. *)
Definition flush (t : HttpTransport) : HttpTransport * list request :=
  match ht_queue t with
  | [] => (t, [])
  | first :: rest =>
      let payload := if ht_batch t then ht_queue t else [first] in
      let t' := with_queue (if ht_batch t then [] else rest) t in
      if negb (truthy h (ht_url t)) then (t', [])
      else
        match stringify_payload payload with
        | Throw _ => (t', [])
        | Ok dataStr =>
            if has_fetch
            then (t', [{| req_payload := payload; req_body := dataStr |}])
            else (t', [])
        end
  end.

(** [transport(entry)] *)
Definition transport (entry : LogRecord) (t : HttpTransport)
  : HttpTransport * list request :=
  if negb (truthy h (ht_url t)) then (t, [])
  else
    let t1 := with_queue (ht_queue t ++ [entry]) t in
    if ht_batch t1
    then ((if ht_timer t1 then t1 else with_timer true t1), [])
    else flush t1.

(** [dispose()] *)
Definition dispose (t : HttpTransport) : HttpTransport := with_timer false t.

(** What happens to a transport: an entry is handed to it, [flush] is
    called (by its owner, or by the interval when one is scheduled), it is
    disposed of. *)
Inductive http_op : Type :=
| Deliver (entry : LogRecord)
| Flush
| IntervalFires
| Dispose.

Definition run_http_op (op : http_op) (t : HttpTransport)
  : HttpTransport * list request :=
  match op with
  | Deliver entry => transport entry t
  | Flush => flush t
  | IntervalFires => if ht_timer t then flush t else (t, [])
  | Dispose => (dispose t, [])
  end.

(** The operations in turn, with the requests made along. *)
Fixpoint run_http_ops (ops : list http_op) (t : HttpTransport)
  : HttpTransport * list request :=
  match ops with
  | [] => (t, [])
  | op :: rest =>
      let '(t1, sent1) := run_http_op op t in
      let '(t2, sent2) := run_http_ops rest t1 in
      (t2, sent1 ++ sent2)
  end.

End Http.

(** The entries handed over by a sequence of operations. *)
Fixpoint delivered (ops : list http_op) : list LogRecord :=
  match ops with
  | [] => []
  | Deliver entry :: rest => entry :: delivered rest
  | _ :: rest => delivered rest
  end.

(** The entry an operation hands over, if any. *)
Definition http_input (op : http_op) : list LogRecord :=
  match op with
  | Deliver entry => [entry]
  | _ => []
  end.

(** The entries of the payloads of a list of requests, in order. *)
Definition sent_entries (sent : list request) : list LogRecord :=
  concat (map req_payload sent).

(** The conditions under which every payload taken from the queue is
    sent: the transport has a URL, the host a [fetch], and payloads are
    serialisable. *)
Definition sending (h : Host)
  (stringify_payload : list LogRecord -> result string) (has_fetch : bool)
  (t : HttpTransport) : Prop :=
  truthy h (ht_url t) = true
  /\ has_fetch = true
  /\ forall payload, exists body, stringify_payload payload = Ok body.

(** A request carries the text of its payload, which is not empty. *)
Definition well_formed_request
  (stringify_payload : list LogRecord -> result string) (q : request) : Prop :=
  stringify_payload (req_payload q) = Ok (req_body q) /\ req_payload q <> [].

(** ** Sinks and redactors that act on what they are given

    In the pipeline above a sink and a redactor are seen through their
    outcome alone.  A JavaScript callback can do more.  A sink is handed
    the record itself, whose properties it may assign, and it may call
    [removeTransport], [addTransport] or another function of the module
    while the fan-out runs.  A redactor is handed the array of arguments
    itself, which it may edit in place before it answers or throws.
    [Callbacks] says what a callback does to what it is given, and [Live]
    is the pipeline from the redaction on, written from the source again
    over such callbacks: the record and the state are read where the
    source reads them.  The loop of [notifyTransports] need not end then
    (a sink that registers a sink at every invocation keeps it running),
    so it is given a number of invocations it may make. *)

Record Callbacks : Type := {
  (** the sink, the record handed to it and the state: its outcome, the
      record and the state as it leaves them *)
  sink_run : nat -> LogRecord -> State -> result unit * LogRecord * State;
  (** the redactor, the array handed to it, the level, the namespace and
      the state: its answer, the array and the state as it leaves them *)
  redactor_run :
    nat -> list value -> string -> string -> State
    -> result (option (list value)) * list value * State
}.

Module Live.

(** Computations that may still be running when their fuel is spent. *)
Definition LM (A : Type) : Type := World -> option (result A * World).

#[global] Instance LM_ret : MRet LM := fun _ a w => Some (Ok a, w).
#[global] Instance LM_bind : MBind LM := fun _ _ k m w =>
  match m w with
  | Some (Ok a, w') => k a w'
  | Some (Throw e, w') => Some (Throw e, w')
  | None => None
  end.

Definition run {A} (m : M A) : LM A := fun w => Some (m w).

Section Live.

Context (h : Host) (cb : Callbacks).

(** [applyRedaction(argsLike, levelName, namespace)]: [arr], the copy of
    the arguments, is handed to the redactor, and it is [arr] as the
    redactor left it that is returned when the redactor throws or answers
    no array. *)
Definition applyRedaction (args : list value)
  (levelName namespace : string) : M (list value) := fun w =>
  match redactorFn (st w) with
  | None => (Ok args, w)
  | Some fn =>
      let '(out, arr, s) := redactor_run cb fn args levelName namespace (st w) in
      (Ok (match out with
           | Ok (Some answer) => answer
           | _ => arr
           end),
       with_state s w)
  end.

(** The loop of [notifyTransports] from the index [i] on:
    [state.transports] is read again at every turn, and every sink is
    handed the record as the sinks before it left it. *)
Fixpoint notify_from (fuel i : nat) (entry : LogRecord) : LM LogRecord :=
  fun w =>
    match transports (st w) !! i with
    | None => Some (Ok entry, w)
    | Some sink =>
        match fuel with
        | O => None
        | S fuel' =>
            let '(_, entry', s) := sink_run cb sink entry (st w) in
            notify_from fuel' (S i) entry'
              (with_state s (add_events [ESink sink entry] w))
        end
    end.

(** [notifyTransports(entry)]; the result is the record as the sinks left
    it. *)
Definition notifyTransports (fuel : nat) (entry : LogRecord) : LM LogRecord :=
  notify_from fuel 0 entry.

(** [emit(levelName, namespace, argsLike, colorOverride)] *)
Definition emit (fuel : nat) (levelName namespace : string)
  (args : list value) : LM (option LogRecord) :=
  let levelName :=
    match LEVELS_own levelName with Some _ => levelName | None => "log" end in
  s ← run get_state;
  let nsWeight := getEffectiveLevelWeight (VStr namespace) s in
  if match LEVELS_own levelName with
     | Some w => below w nsWeight
     | None => false
     end
  then mret None
  else
    pass ← run (shouldPassSampling h (VStr namespace));
    if negb pass then mret None
    else if negb (isNamespaceEnabled (VStr namespace) s) then mret None
    else
      time ← run (read_wall_clock h);
      sanitized ← run (applyRedaction args levelName namespace);
      s1 ← run get_state;
      _ ← run (if negb (paused s1) && config_printToNative s1
               then try_catch (print_native h levelName sanitized) (mret tt)
               else mret tt);
      let stack := maybeCaptureStack h levelName s1 in
      let entry :=
        {| rec_time := time; rec_level := levelName;
           rec_namespace := namespace;
           rec_preview := buildPreview h sanitized;
           rec_args := sanitized;
           rec_stack := if Str.is_empty stack then None else Some stack |} in
      entry' ← notifyTransports fuel entry;
      _ ← run (modify (addToBuffer
                         {| time := rec_time entry'; level := rec_level entry';
                            namespace := rec_namespace entry';
                            preview := rec_preview entry' |}));
      mret (Some entry').

End Live.

End Live.

(** Callbacks that do nothing but answer: the sinks and the redactor of a
    host, leaving the record, the array and the state as they are. *)
Definition passive (h : Host) : Callbacks :=
  {| sink_run := fun sink entry s => (sink_call h sink entry, entry, s);
     redactor_run := fun fn args levelName namespace s =>
       (redactor_call h fn args levelName namespace, args, s) |}.

(** Sink 1 removes itself when it is invoked, as a sink meant for one
    record does; sink 3 assigns the preview of the record it is handed;
    the other sinks do nothing.  Redactor 1 blanks the first argument in
    place and throws. *)
Definition example_callbacks : Callbacks :=
  {| sink_run := fun sink entry s =>
       (Ok tt,
        if (sink =? 3)%nat
        then {| rec_time := rec_time entry; rec_level := rec_level entry;
                rec_namespace := rec_namespace entry;
                rec_preview := "(hidden)"; rec_args := rec_args entry;
                rec_stack := rec_stack entry |}
        else entry,
        if (sink =? 1)%nat then removeTransport (VFun 1 "") s else s);
     redactor_run := fun fn args _ _ s =>
       if (fn =? 1)%nat
       then (Throw "redactor", VStr "***" :: tail args, s)
       else (Ok (Some args), args, s) |}.

(** The arguments [Live.applyRedaction] returns and the state the
    redactor leaves. *)
Definition live_redacted (cb : Callbacks) (args : list value)
  (levelName namespace : string) (s : State) : list value * State :=
  match redactorFn s with
  | None => (args, s)
  | Some fn =>
      let '(out, arr, s') := redactor_run cb fn args levelName namespace s in
      (match out with
       | Ok (Some answer) => answer
       | _ => arr
       end, s')
  end.

(** What [Live.emit] does to the world once a call has passed the gates:
    one clock reading, the redaction, the native print unless the state
    the redactor left is paused or has printing disabled, the fan-out,
    and one append of the record as the sinks left it. *)
Definition live_deliver (h : Host) (cb : Callbacks) (fuel : nat)
  (levelName namespace : string) (args : list value) (w : World)
  : option (result (option LogRecord) * World) :=
  let now := wall_clock h (ticks w) in
  let '(sanitized, s1) := live_redacted cb args levelName namespace (st w) in
  let stack := maybeCaptureStack h levelName s1 in
  let entry :=
    {| rec_time := now; rec_level := levelName; rec_namespace := namespace;
       rec_preview := buildPreview h sanitized; rec_args := sanitized;
       rec_stack := if Str.is_empty stack then None else Some stack |} in
  match
    Live.notify_from cb fuel 0 entry
      (add_events
         (if negb (paused s1) && config_printToNative s1
          then [ENative levelName sanitized] else [])
         (with_state s1 (tick w)))
  with
  | Some (Ok entry', w') =>
      Some (Ok (Some entry'),
            with_state (addToBuffer (trimmed entry') (st w')) w')
  | Some (Throw m, w') => Some (Throw m, w')
  | None => None
  end.

(** The example callbacks with every sink throwing once it has done what
    it does. *)
Definition failing_callbacks : Callbacks :=
  {| sink_run := fun sink entry s =>
       (Throw "sink", (sink_run example_callbacks sink entry s).1.2,
        (sink_run example_callbacks sink entry s).2);
     redactor_run := redactor_run example_callbacks |}.

(** The example callbacks with redactor 1 answering the array it has
    edited. *)
Definition answering_callbacks : Callbacks :=
  {| sink_run := sink_run example_callbacks;
     redactor_run := fun fn args levelName namespace s =>
       if (fn =? 1)%nat
       then (Ok (Some (VStr "***" :: tail args)), VStr "***" :: tail args, s)
       else redactor_run example_callbacks fn args levelName namespace s |}.

(** Two families of callbacks that do the same to what they are given,
    whatever they answer: they differ at most in the outcome of a sink. *)
Definition same_effects (cb1 cb2 : Callbacks) : Prop :=
  (forall sink entry s,
      (sink_run cb1 sink entry s).1.2 = (sink_run cb2 sink entry s).1.2
      /\ (sink_run cb1 sink entry s).2 = (sink_run cb2 sink entry s).2)
  /\ redactor_run cb1 = redactor_run cb2.

(** ** Notions of the further properties *)

(** Two hosts that differ at most in what their sinks and their native
    console do. *)
Definition same_but_sinks_and_console (h1 h2 : Host) : Prop :=
  random h1 = random h2 /\ wall_clock h1 = wall_clock h2
  /\ monotonic h1 = monotonic h2 /\ toFixed1 h1 = toFixed1 h2
  /\ number_text h1 = number_text h2 /\ number_truthy h1 = number_truthy h2
  /\ stack_text h1 = stack_text h2 /\ function_text h1 = function_text h2
  /\ redactor_call h1 = redactor_call h2.

(** The example host with every sink and the native console throwing. *)
Definition failing_host : Host :=
  {| random := random example_host; wall_clock := wall_clock example_host;
     monotonic := monotonic example_host; toFixed1 := toFixed1 example_host;
     number_text := number_text example_host;
     number_truthy := number_truthy example_host;
     stack_text := stack_text example_host;
     function_text := function_text example_host;
     sink_call := fun _ _ => Throw "sink";
     redactor_call := redactor_call example_host;
     native_call := fun _ _ => Throw "console" |}.

(** A record, and a serialisation of payloads that never fails. *)
Definition sample_record (text : string) : LogRecord :=
  {| rec_time := "2024-01-01T00:00:00.000Z"; rec_level := "info";
     rec_namespace := "db"; rec_preview := text; rec_args := [VStr text];
     rec_stack := None |}.

Definition preview_list (payload : list LogRecord) : result string :=
  Ok ("[" +:+ join "," (map rec_preview payload) +:+ "]").

(** [{url: '/logs'}] and [{url: '/logs', batch: true}] *)
Definition logs_options (batch : bool) : HttpOptions :=
  {| opt_url := VStr "/logs"; opt_batch := VBool batch; opt_intervalMs := None |}.

(** Calls that configure the levels. *)
Inductive level_op : Type :=
| SetLevel (levelName : string)
| SetNamespaceLevels (map : option (list (string * string)))
| UpdateConfig (partial : option Overrides).

Definition run_level_op (sp : State * Presentation) (op : level_op)
  : State * Presentation :=
  match op with
  | SetLevel levelName => (setLevel levelName sp.1, sp.2)
  | SetNamespaceLevels map =>
      match setNamespaceLevels map sp.1 with
      | Ok s => (s, sp.2)
      | Throw _ => sp
      end
  | UpdateConfig partial =>
      match updateConfig partial sp with
      | Ok sp' => sp'
      | Throw _ => sp
      end
  end.

Definition run_level_ops (ops : list level_op) (sp : State * Presentation)
  : State * Presentation :=
  fold_left run_level_op ops sp.

(** The level configuration the pipeline relies on: the level name and
    the threshold go together, and no rule is above ['error']. *)
Definition levels_coherent (s : State) : Prop :=
  LEVELS_own (config_level s) = Some (levelWeight s)
  /\ Forall (fun r => below 60 (rule_value r) = false) (nsLevelRules s).

(** [{bufferSize: n}] *)
Definition bufferSize_overrides (n : number) : Overrides :=
  {| ov_level := None; ov_namespaces := None; ov_enableColors := None;
     ov_showTime := None; ov_showNamespace := None; ov_showIcons := None;
     ov_bufferSize := Some n; ov_overlay := None; ov_overlayLimit := None;
     ov_autoInstall := None; ov_captureStack := VUndefined |}.

(** The default state with the rule [{'db': 0}] of [setSampling]. *)
Definition silenced_state : State :=
  with_sampleRules [{| re := compiled "db"; rule_value := 0%Q |}] default_state.

(** A text without a backslash followed by [u]: it holds no [\uXXXX]
    escape, which may stand for a code unit the strings of the model do
    not have. *)
Fixpoint no_unicode_escape (text : string) : bool :=
  match text with
  | "" => true
  | String c rest =>
      negb ((c =? "\")%char
            && match rest with
               | String d _ => (d =? "u")%char
               | "" => false
               end)
      && no_unicode_escape rest
  end.

(** The same of the text [importBuffer] parses, when it parses one. *)
Definition without_unicode_escape (h : Host) (data : import_data) : Prop :=
  match data with
  | DataArray _ => True
  | DataOther v =>
      match to_string h v with
      | Ok text => no_unicode_escape text = true
      | Throw _ => True
      end
  end.

(** The number [counters] holds under a name, 0 when it holds none. *)
Definition counted (lg : Logger) (k : string) : Z :=
  match lg_counters lg !! k with
  | Some (Count n) => n
  | _ => 0
  end.

(** The events that are invocations of a sink. *)
Definition is_sink_event (e : event) : bool :=
  match e with
  | ESink _ _ => true
  | ENative _ _ => false
  end.

(** A string without line terminators. *)
Definition one_line (s : string) : bool :=
  Str.all (fun c => negb (Str.is_line_terminator c)) s.

(** A time of day within its ranges. *)
Definition in_day (d : Date) : Prop :=
  0 <= getHours d < 24 /\ 0 <= getMinutes d < 60
  /\ 0 <= getSeconds d < 60 /\ 0 <= getMilliseconds d < 1000.

(** [s] follows [shape]: a digit where the shape has [d], the character
    of the shape elsewhere. *)
Fixpoint shaped (shape s : string) : bool :=
  match shape, s with
  | "", "" => true
  | String p shape', String c s' =>
      (if (p =? "d")%char then JSON.is_digit c else (p =? c)%char)
      && shaped shape' s'
  | _, _ => false
  end.

(** The value of a digit. *)
Definition digit_value (c : ascii) : Z := Z.of_nat (nat_of_ascii c) - 48.

(** The five characters [escapeHtml] replaces, and the four of them that
    none of its entities holds. *)
Definition escaped_characters : string := String "034" "&<>'".

Definition markup_characters : string := String "034" "<>'".

(** [s] begins with [p]. *)
Fixpoint begins_with (p s : string) : bool :=
  match p, s with
  | "", _ => true
  | String a p', String b s' => (a =? b)%char && begins_with p' s'
  | String _ _, "" => false
  end.

(** Every ampersand of [s] begins one of the five entities of
    [escapeHtml]. *)
Fixpoint entities_only (s : string) : bool :=
  match s with
  | "" => true
  | String c r =>
      (if (c =? "&")%char
       then begins_with "amp;" r || begins_with "lt;" r
            || begins_with "gt" r || begins_with "quot;" r
            || begins_with "#39;" r
       else true)
      && entities_only r
  end.

(** The value the assignments [props] leave in the property [k], if they
    reach it. *)
Fixpoint last_assigned (k : string) (props : list (string * member))
  : option member :=
  match props with
  | [] => None
  | (k', v) :: rest =>
      match last_assigned k rest with
      | Some v' => Some v'
      | None => if String.eqb k' k then Some v else None
      end
  end.

(** What the runs of [install] and [restore] keep true: no original is a
    wrapper; a wrapper stands in the console only while installed, under
    the name of a method, whose original is kept; while installed the
    eight wrapped methods are the wrappers. *)
Definition installation_sound (r : Runtime) : Prop :=
  (forall k fn, original r !! k = Some fn -> is_wrapper fn = false)
  /\ (forall k fn,
         console r !! k = Some fn -> is_wrapper fn = true ->
         installed r = true /\ In k console_methods)
  /\ (installed r = true ->
      forall k, In k console_methods -> is_Some (original r !! k))
  /\ (installed r = true ->
      forall k fn, In (k, fn) created_wrappers -> console r !! k = Some fn).

(** A console holding one function, [log]. *)
Definition log_only_console : gmap string member :=
  {["log" := HostValue (VFun 1 "function log() { [native code] }")]}.

(** Calls of [install] and [restore]. *)
Inductive install_op : Type :=
| Install (config : option Overrides)
| Restore.

Definition run_install_op (r : Runtime) (op : install_op) : Runtime :=
  match op with
  | Install config =>
      match install config r with
      | Ok r' => r'
      | Throw _ => r
      end
  | Restore => restore r
  end.

Definition run_install_ops (ops : list install_op) (r : Runtime) : Runtime :=
  fold_left run_install_op ops r.

(** The module as loaded, before any installation, over a console. *)
Definition loaded (c : gmap string member) : Runtime :=
  {| rt_state := default_state; rt_config := default_presentation;
     installed := false; original := ∅; wrappers := ∅; console := c |}.

(** [n] calls of [logger.count(label)] in a row, the later ones on the
    logger the earlier ones leave. *)
Fixpoint count_times (h : Host) (n : nat) (lg : Logger) (label : value)
  (w : World) : result Logger * World :=
  match n with
  | O => (Ok lg, w)
  | S n' =>
      match logger_count h lg label w with
      | (Ok (lg', _), w') => count_times h n' lg' label w'
      | (Throw m, w') => (Throw m, w')
      end
  end.

(** * Properties *)

(** ** Strings *)

Lemma append_assoc (a b c : string) : (a +:+ b) +:+ c = a +:+ (b +:+ c).
Proof. induction a as [|x a IH]; simpl; [reflexivity | now rewrite IH]. Qed.

Lemma flat_map_append f (a b : string) :
  Str.flat_map f (a +:+ b) = Str.flat_map f a +:+ Str.flat_map f b.
Proof.
  induction a as [|x a IH]; simpl; [reflexivity |].
  now rewrite IH, append_assoc.
Qed.

Lemma all_append (p : ascii -> bool) (a b : string) :
  Str.all p (a +:+ b) = Str.all p a && Str.all p b.
Proof.
  induction a as [|c a IH]; cbn; [reflexivity |].
  now rewrite IH, andb_assoc.
Qed.

Lemma length_append (a b : string) :
  String.length (a +:+ b) = (String.length a + String.length b)%nat.
Proof. induction a as [|c a IH]; cbn; [reflexivity | now rewrite IH]. Qed.

(** ** Pattern compilation *)

Lemma expand_cons (c : ascii) (token : string) :
  expand (String c token) = expand_char c +:+ expand token.
Proof.
  unfold expand, escape_special, star_to_dotstar. simpl Str.flat_map at 2.
  rewrite flat_map_append. f_equal.
  destruct c as [[] [] [] [] [] [] [] []]; reflexivity.
Qed.

Lemma expand_head (token : string) :
  exists d r, expand token +:+ "$" = String d r /\ (d =? "*")%char = false.
Proof.
  destruct token as [|c token].
  - exists "$"%char, "". split; reflexivity.
  - rewrite expand_cons, append_assoc.
    destruct c as [[] [] [] [] [] [] [] []]; simpl; eexists _, _; split; reflexivity.
Qed.

Lemma compile_unfold (c : ascii) (r : string) :
  RegExp.compile (String c r) =
  if (c =? "^")%char || (c =? "$")%char then
    match r with
    | String d _ =>
        if (d =? "*")%char then None
        else cons (if (c =? "^")%char then RegExp.IBegin else RegExp.IEnd)
               <$> RegExp.compile r
    | "" => Some [if (c =? "^")%char then RegExp.IBegin else RegExp.IEnd]
    end
  else if (c =? "\")%char then
    match r with
    | String e r' =>
        if RegExp.is_syntax_char e
        then match r' with
             | String d r'' =>
                 if (d =? "*")%char
                 then cons (RegExp.IStar (RegExp.AChar e)) <$> RegExp.compile r''
                 else cons (RegExp.IOne (RegExp.AChar e)) <$> RegExp.compile r'
             | "" => Some [RegExp.IOne (RegExp.AChar e)]
             end
        else None
    | "" => None
    end
  else if RegExp.is_syntax_char c && negb (c =? ".")%char then None
  else
    let a := if (c =? ".")%char then RegExp.AAny else RegExp.AChar c in
    match r with
    | String d r' =>
        if (d =? "*")%char
        then cons (RegExp.IStar a) <$> RegExp.compile r'
        else cons (RegExp.IOne a) <$> RegExp.compile r
    | "" => Some [RegExp.IOne a]
    end.
Proof. reflexivity. Qed.

Lemma compile_step (c d : ascii) (r : string) :
  (d =? "*")%char = false ->
  RegExp.compile (expand_char c +:+ String d r)
  = cons (translate_char c) <$> RegExp.compile (String d r).
Proof.
  intros Hd.
  destruct c as [[] [] [] [] [] [] [] []];
    cbn -[RegExp.compile]; rewrite compile_unfold;
    cbn -[RegExp.compile]; rewrite ?Hd; reflexivity.
Qed.

Lemma compile_expand (token : string) :
  RegExp.compile (expand token +:+ "$") = Some (translate token ++ [RegExp.IEnd]).
Proof.
  induction token as [|c token IH]; [reflexivity |].
  rewrite expand_cons, append_assoc.
  destruct (expand_head token) as (d & r & Hr & Hd).
  rewrite Hr in IH |- *.
  rewrite (compile_step _ _ _ Hd), IH. reflexivity.
Qed.

Lemma createWildcardRegex_ok (token : string) :
  createWildcardRegex token
  = Ok (RegExp.IBegin :: translate token ++ [RegExp.IEnd]).
Proof.
  unfold createWildcardRegex, wildcard_source.
  change ("^" +:+ star_to_dotstar (escape_special token) +:+ "$")
    with (String "^" (expand token +:+ "$")).
  rewrite compile_unfold.
  destruct (expand_head token) as (d & r & Hr & Hd).
  pose proof (compile_expand token) as Hc. rewrite Hr in Hc |- *.
  cbn -[RegExp.compile]. rewrite Hd, Hc. reflexivity.
Qed.

(** ** Matching *)

Lemma match_here_star (a : RegExp.atom) (p : RegExp.program) (s : string) :
  forall b,
    RegExp.match_here (RegExp.IStar a :: p) b s
    = star_run (RegExp.atom_accepts a) (RegExp.match_here p) b s.
Proof.
  induction s as [|c s IH]; intros b; [reflexivity |].
  cbn [star_run]. rewrite <- IH. reflexivity.
Qed.

Lemma search_begin (p : RegExp.program) (s : string) :
  RegExp.search (RegExp.IBegin :: p) false s = false.
Proof. induction s as [|c s IH]; simpl; [reflexivity | exact IH]. Qed.

Lemma test_anchored (p : RegExp.program) (s : string) :
  RegExp.test (RegExp.IBegin :: p) s = RegExp.match_here p true s.
Proof.
  unfold RegExp.test.
  destruct s as [|c s]; cbn [RegExp.search RegExp.match_here andb];
    rewrite ?search_begin; apply orb_false_r.
Qed.

Lemma match_translate_sound (token : string) :
  forall b ns,
    RegExp.match_here (translate token ++ [RegExp.IEnd]) b ns = true ->
    wildcard_matches token ns.
Proof.
  induction token as [|c token IH]; intros b ns H.
  - destruct ns; [constructor | discriminate].
  - cbn [translate app] in H. unfold translate_char in H.
    destruct (Ascii.eqb_spec c "*") as [-> | Hc].
    + rewrite match_here_star in H.
      revert b H. induction ns as [|d ns IHns]; intros b H.
      * cbn [star_run] in H. rewrite orb_false_r in H.
        apply (wildcard_matches_star "" token ""); [reflexivity | eauto].
      * cbn [star_run] in H. apply orb_true_iff in H as [H | H].
        -- apply (wildcard_matches_star "" token (String d ns));
             [reflexivity | eauto].
        -- apply andb_true_iff in H as [Hd H].
           specialize (IHns false H).
           inversion IHns as [| ? ? ? Hne | run ? rest Hrun Hrest]; subst;
             [congruence |].
           apply (wildcard_matches_star (String d run) token rest); [| assumption].
           cbn [Str.all]. cbn [RegExp.atom_accepts] in Hd.
           rewrite Hd. exact Hrun.
    + destruct ns as [|d ns]; [discriminate |].
      cbn [RegExp.match_here RegExp.atom_accepts] in H.
      apply andb_true_iff in H as [Hd H].
      apply Ascii.eqb_eq in Hd. subst d.
      constructor; eauto.
Qed.

Lemma match_translate_complete (token ns : string) :
  wildcard_matches token ns ->
  forall b, RegExp.match_here (translate token ++ [RegExp.IEnd]) b ns = true.
Proof.
  induction 1 as [| c token ns Hc _ IH | run token ns Hrun _ IH]; intros b.
  - reflexivity.
  - cbn [translate app]. unfold translate_char.
    apply Ascii.eqb_neq in Hc. rewrite Hc.
    cbn [RegExp.match_here RegExp.atom_accepts].
    rewrite Ascii.eqb_refl. apply IH.
  - cbn [translate app]. unfold translate_char. rewrite Ascii.eqb_refl.
    rewrite match_here_star.
    revert b. induction run as [|d run IHrun]; intros b.
    + cbn [String.append]. destruct ns; cbn [star_run]; rewrite IH; reflexivity.
    + cbn [Str.all] in Hrun. apply andb_true_iff in Hrun as [Hd Hrun].
      cbn [String.append star_run RegExp.atom_accepts].
      rewrite Hd, (IHrun Hrun). apply orb_true_r.
Qed.

Lemma test_createWildcardRegex (token ns : string) :
  RegExp.test (RegExp.IBegin :: translate token ++ [RegExp.IEnd]) ns = true
  <-> wildcard_matches token ns.
Proof.
  rewrite test_anchored. split.
  - apply match_translate_sound.
  - intros H. now apply match_translate_complete.
Qed.

Lemma wildcard_matches_literal (token ns : string) :
  Str.mem "*" token = false ->
  wildcard_matches token ns <-> ns = token.
Proof.
  intros Hstar. split.
  - intros H. induction H as [| c token ns Hc _ IH | run token ns _ _ _].
    + reflexivity.
    + cbn [Str.mem] in Hstar. apply orb_false_iff in Hstar as [_ Hstar].
      now rewrite IH.
    + discriminate.
  - intros ->. induction token as [|c token IH]; [constructor |].
    cbn [Str.mem] in Hstar. apply orb_false_iff in Hstar as [Hc Hstar].
    constructor; [| auto].
    apply Ascii.eqb_neq in Hc. congruence.
Qed.

(** ** The pattern law *)

Lemma wildcard_matches_spec (token ns : string) :
  wildcard_matches token ns -> spec_matches token ns.
Proof. induction 1; now constructor. Qed.

Lemma spec_matches_wildcard (token ns : string) :
  Str.all (fun c => negb (Str.is_line_terminator c)) ns = true ->
  spec_matches token ns -> wildcard_matches token ns.
Proof.
  intros Hns H. induction H as [| c token ns Hc _ IH | run token ns _ IH].
  - constructor.
  - cbn [Str.all] in Hns. apply andb_true_iff in Hns as [_ Hns].
    constructor; auto.
  - rewrite all_append in Hns. apply andb_true_iff in Hns as [Hrun Hns].
    constructor; auto.
Qed.

(** The law the compiled patterns do follow: compilation never throws;
    the compiled pattern matches a namespace exactly when the whole
    namespace is the whole token with every [*] replaced by a run of zero
    or more characters that are not line terminators, every other
    character of the token standing for itself; so a token without [*]
    matches the string [token] and nothing else, and on namespaces without
    line terminators the law is the one of the specification. *)
Theorem wildcard_pattern_law (token : string) :
  exists re,
    createWildcardRegex token = Ok re
    /\ (forall ns, RegExp.test re ns = true <-> wildcard_matches token ns)
    /\ (Str.mem "*" token = false ->
        forall ns, RegExp.test re ns = true <-> ns = token)
    /\ (forall ns,
           Str.all (fun c => negb (Str.is_line_terminator c)) ns = true ->
           (RegExp.test re ns = true <-> spec_matches token ns)).
Proof.
  exists (RegExp.IBegin :: translate token ++ [RegExp.IEnd]).
  split; [apply createWildcardRegex_ok |].
  split; [intros ns; apply test_createWildcardRegex |].
  split.
  - intros Hlit ns. rewrite test_createWildcardRegex.
    now apply wildcard_matches_literal.
  - intros ns Hns. rewrite test_createWildcardRegex. split.
    + apply wildcard_matches_spec.
    + now apply spec_matches_wildcard.
Qed.

(** C4, at the input where it fails, a run holding a line terminator: by
    the law of the specification [a*b] matches the namespace made of [a],
    a line feed and [b], the [*] standing for the run made of the line
    feed, and the compiled pattern does not match it; and after
    [enableNamespaces('*')], which is to allow every namespace, that
    namespace is disabled. *)
Theorem C4_star_skips_line_terminators :
  let ns := String "a" (String "010" "b") in
  spec_matches "a*b" ns
  /\ (exists re,
         createWildcardRegex "a*b" = Ok re /\ RegExp.test re ns = false)
  /\ (exists s,
         enableNamespaces (VStr "*") default_state = Ok s
         /\ isNamespaceEnabled (VStr ns) s = false).
Proof.
  cbn zeta. split; [| split].
  - apply spec_matches_char; [discriminate |].
    apply (spec_matches_star (String "010" "") "b" "b").
    apply spec_matches_char; [discriminate | constructor].
  - eexists. split; reflexivity.
  - eexists. split; reflexivity.
Qed.

(** The examples of the specification. *)
Example wildcard_a_star_b :
  exists re,
    createWildcardRegex "a*b" = Ok re
    /\ map (RegExp.test re) ["ab"; "axb"; "axxxb"; "a"; "b"]
       = [true; true; true; false; false].
Proof. eexists. split; reflexivity. Qed.

Example wildcard_metacharacters_are_literal :
  exists re,
    createWildcardRegex "a.b+(c)" = Ok re
    /\ map (RegExp.test re) ["a.b+(c)"; "axb+(c)"; "a.bb(c)"]
       = [true; false; false].
Proof. eexists. split; reflexivity. Qed.

(** ** Namespace gating *)

Lemma compile_tokens_run (tokens : list string) :
  forall includes excludes,
    compile_tokens tokens includes excludes
    = Ok (includes ++ map compiled (split_tokens tokens).1,
          excludes ++ map compiled (split_tokens tokens).2).
Proof.
  induction tokens as [|t tokens IH]; intros includes excludes.
  - cbn. now rewrite !app_nil_r.
  - cbn [compile_tokens split_tokens].
    destruct (split_tokens tokens) as [inc exc] eqn:E. cbn [fst snd] in IH.
    destruct (Str.trim t) as [|c tail]; [apply IH |].
    destruct (c =? "-")%char.
    + rewrite createWildcardRegex_ok. cbn [mbind result_bind].
      rewrite IH. cbn [fst snd map]. now rewrite <- app_assoc.
    + rewrite createWildcardRegex_ok. cbn [mbind result_bind].
      rewrite IH. cbn [fst snd map]. now rewrite <- app_assoc.
Qed.

(** [enableNamespaces] never throws and installs the compiled tokens. *)
Lemma enableNamespaces_run (patternString : value) (s0 : State) :
  exists s,
    enableNamespaces patternString s0 = Ok s
    /\ includePatterns s = map compiled (namespace_tokens patternString).1
    /\ excludePatterns s = map compiled (namespace_tokens patternString).2.
Proof.
  assert (Hreset : exists s,
             (star ← createWildcardRegex "*";
              Ok (with_namespaces "*" [star] [] s0)) = Ok s
             /\ includePatterns s = map compiled ["*"]
             /\ excludePatterns s = map compiled []).
  { eexists. split; [reflexivity | split; reflexivity]. }
  unfold enableNamespaces, namespace_tokens.
  destruct patternString as [| | b | lit | n | spec | d | id src | o];
    try exact Hreset.
  destruct (Str.is_empty (Str.trim spec)); [exact Hreset |].
  rewrite compile_tokens_run. cbn [app mbind result_bind].
  destruct (split_tokens _) as [inc exc]. cbn [fst snd].
  destruct inc as [|i inc].
  - eexists. split; [reflexivity | split; reflexivity].
  - eexists. split; [reflexivity | split; reflexivity].
Qed.

Lemma existsb_compiled (tokens : list string) (ns : string) :
  existsb (fun re => RegExp.test re ns) (map compiled tokens) = true
  <-> exists token, In token tokens /\ wildcard_matches token ns.
Proof.
  rewrite existsb_exists. split.
  - intros (re & Hin & Htest). apply in_map_iff in Hin as (token & <- & Hin).
    exists token. split; [exact Hin |]. now apply test_createWildcardRegex.
  - intros (token & Hin & Hm). exists (compiled token).
    split; [now apply in_map | now apply test_createWildcardRegex].
Qed.

(** C5: for every configuration [enableNamespaces] produces (it produces
    one for every argument) and every namespace argument,
    [isNamespaceEnabled] answers on the namespace itself when it is a
    non-empty string and on ['global'] otherwise; it is false whenever an
    exclude pattern matches, whatever the includes; otherwise it is true
    exactly when an include pattern matches.  In terms of the tokens of the
    specification string: enabled if and only if no exclude token matches
    and some include token does. *)
Theorem C5_namespace_gating (patternString namespace : value) (s0 : State) :
  exists s,
    enableNamespaces patternString s0 = Ok s
    /\ let ns := gated_namespace namespace in
       isNamespaceEnabled namespace s = isNamespaceEnabled (VStr ns) s
       /\ ((exists re, In re (excludePatterns s) /\ RegExp.test re ns = true) ->
           isNamespaceEnabled namespace s = false)
       /\ ((forall re, In re (excludePatterns s) -> RegExp.test re ns = false) ->
           (isNamespaceEnabled namespace s = true
            <-> exists re, In re (includePatterns s) /\ RegExp.test re ns = true))
       /\ (isNamespaceEnabled namespace s = true
           <-> (forall token,
                   In token (namespace_tokens patternString).2 ->
                   ~ wildcard_matches token ns)
               /\ exists token,
                    In token (namespace_tokens patternString).1
                    /\ wildcard_matches token ns).
Proof.
  destruct (enableNamespaces_run patternString s0) as (s & Hs & Hinc & Hexc).
  exists s. split; [exact Hs |]. cbn zeta.
  assert (Hns : forall st0,
             isNamespaceEnabled namespace st0
             = if existsb (fun re => RegExp.test re (gated_namespace namespace))
                    (excludePatterns st0)
               then false
               else existsb (fun re => RegExp.test re (gated_namespace namespace))
                      (includePatterns st0)).
  { intros st0. unfold isNamespaceEnabled, namespace_or_global, gated_namespace.
    destruct namespace; reflexivity. }
  split.
  { rewrite Hns. unfold isNamespaceEnabled, namespace_or_global.
    assert (Hne : Str.is_empty (gated_namespace namespace) = false).
    { unfold gated_namespace. destruct namespace as [| | | | | [|c r] | | |];
        reflexivity. }
    rewrite Hne. reflexivity. }
  split.
  { intros Hex. rewrite Hns.
    apply existsb_exists in Hex. now rewrite Hex. }
  split.
  { intros Hnone. rewrite Hns.
    destruct (existsb _ (excludePatterns s)) eqn:E.
    - apply existsb_exists in E as (re & Hin & Ht).
      rewrite (Hnone re Hin) in Ht. discriminate.
    - apply existsb_exists. }
  rewrite Hns, Hinc, Hexc.
  destruct (existsb _ (map compiled (namespace_tokens patternString).2)) eqn:E.
  - apply existsb_compiled in E as (token & Hin & Hm).
    split; [discriminate |]. intros [Hnone _]. exfalso. now apply (Hnone token).
  - rewrite existsb_compiled. split.
    + intros H. split; [| exact H].
      intros token Hin Hm.
      assert (Hyes : existsb (fun re => RegExp.test re (gated_namespace namespace))
                       (map compiled (namespace_tokens patternString).2) = true).
      { apply existsb_compiled. eauto. }
      congruence.
    + now intros [_ H].
Qed.

Example namespaces_scenario :
  exists s,
    enableNamespaces (VStr "app:*, -app:verbose") default_state = Ok s
    /\ map (fun ns => isNamespaceEnabled (VStr ns) s)
         ["app:verbose"; "app:core"; "db"]
       = [false; true; false].
Proof. eexists. split; reflexivity. Qed.

(** ** Level names *)

Lemma compile_rules_values {A V} (props : list (string * A))
  (transform : A -> V) :
  exists rules,
    compile_rules props transform = Ok rules
    /\ map rule_value rules = map (fun p => transform p.2) props
    /\ map re rules
       = map (fun p => RegExp.IBegin :: translate p.1 ++ [RegExp.IEnd]) props.
Proof.
  induction props as [|[key a] props (rules & IH1 & IH2 & IH3)].
  - exists []. repeat split.
  - cbn [compile_rules]. rewrite createWildcardRegex_ok, IH1.
    eexists. split; [reflexivity |]. cbn. now rewrite IH2, IH3.
Qed.

(** C8 (as amended): [setLevel] with a name that is not one of the six
    level names changes nothing.  [setNamespaceLevels] raises no error
    either, but it is not a no-op: it replaces the rule table by one rule
    per pattern of the map, in the order of the map, and a pattern given
    such a name gets the ['debug'] weight, 20, when the name is not that
    of a property [LEVELS] inherits from [Object.prototype]. *)
Theorem C8_unknown_level_names (name : string) (s : State) :
  LEVELS_own name = None ->
  setLevel name s = s
  /\ getLevel (setLevel name s) = getLevel s
  /\ (inherited name = false -> level_rule_value name = Weight 20)
  /\ (forall props : list (string * string),
         exists rules,
           setNamespaceLevels (Some props) s = Ok (with_nsLevelRules rules s)
           /\ map rule_value rules = map (fun p => level_rule_value p.2) props
           /\ map re rules
              = map (fun p => RegExp.IBegin :: translate p.1 ++ [RegExp.IEnd])
                  props).
Proof.
  intros Hunknown. unfold setLevel, level_rule_value. rewrite Hunknown.
  split; [reflexivity |]. split; [reflexivity |].
  split; [unfold inherited; now intros -> |].
  intros props.
  destruct (compile_rules_values props level_rule_value) as (rules & H1 & H2 & H3).
  exists rules. unfold setNamespaceLevels, compilePatternMap.
  rewrite H1. auto.
Qed.

(** C8, on [setLevel('verbose')] after [setLevel('warn')]. *)
Lemma C8_unknown_level_names_witness :
  LEVELS_own "verbose" = None
  /\ setLevel "verbose" (setLevel "warn" default_state)
     = setLevel "warn" default_state
  /\ level_rule_value "verbose" = Weight 20.
Proof.
  split; [reflexivity |].
  pose proof (C8_unknown_level_names "verbose"
                (setLevel "warn" default_state) eq_refl) as H.
  split; [exact (proj1 H) | exact (proj1 (proj2 (proj2 H)) eq_refl)].
Defined.

(** C8 as stated fails for [setNamespaceLevels]: with the global level at
    ['warn'], namespace ['app'] has the threshold 50; after
    [setNamespaceLevels({app: 'verbose'})] its threshold is 20. *)
Lemma C8_unknown_name_lowers_the_threshold :
  let s := setLevel "warn" default_state in
  getEffectiveLevelWeight (VStr "app") s = Weight 50
  /\ exists s',
       setNamespaceLevels (Some [("app", "verbose")]) s = Ok s'
       /\ getEffectiveLevelWeight (VStr "app") s' = Weight 20.
Proof.
  cbn zeta. split; [reflexivity |]. eexists. split; reflexivity.
Qed.

(** The name of a property [LEVELS] inherits is no level name and gets no
    weight: the rule holds the inherited member, against which no weight
    compares as lower, so that no call on the namespace is rejected by its
    level. *)
Example inherited_level_name_rejects_nothing :
  level_rule_value "toString" = NotANumber
  /\ exists s,
       setNamespaceLevels (Some [("app", "toString")])
         (setLevel "error" default_state) = Ok s
       /\ level_rejects "trace" "app" s = false.
Proof. split; [reflexivity |]. eexists. split; reflexivity. Qed.

(** Overlapping level rules: the first inserted matching rule wins. *)
Example first_matching_rule_wins :
  exists s,
    setNamespaceLevels (Some [("app:*", "warn"); ("app:debug", "debug")])
      default_state = Ok s
    /\ getEffectiveLevelWeight (VStr "app:debug") s = Weight 50.
Proof. eexists. split; reflexivity. Qed.

Example initial_state_is_default : initial_state = Ok default_state.
Proof. reflexivity. Qed.

Example sampled_state_is_set :
  setSampling (Some [("db", Some (3 # 4)%Q)]) default_state = Ok sampled_state.
Proof. reflexivity. Qed.

(** ** The pipeline as a function of the world *)

Lemma add_events_nil (w : World) : add_events [] w = w.
Proof. destruct w. unfold add_events. cbn. now rewrite app_nil_r. Qed.

Lemma add_events_app (a b : list event) (w : World) :
  add_events b (add_events a w) = add_events (a ++ b) w.
Proof. unfold add_events. cbn. now rewrite app_assoc. Qed.

Section Runs.

Context (h : Host).

Lemma notify_one_run (entry : LogRecord) (sink : nat) (w : World) :
  notify_one h entry sink w = (Ok tt, add_events [ESink sink entry] w).
Proof.
  unfold notify_one, try_catch, mbind, M_bind, emit_event, lift, mret, M_ret.
  destruct (sink_call h sink entry) as [[]|]; reflexivity.
Qed.

Lemma notify_all_run (entry : LogRecord) (sinks : list nat) :
  forall w,
    notify_all h entry sinks w
    = (Ok tt, add_events (map (fun sink => ESink sink entry) sinks) w).
Proof.
  induction sinks as [|sink sinks IH]; intros w.
  - cbn. now rewrite add_events_nil.
  - cbn [notify_all map]. unfold mbind, M_bind.
    rewrite notify_one_run, IH, add_events_app. reflexivity.
Qed.

Lemma notifyTransports_run (entry : LogRecord) (w : World) :
  notifyTransports h entry w
  = (Ok tt,
     add_events (map (fun sink => ESink sink entry) (transports (st w))) w).
Proof.
  unfold notifyTransports, mbind, M_bind, get_state.
  destruct (transports (st w)) as [|sink sinks] eqn:E.
  - cbn. now rewrite add_events_nil.
  - rewrite notify_all_run. reflexivity.
Qed.

Lemma applyRedaction_run (args : list value)
  (levelName namespace : string) (w : World) :
  applyRedaction h args levelName namespace w
  = (Ok (redacted h (st w) args levelName namespace), w).
Proof.
  unfold applyRedaction, redacted, mbind, M_bind, get_state, try_catch, lift,
    mret, M_ret.
  destruct (redactorFn (st w)) as [fn|]; [| reflexivity].
  destruct (redactor_call h fn args levelName namespace) as [[arr|]|];
    reflexivity.
Qed.

Lemma shouldPassSampling_run (ns : string) (w : World) :
  shouldPassSampling h (VStr ns) w
  = match first_match (sampleRules (st w)) ns with
    | Some rate => (Ok (Qlt_bool (random h (draws w)) rate), draw w)
    | None => (Ok true, w)
    end.
Proof.
  unfold shouldPassSampling, mbind, M_bind, get_state, next_random, mret, M_ret.
  cbn [namespace_or_global andb].
  destruct (first_match (sampleRules (st w)) ns); reflexivity.
Qed.

(** [emit], gate by gate. *)
Lemma emit_run (levelName namespace : string) (args : list value)
  (w : World) :
  emit h levelName namespace args w
  = if level_rejects levelName namespace (st w) then (Ok None, w)
    else
      let after (w1 : World) :=
        if isNamespaceEnabled (VStr namespace) (st w) then
          let '(r, w2) := deliver h (normal_level levelName) namespace args w1 in
          (Ok (Some r), w2)
        else (Ok None, w1) in
      match first_match (sampleRules (st w)) namespace with
      | Some rate =>
          if Qlt_bool (random h (draws w)) rate then after (draw w)
          else (Ok None, draw w)
      | None => after w
      end.
Proof.
  unfold emit, level_rejects. fold (normal_level levelName).
  unfold mbind at 1. unfold M_bind at 1. unfold get_state at 1.
  destruct (match LEVELS_own (normal_level levelName) with
            | Some w0 => below w0 (getEffectiveLevelWeight (VStr namespace) (st w))
            | None => false
            end); [reflexivity |].
  unfold mbind at 1. unfold M_bind at 1. rewrite shouldPassSampling_run.
  assert (Hdeliver : forall w1, st w1 = st w ->
    (time ← read_wall_clock h;
     sanitized ← applyRedaction h args (normal_level levelName) namespace;
     _ ← (if negb (paused (st w)) && config_printToNative (st w)
          then try_catch (print_native h (normal_level levelName) sanitized)
                 (mret tt)
          else mret tt);
     let stack := maybeCaptureStack h (normal_level levelName) (st w) in
     let entry :=
       {| rec_time := time; rec_level := normal_level levelName;
          rec_namespace := namespace;
          rec_preview := buildPreview h sanitized;
          rec_args := sanitized;
          rec_stack := if Str.is_empty stack then None else Some stack |} in
     _ ← notifyTransports h entry;
     _ ← modify (addToBuffer
                   {| time := rec_time entry; level := rec_level entry;
                      namespace := rec_namespace entry;
                      preview := rec_preview entry |});
     mret (Some entry)) w1
    = let '(r, w2) := deliver h (normal_level levelName) namespace args w1 in
      (Ok (Some r), w2)).
  { intros [s1 d1 t1 e1] Hst. cbn [st] in Hst. subst s1.
    unfold mbind at 1. unfold M_bind at 1. unfold read_wall_clock at 1.
    unfold mbind at 1. unfold M_bind at 1. rewrite applyRedaction_run.
    cbn [st draws ticks events].
    unfold deliver, built_record. cbn [st draws ticks events].
    set (sanitized := redacted h (st w) args (normal_level levelName) namespace).
    unfold mbind at 1. unfold M_bind at 1.
    destruct (negb (paused (st w)) && config_printToNative (st w)).
    - unfold try_catch, print_native, mbind at 1, M_bind at 1, emit_event, lift.
      cbn [st draws ticks events].
      destruct (native_call h (normal_level levelName) sanitized) as [[]|];
        unfold mret at 1, M_ret at 1;
        unfold mbind at 1; unfold M_bind at 1; rewrite notifyTransports_run;
        unfold modify, mbind, M_bind, get_state, put_state, mret, M_ret;
        unfold with_state, add_events, tick, trimmed;
        cbn [st draws ticks events rec_time rec_level rec_namespace rec_preview
             rec_args app];
        rewrite <- ?app_assoc; reflexivity.
    - unfold mret at 1, M_ret at 1.
      unfold mbind at 1; unfold M_bind at 1; rewrite notifyTransports_run.
      unfold modify, mbind, M_bind, get_state, put_state, mret, M_ret.
      unfold with_state, add_events, tick, trimmed.
      cbn [st draws ticks events rec_time rec_level rec_namespace rec_preview
           rec_args app].
      reflexivity. }
  destruct (first_match (sampleRules (st w)) namespace) as [rate|].
  - destruct (Qlt_bool (random h (draws w)) rate); cbn [negb]; [| reflexivity].
    destruct (isNamespaceEnabled (VStr namespace) (st w)); cbn [negb];
      [| reflexivity].
    apply Hdeliver. reflexivity.
  - cbn [negb].
    destruct (isNamespaceEnabled (VStr namespace) (st w)); cbn [negb];
      [| reflexivity].
    apply Hdeliver. reflexivity.
Qed.

Lemma normal_level_own (levelName : string) (weight : Z) :
  LEVELS_own levelName = Some weight -> normal_level levelName = levelName.
Proof. unfold normal_level. now intros ->. Qed.

(** [emit] never throws. *)
Lemma emit_returns_normally (levelName namespace : string)
  (args : list value) (w : World) :
  exists produced w', emit h levelName namespace args w = (Ok produced, w').
Proof.
  rewrite emit_run.
  destruct (level_rejects levelName namespace (st w)); [eauto |].
  cbn zeta.
  destruct (first_match (sampleRules (st w)) namespace) as [rate|];
    [destruct (Qlt_bool (random h (draws w)) rate); [| eauto] |];
    (destruct (isNamespaceEnabled (VStr namespace) (st w)); [| eauto]);
    destruct (deliver h (normal_level levelName) namespace args _); eauto.
Qed.

(** [emit] leaves the configuration alone: only the buffer changes. *)
Lemma emit_state (levelName namespace : string)
  (args : list value) (w : World) :
  let w' := (emit h levelName namespace args w).2 in
  st w' = st w \/ exists e, st w' = addToBuffer e (st w).
Proof.
  cbn zeta. rewrite emit_run.
  destruct (level_rejects levelName namespace (st w)); [now left |].
  cbn zeta.
  destruct (first_match (sampleRules (st w)) namespace) as [rate|];
    [destruct (Qlt_bool (random h (draws w)) rate); [| now left] |];
    (destruct (isNamespaceEnabled (VStr namespace) (st w)); [| now left]);
    right; eexists; reflexivity.
Qed.

End Runs.

(** ** The acceptance decision *)

Section Acceptance.

Context (h : Host).

(** [emit] against the decision of the specification. *)
Lemma emit_decision (levelName namespace : string) (weight : Z)
  (args : list value) (w : World) :
  LEVELS_own levelName = Some weight ->
  let out := emit h levelName namespace args w in
  let dec := spec_decision weight
               (getEffectiveLevelWeight (VStr namespace) (st w))
               (first_match (sampleRules (st w)) namespace)
               (random h (draws w))
               (isNamespaceEnabled (VStr namespace) (st w)) in
  (exists produced,
      out.1 = Ok produced
      /\ (is_Some produced <-> dec.1 = true)
      /\ (forall record,
             produced = Some record ->
             rec_level record = levelName
             /\ rec_namespace record = namespace
             /\ rec_args record = redacted h (st w) args levelName namespace))
  /\ draws out.2 = (draws w + (if dec.2 then 1 else 0))%nat.
Proof.
  intros Hown. cbn zeta. rewrite emit_run. unfold level_rejects.
  rewrite (normal_level_own _ _ Hown), Hown. unfold spec_decision.
  destruct (below weight (getEffectiveLevelWeight (VStr namespace) (st w))).
  { cbn. split; [eexists; split; [reflexivity |] | lia].
    split; [split; [intros [? ?] | ]; discriminate | discriminate]. }
  cbn zeta.
  destruct (first_match (sampleRules (st w)) namespace) as [rt|].
  - destruct (Qlt_bool (random h (draws w)) rt); cbn [negb].
    + destruct (isNamespaceEnabled (VStr namespace) (st w)); cbn.
      * split; [eexists; split; [reflexivity |] | lia].
        split; [split; [reflexivity | eauto] |].
        intros record [= <-]. cbn. auto.
      * split; [eexists; split; [reflexivity |] | lia].
        split; [split; [intros [? ?] | ]; discriminate | discriminate].
    + cbn. split; [eexists; split; [reflexivity |] | lia].
      split; [split; [intros [? ?] | ]; discriminate | discriminate].
  - destruct (isNamespaceEnabled (VStr namespace) (st w)); cbn.
    + split; [eexists; split; [reflexivity |] | lia].
      split; [split; [reflexivity | eauto] |].
      intros record [= <-]. cbn. auto.
    + split; [eexists; split; [reflexivity |] | lia].
      split; [split; [intros [? ?] | ]; discriminate | discriminate].
Qed.

(** C3 (as amended): a call at level [L] and namespace [ns] is decided in
    the order of the specification: rejected when [weight(L)] is below the
    effective threshold; else rejected when the sampling check fails; else
    rejected when the namespace is disabled; else accepted.  A random draw
    is consumed exactly when the level check passed and a sampling rule
    applies to [ns], so for a namespace under a sampling rule it is
    consumed if and only if the level check passed; a call rejected by the
    level check does nothing at all.  The draw consumed is the next of the
    random sequence: two configurations that differ in their level
    thresholds only, both letting the call pass the level check, reach the
    same verdict when as many draws were consumed before the call. *)
Theorem C3_acceptance_order (levelName namespace : string)
  (weight : Z) (args : list value) (w : World) :
  LEVELS_own levelName = Some weight ->
  let effective := getEffectiveLevelWeight (VStr namespace) (st w) in
  let rate := first_match (sampleRules (st w)) namespace in
  let enabled := isNamespaceEnabled (VStr namespace) (st w) in
  let decision :=
    spec_decision weight effective rate (random h (draws w)) enabled in
  let outcome := emit h levelName namespace args w in
  (exists produced,
      outcome.1 = Ok produced /\ (is_Some produced <-> decision.1 = true))
  /\ draws outcome.2 = (draws w + (if decision.2 then 1 else 0))%nat
  /\ (decision.2 = true <-> below weight effective = false /\ is_Some rate)
  /\ (is_Some rate -> (decision.2 = true <-> below weight effective = false))
  /\ (below weight effective = true -> outcome = (Ok None, w))
  /\ (forall w2 : World,
         sampleRules (st w2) = sampleRules (st w) ->
         includePatterns (st w2) = includePatterns (st w) ->
         excludePatterns (st w2) = excludePatterns (st w) ->
         draws w2 = draws w ->
         below weight effective = false ->
         below weight (getEffectiveLevelWeight (VStr namespace) (st w2)) = false ->
         let outcome2 := emit h levelName namespace args w2 in
         draws outcome2.2 = draws outcome.2
         /\ exists produced2,
              outcome2.1 = Ok produced2
              /\ (is_Some produced2 <-> decision.1 = true)).
Proof.
  intros Hown effective rate enabled decision outcome.
  assert (Hspec : forall w0,
             let out := emit h levelName namespace args w0 in
             let dec := spec_decision weight
                          (getEffectiveLevelWeight (VStr namespace) (st w0))
                          (first_match (sampleRules (st w0)) namespace)
                          (random h (draws w0))
                          (isNamespaceEnabled (VStr namespace) (st w0)) in
             (exists produced,
                 out.1 = Ok produced /\ (is_Some produced <-> dec.1 = true))
             /\ draws out.2 = (draws w0 + (if dec.2 then 1 else 0))%nat).
  { intros w0.
    destruct (emit_decision levelName namespace weight args w0 Hown)
      as [(produced & H1 & H2 & _) H3].
    split; [exists produced; split; assumption | exact H3]. }
  destruct (Hspec w) as [Hacc Hdraws].
  assert (Hdrawn : decision.2 = true
                   <-> below weight effective = false /\ is_Some rate).
  { subst decision. unfold spec_decision.
    destruct (below weight effective); cbn.
    - split; [discriminate | intros [? _]; discriminate].
    - destruct rate as [rt|].
      + destruct (Qlt_bool (random h (draws w)) rt); cbn; split; eauto.
      + split; [discriminate | intros [_ [? ?]]; discriminate]. }
  split; [exact Hacc |].
  split; [exact Hdraws |].
  split; [exact Hdrawn |].
  split; [intros Hrate; rewrite Hdrawn; tauto |].
  split.
  { intros Hbelow. subst outcome. rewrite emit_run. unfold level_rejects.
    rewrite (normal_level_own _ _ Hown), Hown. fold effective.
    now rewrite Hbelow. }
  intros w2 Hrules Hinc Hexc Hd Hpass Hpass2 outcome2.
  destruct (Hspec w2) as [(produced2 & Hout2 & Hacc2) Hdraws2].
  fold outcome2 in Hout2, Hdraws2.
  assert (Hen : isNamespaceEnabled (VStr namespace) (st w2) = enabled).
  { unfold enabled, isNamespaceEnabled. now rewrite Hinc, Hexc. }
  rewrite Hrules, Hd, Hen in Hacc2, Hdraws2. fold rate in Hacc2, Hdraws2.
  assert (Hsame : spec_decision weight
                    (getEffectiveLevelWeight (VStr namespace) (st w2))
                    rate (random h (draws w)) enabled = decision).
  { subst decision. unfold spec_decision. fold effective.
    now rewrite Hpass, Hpass2. }
  rewrite Hsame in Hacc2, Hdraws2.
  split; [subst outcome outcome2; rewrite Hdraws2, Hdraws; reflexivity |].
  exists produced2. split; [exact Hout2 | exact Hacc2].
Qed.

End Acceptance.

(** C3, on a call under the sampling rule [{'db': 0.75}] and a draw of one
    half: the level check passes, one draw is consumed. *)
Lemma C3_acceptance_order_witness :
  LEVELS_own "info" = Some 40
  /\ draws (emit example_host "info" "db" [VStr "query"]
              (world_of sampled_state)).2 = 1%nat.
Proof.
  split; [reflexivity |].
  exact (proj1 (proj2 (C3_acceptance_order example_host "info" "db" 40
                         [VStr "query"] (world_of sampled_state) eq_refl))).
Defined.

(** C3 as stated fails twice.  In the default state no sampling rule
    applies: an ['info'] call passes the level check, is accepted, and
    consumes no draw.  And under the rule [{'db': 0.75}], with the draws
    0.9 and 0.1 to come, take a ['debug'] call followed by an ['info'] call
    on [db].  At the threshold ['debug'] the first call consumes 0.9 and
    the second, given 0.1, is accepted.  At the threshold ['info'] the
    first call is rejected by its level and the second, given 0.9, is
    rejected by the sampling, though its level passes the check in both
    configurations. *)
Lemma C3_threshold_shifts_the_draws :
  (level_rejects "info" "app" default_state = false
   /\ exists record w',
        emit example_host "info" "app" [VStr "m"] (world_of default_state)
        = (Ok (Some record), w')
        /\ draws w' = 0%nat)
  /\ (let second (s : State) :=
        emit two_draws_host "info" "db" [VStr "b"]
          (emit two_draws_host "debug" "db" [VStr "a"] (world_of s)).2 in
      level_rejects "info" "db" sampled_state = false
      /\ level_rejects "info" "db" (setLevel "info" sampled_state) = false
      /\ (exists record w',
             second sampled_state = (Ok (Some record), w')
             /\ draws w' = 2%nat)
      /\ (exists w',
             second (setLevel "info" sampled_state) = (Ok None, w')
             /\ draws w' = 1%nat)).
Proof.
  split.
  - split; [reflexivity |].
    eexists _, _. split; [vm_compute; reflexivity | reflexivity].
  - cbn zeta. split; [reflexivity |]. split; [reflexivity |]. split.
    + eexists _, _. split; [vm_compute; reflexivity | reflexivity].
    + eexists. split; [vm_compute; reflexivity | reflexivity].
Qed.

(** A global level of ['info'] and the rule [{'db:*': 'debug'}]: a debug
    call on ['db:query'] is accepted, one on ['app:ui'] rejected. *)
Example lowered_threshold_scenario :
  exists s record,
    setNamespaceLevels (Some [("db:*", "debug")]) (setLevel "info" default_state)
    = Ok s
    /\ (emit example_host "debug" "db:query" [VStr "q"] (world_of s)).1
       = Ok (Some record)
    /\ (emit example_host "debug" "app:ui" [VStr "q"] (world_of s)).1 = Ok None.
Proof. eexists _, _. split; [reflexivity |]. split; reflexivity. Qed.

Example preview_of_mixed_arguments :
  buildPreview example_host
    [VStr "count"; VNum "42";
     VObj {| obj_string := Ok "[object Object]"; obj_json := Ok ("{" +:+ String "034" ("a" +:+ String "034" ":1}")) |}]
  = "count 42 {" +:+ String "034" ("a" +:+ String "034" ":1}").
Proof. reflexivity. Qed.

(** ** The bounded buffer *)

Lemma addToBuffer_evict (e : BufferedEntry) (s : State) :
  addToBuffer e s = with_buffer (evict (config_bufferSize s) (buffer s ++ [e])) s.
Proof.
  unfold addToBuffer, evict. cbn zeta.
  destruct (0 <? Z.of_nat (length (buffer s ++ [e])) - config_bufferSize s);
    reflexivity.
Qed.


Lemma evict_last_n {A} (cap : Z) (l : list A) :
  0 <= cap -> evict cap l = last_n (Z.to_nat cap) l.
Proof.
  intros Hcap. unfold evict, last_n. cbn zeta.
  destruct (Z.ltb_spec 0 (Z.of_nat (length l) - cap)) as [H | H].
  - f_equal. lia.
  - replace (length l - Z.to_nat cap)%nat with 0%nat by lia. reflexivity.
Qed.






Section Bounded.

Context (h : Host).

Lemma lift_run {A B} (r : result A) (k : A -> M B) (w : World) :
  (x ← lift r; k x) w
  = match r with
    | Ok a => k a w
    | Throw m => (Throw m, w)
    end.
Proof. unfold mbind, M_bind, lift. now destruct r. Qed.

Lemma import_entry_run (e : JSON.json) (w : World) :
  import_entry h e w
  = match e with
    | JSON.JNull => (Throw "TypeError", w)
    | _ =>
        if time_given h e then (coerce_entry h e "", w)
        else (coerce_entry h e (wall_clock h (ticks w)), tick w)
    end.
Proof.
  unfold import_entry, time_given, coerce_entry, get_field.
  destruct e as [| b | lit | s | elems | props]; try reflexivity.
  cbn [element_field]. rewrite lift_run. cbv beta iota.
  assert (Hrest : forall (t : string) (w0 : World),
             (l ← lift (Ok (JSON.lookup "level" props));
              level ← lift (field_or h l "log");
              n ← lift (Ok (JSON.lookup "namespace" props));
              namespace ← lift (field_or h n "global");
              p ← lift (Ok (JSON.lookup "preview" props));
              preview ← lift (field_or h p "");
              mret {| time := t; level := level; namespace := namespace;
                      preview := preview |}) w0
             = (l ← field_or h (JSON.lookup "level" props) "log";
                n ← field_or h (JSON.lookup "namespace" props) "global";
                p ← field_or h (JSON.lookup "preview" props) "";
                Ok {| time := t; level := l; namespace := n; preview := p |},
                w0)).
  { intros t w0. rewrite !lift_run.
    destruct (field_or h (JSON.lookup "level" props) "log"); [| reflexivity].
    rewrite !lift_run.
    destruct (field_or h (JSON.lookup "namespace" props) "global");
      [| reflexivity].
    rewrite !lift_run.
    destruct (field_or h (JSON.lookup "preview" props) ""); reflexivity. }
  destruct (JSON.lookup "time" props) as [j|].
  - change (field_or h (Some j) "")
      with (if json_truthy h j then json_to_string h j else Ok "").
    change (field_or h (Some j) (wall_clock h (ticks w)))
      with (if json_truthy h j then json_to_string h j
            else Ok (wall_clock h (ticks w))).
    destruct (json_truthy h j).
    + rewrite lift_run.
      destruct (json_to_string h j) as [t|m]; [| reflexivity].
      now rewrite Hrest.
    + unfold mbind at 1, M_bind at 1, read_wall_clock. now rewrite Hrest.
  - change (field_or h None (wall_clock h (ticks w)))
      with (@Ok string (wall_clock h (ticks w))).
    unfold mbind at 1, M_bind at 1, read_wall_clock. now rewrite Hrest.
Qed.

Lemma import_entry_frame (e : JSON.json) (w : World)
  (r : result BufferedEntry) (w1 : World) :
  import_entry h e w = (r, w1) ->
  st w1 = st w /\ draws w1 = draws w /\ events w1 = events w.
Proof.
  rewrite import_entry_run. intros H.
  assert (Hcase : (r, w1) = (r, w) \/ (r, w1) = (r, tick w)).
  { destruct e; try (destruct (time_given h _));
      pose proof (f_equal snd H) as Hw; cbn [snd] in Hw; subst w1; auto. }
  destruct Hcase as [[= ->] | [= ->]]; auto.
Qed.

Lemma import_entries_frame (arr : list JSON.json) :
  forall w r w1,
    import_entries h arr w = (r, w1) ->
    st w1 = st w /\ draws w1 = draws w /\ events w1 = events w.
Proof.
  induction arr as [|e arr IH]; intros w r w1 H.
  - cbn in H. injection H as <- <-. auto.
  - cbn [import_entries] in H. unfold mbind at 1, M_bind at 1 in H.
    destruct (import_entry h e w) as [[x|m] w0] eqn:E;
      destruct (import_entry_frame _ _ _ _ E) as (H1 & H2 & H3).
    + unfold mbind, M_bind in H.
      destruct (import_entries h arr w0) as [[xs|m] w2] eqn:E2;
        destruct (IH _ _ _ E2) as (? & ? & ?);
        injection H as <- <-; repeat split; congruence.
    + injection H as <- <-. auto.
Qed.

Lemma importBuffer_run (data : import_data)
  (options : option import_options) (w : World) :
  importBuffer h data options w
  = match import_source h data with
    | Some (JSON.JArr arr) =>
        match import_entries h arr w with
        | (Ok imported, w1) =>
            (Ok true,
             with_state
               (store_imported (import_appends h options) imported (st w1)) w1)
        | (Throw m, w1) => (Throw m, w1)
        end
    | _ => (Ok false, w)
    end.
Proof.
  unfold importBuffer.
  destruct (import_source h data) as [[| | | | arr |]|]; try reflexivity.
  unfold mbind at 1, M_bind at 1.
  destruct (import_entries h arr w) as [[imported|m] w1]; [| reflexivity].
  unfold modify, mbind, M_bind, get_state, put_state, mret, M_ret,
    store_imported, evict, with_state.
  cbn [st draws ticks events].
  destruct (0 <? _); reflexivity.
Qed.

Lemma import_entries_exported (entries : list BufferedEntry) :
  forallb entry_filled entries = true ->
  forall w, import_entries h (map entry_json entries) w = (Ok entries, w).
Proof.
  induction entries as [|e entries IH]; intros Hfilled w; [reflexivity |].
  cbn [forallb] in Hfilled. apply andb_true_iff in Hfilled as [He Hrest].
  cbn [map import_entries]. unfold mbind at 1, M_bind at 1.
  rewrite import_entry_run.
  unfold entry_filled in He.
  apply andb_true_iff in He as [He Hn]. apply andb_true_iff in He as [Ht Hl].
  destruct e as [t l n p].
  cbn [time level namespace preview] in *.
  unfold entry_json, time_given, coerce_entry, get_field, field_or.
  cbn [time level namespace preview JSON.lookup String.eqb Ascii.eqb Bool.eqb
       json_truthy json_to_string].
  rewrite Ht, Hl, Hn.
  unfold mbind, M_bind. rewrite (IH Hrest). unfold mret, M_ret.
  destruct p; reflexivity.
Qed.

Lemma with_buffer_same (s : State) : with_buffer (buffer s) s = s.
Proof. destruct s; reflexivity. Qed.

Lemma with_state_same (w : World) : with_state (st w) w = w.
Proof. destruct w; reflexivity. Qed.





End Bounded.



(** ** Dedup by key *)

Lemma addToBuffer_onceKeys (e : BufferedEntry) (s : State) :
  onceKeys (addToBuffer e s) = onceKeys s.
Proof. rewrite addToBuffer_evict. reflexivity. Qed.

Section Dedup.

Context (h : Host).

Lemma emit_onceKeys (levelName namespace : string)
  (args : list value) (w : World) :
  onceKeys (st (emit h levelName namespace args w).2) = onceKeys (st w).
Proof.
  destruct (emit_state h levelName namespace args w) as [-> | [e ->]];
    [reflexivity | apply addToBuffer_onceKeys].
Qed.

Lemma logger_once_run (lg : Logger) (key : value)
  (rest : list value) (w : World) :
  logger_once h lg (key :: rest) w
  = match to_string h key with
    | Throw m => (Throw m, w)
    | Ok ks =>
        let k := lg_ns lg +:+ "|" +:+ ks in
        if bool_decide (k ∈ onceKeys (st w)) then (Ok None, w)
        else emit h "info" (lg_ns lg) rest
               (with_state (with_onceKeys ({[k]} ∪ onceKeys (st w)) (st w)) w)
    end.
Proof.
  unfold logger_once. cbn [tail].
  unfold mbind at 1, M_bind at 1, lift.
  destruct (to_string h key) as [ks|m]; [| reflexivity].
  unfold mbind at 1, M_bind at 1, get_state.
  destruct (bool_decide _); [reflexivity |].
  unfold mbind at 1, M_bind at 1, modify, mbind, M_bind, get_state, put_state.
  reflexivity.
Qed.

(** C6 (as amended): for a key whose [String(.)] is [ks], the dedup key is
    [ns + "|" + ks].  On a key not yet marked, [once] marks it and hands
    the remaining arguments to one [emit] at level ['info']: at most one
    record, of level ['info'] and of the logger's namespace, and exactly
    one when that call passes the level, sampling and namespace gates.  A
    second call produces nothing and changes nothing; the mark survives
    every later [emit]; after [resetOnce()] the pair is handed to [emit]
    once more. *)
Theorem C6_once_dedup (lg : Logger) (key : value)
  (rest : list value) (ks : string) (w : World) :
  to_string h key = Ok ks ->
  let k := lg_ns lg +:+ "|" +:+ ks in
  k ∉ onceKeys (st w) ->
  let mark (keys : gset string) (w0 : World) :=
    with_state (with_onceKeys ({[k]} ∪ keys) (st w0)) w0 in
  let first := logger_once h lg (key :: rest) w in
  first = emit h "info" (lg_ns lg) rest (mark (onceKeys (st w)) w)
  /\ k ∈ onceKeys (st first.2)
  /\ (exists produced,
         first.1 = Ok produced
         /\ (is_Some produced
             <-> (spec_decision 40
                    (getEffectiveLevelWeight (VStr (lg_ns lg)) (st w))
                    (first_match (sampleRules (st w)) (lg_ns lg))
                    (random h (draws w))
                    (isNamespaceEnabled (VStr (lg_ns lg)) (st w))).1 = true)
         /\ (forall record,
                produced = Some record ->
                rec_level record = "info"
                /\ rec_namespace record = lg_ns lg
                /\ rec_args record
                   = redacted h (st w) rest "info" (lg_ns lg)))
  /\ logger_once h lg (key :: rest) first.2 = (Ok None, first.2)
  /\ (forall levelName namespace args,
         k ∈ onceKeys (st (emit h levelName namespace args first.2).2))
  /\ logger_once h lg (key :: rest)
       (with_state (resetOnce (st first.2)) first.2)
     = emit h "info" (lg_ns lg) rest
         (mark ∅ (with_state (resetOnce (st first.2)) first.2)).
Proof.
  intros Hkey k Hfresh mark first.
  assert (Hfirst : first = emit h "info" (lg_ns lg) rest
                             (mark (onceKeys (st w)) w)).
  { subst first. rewrite logger_once_run, Hkey. cbn zeta. fold k.
    rewrite bool_decide_eq_false_2 by exact Hfresh. reflexivity. }
  assert (Hmarked : k ∈ onceKeys (st first.2)).
  { rewrite Hfirst, emit_onceKeys. subst mark. cbn. set_solver. }
  split; [exact Hfirst |].
  split; [exact Hmarked |].
  split.
  { destruct (emit_decision h "info" (lg_ns lg) 40 rest
                (mark (onceKeys (st w)) w) eq_refl) as [H _].
    rewrite <- Hfirst in H. exact H. }
  split.
  { rewrite logger_once_run, Hkey. cbn zeta. fold k.
    now rewrite bool_decide_eq_true_2 by exact Hmarked. }
  split.
  { intros levelName namespace args. now rewrite emit_onceKeys. }
  rewrite logger_once_run, Hkey. cbn zeta. fold k.
  rewrite bool_decide_eq_false_2 by (cbn; set_solver).
  reflexivity.
Qed.

End Dedup.

(** C6, on [once('slow-query', 'took 2s')] of the logger ['db'] in the
    default state: the second call produces nothing. *)
Lemma C6_once_dedup_witness :
  let w := world_of default_state in
  let args := [VStr "slow-query"; VStr "took 2s"] in
  (to_string example_host (VStr "slow-query") = Ok "slow-query"
   /\ "db|slow-query" ∉ onceKeys (st w))
  /\ logger_once example_host db_logger args
       (logger_once example_host db_logger args w).2
     = (Ok None, (logger_once example_host db_logger args w).2).
Proof.
  intros w args.
  assert (Hfresh : "db|slow-query" ∉ onceKeys (st w)) by (cbn; set_solver).
  split; [split; [reflexivity | exact Hfresh] |].
  exact (proj1 (proj2 (proj2 (proj2
    (C6_once_dedup example_host db_logger (VStr "slow-query")
       [VStr "took 2s"] "slow-query" w eq_refl Hfresh))))).
Defined.

(** C6 as stated fails when the informational call is filtered out: after
    [setLevel('warn')] the first [once] marks the key and produces no
    record, the second produces none either, and nothing reaches the
    buffer, the console or a sink. *)
Lemma C6_once_can_produce_no_record :
  let w := world_of (setLevel "warn" default_state) in
  let args := [VStr "slow-query"; VStr "took 2s"] in
  let first := logger_once example_host db_logger args w in
  let second := logger_once example_host db_logger args first.2 in
  first.1 = Ok None /\ second.1 = Ok None
  /\ buffer (st second.2) = [] /\ events second.2 = []
  /\ "db|slow-query" ∈ onceKeys (st second.2).
Proof.
  cbn zeta.
  rewrite !logger_once_run. cbn [to_string]. cbn zeta.
  rewrite bool_decide_eq_false_2 by (cbn; set_solver).
  rewrite emit_run.
  change (level_rejects "info" (lg_ns db_logger) _) with true.
  cbn [fst snd].
  rewrite bool_decide_eq_true_2 by (cbn; set_solver).
  cbn. repeat split; try set_solver.
Qed.

(** ** Sink fan-out *)

Lemma occurrences_app (x : nat) (l r : list nat) :
  occurrences x (l ++ r) = (occurrences x l + occurrences x r)%nat.
Proof. induction l as [|y l IH]; cbn; [reflexivity | rewrite IH; lia]. Qed.

Lemma occurrences_remove_first (x y : nat) (l : list nat) :
  occurrences x (remove_first y l)
  = if (y =? x)%nat then Nat.pred (occurrences x l) else occurrences x l.
Proof.
  induction l as [|z l IH]; cbn [remove_first occurrences].
  - now destruct (y =? x)%nat.
  - destruct (Nat.eqb_spec y z) as [<- | Hyz].
    + destruct (y =? x)%nat; cbn; lia.
    + cbn [occurrences]. rewrite IH.
      destruct (Nat.eqb_spec y x) as [<- | Hyx].
      * destruct (Nat.eqb_spec z y); [congruence | cbn; reflexivity].
      * reflexivity.
Qed.

Lemma remove_first_middle (x : nat) (before after : list nat) :
  ~ In x before -> remove_first x (before ++ x :: after) = before ++ after.
Proof.
  induction before as [|y before IH]; intros Hnot; cbn.
  - now rewrite Nat.eqb_refl.
  - destruct (Nat.eqb_spec x y) as [-> | _].
    + exfalso. apply Hnot. now left.
    + rewrite IH; [reflexivity |]. intros H. apply Hnot. now right.
Qed.

Lemma run_transport_ops_occurrences (sink : nat) (ops : list transport_op) :
  forall s,
    occurrences sink (transports (run_transport_ops ops s))
    = registrations sink ops (occurrences sink (transports s)).
Proof.
  induction ops as [|op ops IH]; intros s; [reflexivity |].
  cbn [run_transport_ops fold_left]. fold (run_transport_ops ops).
  rewrite IH.
  destruct op as [fn | fn]; destruct fn; cbn [registrations run_transport_op
    addTransport removeTransport]; try reflexivity.
  - cbn [transports with_transports]. rewrite occurrences_app. cbn.
    destruct (id =? sink)%nat; f_equal; lia.
  - cbn [transports with_transports]. now rewrite occurrences_remove_first.
Qed.

(** The fan-out to sinks that only answer, leaving the record and the
    list of transports alone: after any sequence of
    [addTransport]/[removeTransport] calls, a notification invokes every
    registered sink, in registration order, with the record, whether or
    not sinks throw, and returns normally; a sink is registered as many
    times as it was added (less its removals), each registration being one
    invocation; a removal takes out the earliest registration of the sink
    and leaves the order of the others. *)
Theorem fanout_of_passive_sinks (h : Host) (entry : LogRecord)
  (ops : list transport_op) (w : World) :
  let s := run_transport_ops ops (st w) in
  notifyTransports h entry (with_state s w)
  = (Ok tt,
     add_events (map (fun sink => ESink sink entry) (transports s))
       (with_state s w))
  /\ (forall sink,
         occurrences sink (transports s)
         = registrations sink ops (occurrences sink (transports (st w))))
  /\ (forall id src,
         transports (addTransport (VFun id src) (addTransport (VFun id src) s))
         = transports s ++ [id; id])
  /\ (forall id src before after,
         transports s = before ++ id :: after -> ~ In id before ->
         transports (removeTransport (VFun id src) s) = before ++ after).
Proof.
  cbn zeta. split; [apply notifyTransports_run |].
  split; [intros sink; apply run_transport_ops_occurrences |].
  split.
  - intros id src. cbn. now rewrite <- app_assoc.
  - intros id src before after Hs Hnot. cbn. rewrite Hs.
    now apply remove_first_middle.
Qed.

(** C7, at the input where it fails: sinks 1 and 2 are registered, and
    sink 1 removes itself when it is invoked, as a sink meant for one
    record does.  The notification of a record invokes sink 1 and ends:
    sink 2, registered all along, is not invoked with the record, for the
    loop goes on at index 1 of a list that by then holds sink 2 alone.  The
    next record reaches sink 2. *)
Theorem C7_self_removing_sink_hides_the_next :
  let s := addTransport (VFun 2 "") (addTransport (VFun 1 "") default_state) in
  let first := sample_record "first" in
  let second := sample_record "second" in
  transports s = [1; 2]%nat
  /\ exists w1,
       Live.notifyTransports example_callbacks 2 first (world_of s)
       = Some (Ok first, w1)
       /\ events w1 = [ESink 1 first]
       /\ transports (st w1) = [2%nat]
       /\ exists w2,
            Live.notifyTransports example_callbacks 2 second w1
            = Some (Ok second, w2)
            /\ events w2 = [ESink 1 first; ESink 2 second].
Proof.
  cbn zeta. split; [reflexivity |].
  eexists. split; [vm_compute; reflexivity |].
  split; [reflexivity |]. split; [reflexivity |].
  eexists. split; [vm_compute; reflexivity | reflexivity].
Qed.

(** A sink that throws does not keep the next one from the record:
    sinks 1 (which throws) and 2 are both invoked, in that order. *)
Example throwing_sink_is_skipped :
  let s := addTransport (VFun 2 "") (addTransport (VFun 1 "") default_state) in
  let out := emit example_host "warn" "db" [VStr "late"] (world_of s) in
  exists record,
    out.1 = Ok (Some record)
    /\ events out.2
       = [ENative "warn" [VStr "late"]; ESink 1 record; ESink 2 record]
    /\ buffer (st out.2)
       = [{| time := "T0"; level := "warn"; namespace := "db";
             preview := "late" |}].
Proof. eexists. split; [reflexivity |]. split; reflexivity. Qed.

(** ** Failure isolation *)

(** Every severity method logs at the level it is named after. *)
Lemma severity_methods_are_levels :
  Forall (fun method => normal_level method = method) severity_methods.
Proof. repeat constructor. Qed.

Section Isolation.

Context (h : Host).

(** The severity methods return normally, whatever the arguments, the
    redactor, the sinks and the native console do. *)
Lemma logger_log_returns_normally (lg : Logger) (method : string)
  (args : list value) (w : World) :
  exists produced w', logger_log h lg method args w = (Ok produced, w').
Proof. apply emit_returns_normally. Qed.

(** [once] returns normally when the key converts to a string, and lets
    the exception of the conversion out otherwise, before anything is
    marked or emitted. *)
Lemma logger_once_outcome (lg : Logger) (key : value)
  (rest : list value) (w : World) :
  match to_string h key with
  | Ok _ => exists produced w',
      logger_once h lg (key :: rest) w = (Ok produced, w')
  | Throw m => logger_once h lg (key :: rest) w = (Throw m, w)
  end.
Proof.
  rewrite logger_once_run.
  destruct (to_string h key) as [ks|m]; [| reflexivity].
  cbn zeta. destruct (bool_decide _); [eauto |].
  apply emit_returns_normally.
Qed.

(** The same for the label of [count], [countReset], [time] and
    [timeEnd]. *)
Lemma logger_count_outcome (lg : Logger) (label : value) (w : World) :
  match label_key h label with
  | Ok _ => exists r w', logger_count h lg label w = (Ok r, w')
  | Throw m => logger_count h lg label w = (Throw m, w)
  end.
Proof.
  unfold logger_count, mbind at 1, M_bind at 1, lift.
  destruct (label_key h label) as [k|m]; [| reflexivity].
  unfold mbind, M_bind.
  match goal with
  | |- context [emit h "info" ?ns ?args ?w0] =>
      destruct (emit_returns_normally h "info" ns args w0)
        as (produced & w' & ->)
  end.
  unfold mret, M_ret. eauto.
Qed.

Lemma logger_countReset_outcome (lg : Logger) (label : value)
  (w : World) :
  match label_key h label with
  | Ok _ => exists r w', logger_countReset h lg label w = (Ok r, w')
  | Throw m => logger_countReset h lg label w = (Throw m, w)
  end.
Proof.
  unfold logger_countReset, mbind at 1, M_bind at 1, lift.
  destruct (label_key h label) as [k|m]; [| reflexivity].
  unfold mbind, M_bind.
  destruct (emit_returns_normally h "info" (lg_ns lg)
              [VStr ("countReset " +:+ k +:+ ": 0")] w)
    as (produced & w' & ->).
  unfold mret, M_ret. eauto.
Qed.

Lemma logger_time_outcome (lg : Logger) (label : value) (w : World) :
  match label_key h label with
  | Ok _ => exists lg' w', logger_time h lg label w = (Ok lg', w')
  | Throw m => logger_time h lg label w = (Throw m, w)
  end.
Proof.
  unfold logger_time, mbind at 1, M_bind at 1, lift.
  destruct (label_key h label) as [k|m]; [| reflexivity].
  unfold mbind, M_bind, nowMs, mret, M_ret. eauto.
Qed.

Lemma logger_timeEnd_outcome (lg : Logger) (label : value)
  (w : World) :
  match label_key h label with
  | Ok _ => exists r w', logger_timeEnd h lg label w = (Ok r, w')
  | Throw m => logger_timeEnd h lg label w = (Throw m, w)
  end.
Proof.
  unfold logger_timeEnd, mbind at 1, M_bind at 1, lift.
  destruct (label_key h label) as [k|m]; [| reflexivity].
  destruct (own (lg_timers lg) k) as [start|];
    [| destruct (inherited k); [| unfold mret, M_ret; eauto]];
    unfold mbind, M_bind, nowMs;
    match goal with
    | |- context [emit h "info" ?ns ?args ?w0] =>
        destruct (emit_returns_normally h "info" ns args w0)
          as (produced & w' & ->)
    end;
    unfold mret, M_ret; eauto.
Qed.

End Isolation.

(** C1, at the input where it fails: [logger.once(Object.create(null))]
    lets the [TypeError] of [String(key)] out to its caller; nothing was
    marked, emitted or buffered. *)
Theorem C1_once_lets_key_conversion_error_out :
  logger_once example_host db_logger [bare_object; VStr "message"]
    (world_of default_state)
  = (Throw "TypeError", world_of default_state).
Proof. reflexivity. Qed.

(** ** Export and parse *)

Lemma parse_string_quote_char (c : ascii) (tail : string) :
  JSON.parse_string (JSON.quote_char c +:+ tail)
  = '(body, rest) ← JSON.parse_string tail; Some (String c body, rest).
Proof. destruct c as [[] [] [] [] [] [] [] []]; reflexivity. Qed.

Lemma parse_string_quoted (s rest : string) :
  JSON.parse_string (Str.flat_map JSON.quote_char s +:+ String "034" rest)
  = Some (s, rest).
Proof.
  induction s as [|c s IH]; [reflexivity |].
  cbn [Str.flat_map]. rewrite append_assoc, parse_string_quote_char, IH.
  reflexivity.
Qed.

Ltac flatten_text :=
  unfold JSON.quote, newline;
  repeat first [rewrite append_assoc | progress cbn [String.append]].

Lemma parse_value_unfold (f : nat) (s : string) :
  JSON.parse_value (S f) s =
  match JSON.skip_ws s with
  | "" => None
  | String c r =>
      if (c =? "034")%char then
        '(body, rest) ← JSON.parse_string r; Some (JSON.JStr body, rest)
      else if (c =? "[")%char then
        match JSON.skip_ws r with
        | String d r' =>
            if (d =? "]")%char then Some (JSON.JArr [], r')
            else '(elems, rest) ← JSON.parse_elements f r;
                 Some (JSON.JArr elems, rest)
        | "" => None
        end
      else if (c =? "{")%char then
        match JSON.skip_ws r with
        | String d r' =>
            if (d =? "}")%char then Some (JSON.JObj [], r')
            else '(props, rest) ← JSON.parse_members f r;
                 Some (JSON.JObj props, rest)
        | "" => None
        end
      else if (c =? "t")%char then
        rest ← JSON.strip_prefix "rue" r; Some (JSON.JBool true, rest)
      else if (c =? "f")%char then
        rest ← JSON.strip_prefix "alse" r; Some (JSON.JBool false, rest)
      else if (c =? "n")%char then
        rest ← JSON.strip_prefix "ull" r; Some (JSON.JNull, rest)
      else
        '(lit, rest) ← JSON.parse_number (String c r); Some (JSON.JNum lit, rest)
  end.
Proof. reflexivity. Qed.

Lemma parse_elements_unfold (f : nat) (s : string) :
  JSON.parse_elements (S f) s =
  '(v, rest) ← JSON.parse_value f s;
  match JSON.skip_ws rest with
  | String c r =>
      if (c =? ",")%char then
        '(vs, rest') ← JSON.parse_elements f r; Some (v :: vs, rest')
      else if (c =? "]")%char then Some ([v], r)
      else None
  | "" => None
  end.
Proof. reflexivity. Qed.

Lemma parse_members_unfold (f : nat) (s : string) :
  JSON.parse_members (S f) s =
  match JSON.skip_ws s with
  | String q r =>
      if (q =? "034")%char then
        '(key, rest) ← JSON.parse_string r;
        match JSON.skip_ws rest with
        | String colon r1 =>
            if (colon =? ":")%char then
              '(v, rest1) ← JSON.parse_value f r1;
              match JSON.skip_ws rest1 with
              | String c r2 =>
                  if (c =? ",")%char then
                    '(ps, rest2) ← JSON.parse_members f r2;
                    Some ((key, v) :: ps, rest2)
                  else if (c =? "}")%char then Some ([(key, v)], r2)
                  else None
              | "" => None
              end
            else None
        | "" => None
        end
      else None
  | "" => None
  end.
Proof. reflexivity. Qed.

Ltac parse_step :=
  cbn -[JSON.parse_value JSON.parse_members JSON.parse_elements
        JSON.parse_string].

Lemma parse_value_string (f : nat) (val rest : string) :
  JSON.parse_value (S f) (" " +:+ JSON.quote val +:+ rest)
  = Some (JSON.JStr val, rest).
Proof.
  flatten_text. rewrite parse_value_unfold. parse_step.
  rewrite parse_string_quoted. reflexivity.
Qed.

Lemma parse_members_more (f : nat) (key val tail rest : string)
  (ps : list (string * JSON.json)) :
  JSON.parse_members (S f) tail = Some (ps, rest) ->
  JSON.parse_members (S (S f))
    (newline +:+ "    " +:+ JSON.quote key +:+ ":" +:+ " " +:+ JSON.quote val
     +:+ "," +:+ tail)
  = Some ((key, JSON.JStr val) :: ps, rest).
Proof.
  intros Htail.
  pose proof (parse_value_string f val ("," +:+ tail)) as Hval.
  revert Hval. flatten_text. intros Hval.
  rewrite parse_members_unfold. parse_step.
  rewrite parse_string_quoted. parse_step.
  rewrite Hval. parse_step.
  rewrite Htail. reflexivity.
Qed.

Lemma parse_members_last (f : nat) (key val rest : string) :
  JSON.parse_members (S (S f))
    (newline +:+ "    " +:+ JSON.quote key +:+ ":" +:+ " " +:+ JSON.quote val
     +:+ newline +:+ "  }" +:+ rest)
  = Some ([(key, JSON.JStr val)], rest).
Proof.
  pose proof (parse_value_string f val (newline +:+ "  }" +:+ rest)) as Hval.
  revert Hval. flatten_text. intros Hval.
  rewrite parse_members_unfold. parse_step.
  rewrite parse_string_quoted. parse_step.
  rewrite Hval. reflexivity.
Qed.

Lemma parse_value_object (f : nat) (tail rest r' : string) (d : ascii)
  (ps : list (string * JSON.json)) :
  JSON.skip_ws tail = String d r' ->
  (d =? "}")%char = false ->
  JSON.parse_members f tail = Some (ps, rest) ->
  JSON.parse_value (S f) (String "{" tail) = Some (JSON.JObj ps, rest).
Proof.
  intros Hws Hd Hps. rewrite parse_value_unfold.
  cbn [JSON.skip_ws JSON.is_ws Ascii.eqb Bool.eqb orb andb].
  rewrite Hws, Hd, Hps. reflexivity.
Qed.

Lemma parse_entry (f : nat) (e : BufferedEntry) (rest : string) :
  JSON.parse_value (S (S (S (S (S (S f)))))) (entry_text e +:+ rest)
  = Some (entry_json e, rest).
Proof.
  pose proof (parse_members_last f "preview" (preview e) rest) as H4.
  pose proof (parse_members_more _ "namespace" (namespace e) _ _ _ H4) as H3.
  pose proof (parse_members_more _ "level" (level e) _ _ _ H3) as H2.
  pose proof (parse_members_more _ "time" (time e) _ _ _ H2) as H1.
  clear H2 H3 H4.
  unfold entry_text. repeat rewrite append_assoc.
  eapply parse_value_object; [reflexivity | reflexivity |].
  revert H1. flatten_text. intros H1. exact H1.
Qed.

Lemma parse_value_skip (f : nat) (c : ascii) (s : string) :
  JSON.is_ws c = true ->
  JSON.parse_value f (String c s) = JSON.parse_value f s.
Proof.
  intros Hc. destruct f as [|f]; [reflexivity |].
  rewrite !parse_value_unfold. cbn [JSON.skip_ws]. rewrite Hc. reflexivity.
Qed.

Lemma parse_elements_cons (f : nat) (s rest1 r rest : string)
  (v : JSON.json) (vs : list JSON.json) :
  JSON.parse_value f s = Some (v, rest1) ->
  JSON.skip_ws rest1 = String "," r ->
  JSON.parse_elements f r = Some (vs, rest) ->
  JSON.parse_elements (S f) s = Some (v :: vs, rest).
Proof.
  intros Hv Hws Hvs. rewrite parse_elements_unfold, Hv.
  cbn [mbind option_bind]. rewrite Hws. cbn. rewrite Hvs. reflexivity.
Qed.

Lemma parse_elements_last (f : nat) (s rest1 r : string) (v : JSON.json) :
  JSON.parse_value f s = Some (v, rest1) ->
  JSON.skip_ws rest1 = String "]" r ->
  JSON.parse_elements (S f) s = Some ([v], r).
Proof.
  intros Hv Hws. rewrite parse_elements_unfold, Hv.
  cbn [mbind option_bind]. rewrite Hws. reflexivity.
Qed.

Lemma parse_indented_entry (f : nat) (e : BufferedEntry) (rest : string) :
  JSON.parse_value (S (S (S (S (S (S f))))))
    (newline +:+ "  " +:+ entry_text e +:+ rest)
  = Some (entry_json e, rest).
Proof.
  cbn [newline String.append].
  rewrite !parse_value_skip by reflexivity. apply parse_entry.
Qed.

Lemma parse_elements_entries (es : list BufferedEntry) :
  forall (e : BufferedEntry) (f : nat) (rest : string),
    JSON.parse_elements (S (S (S (S (S (S (S (length es + f))))))))
      (newline +:+ "  " +:+ join entry_separator (map entry_text (e :: es))
       +:+ newline +:+ "]" +:+ rest)
    = Some (map entry_json (e :: es), rest).
Proof.
  induction es as [|e' es IH]; intros e f rest.
  - eapply parse_elements_last; [apply parse_indented_entry | reflexivity].
  - change (join entry_separator (map entry_text (e :: e' :: es)))
      with (entry_text e +:+ entry_separator
            +:+ join entry_separator (map entry_text (e' :: es))).
    rewrite !append_assoc.
    eapply parse_elements_cons;
      [apply parse_indented_entry | reflexivity | exact (IH e' f rest)].
Qed.

Lemma entry_text_length (e : BufferedEntry) :
  (7 <= String.length (entry_text e))%nat.
Proof.
  unfold entry_text. flatten_text. cbn [String.length]. lia.
Qed.

Lemma join_entries_length (es : list BufferedEntry) :
  (7 * length es <= String.length (join entry_separator (map entry_text es)))%nat.
Proof.
  induction es as [|e es IH]; [cbn; lia |].
  pose proof (entry_text_length e) as He.
  destruct es as [|e' es].
  - cbn [map join length]. lia.
  - change (join entry_separator (map entry_text (e :: e' :: es)))
      with (entry_text e +:+ entry_separator
            +:+ join entry_separator (map entry_text (e' :: es))).
    rewrite !length_append. cbn [length] in *. lia.
Qed.

Lemma parse_value_array (f : nat) (tail rest r' : string) (d : ascii)
  (elems : list JSON.json) :
  JSON.skip_ws tail = String d r' ->
  (d =? "]")%char = false ->
  JSON.parse_elements f tail = Some (elems, rest) ->
  JSON.parse_value (S f) (String "[" tail) = Some (JSON.JArr elems, rest).
Proof.
  intros Hws Hd Hes. rewrite parse_value_unfold.
  cbn [JSON.skip_ws JSON.is_ws Ascii.eqb Bool.eqb orb andb].
  rewrite Hws, Hd, Hes. reflexivity.
Qed.

(** The text [exportBuffer] produces parses back to the entries. *)
Lemma parse_exportBuffer (s : State) :
  JSON.parse (exportBuffer s) = Some (JSON.JArr (map entry_json (buffer s))).
Proof.
  unfold exportBuffer, stringify_entries.
  destruct (buffer s) as [|e es]; [reflexivity |].
  unfold JSON.parse.
  set (body := join entry_separator (map entry_text (e :: es))).
  set (text := "[" +:+ newline +:+ "  " +:+ body +:+ newline +:+ "]").
  assert (Hlen : exists k,
             String.length text = S (S (S (S (S (S (S (length es + k)))))))).
  { pose proof (join_entries_length (e :: es)) as Hj. fold body in Hj.
    exists (String.length text - 7 - length es)%nat.
    subst text. rewrite !length_append in *.
    cbn [length String.length newline] in *. lia. }
  destruct Hlen as [k Hk]. rewrite Hk.
  pose proof (parse_elements_entries es e k "") as Hes. fold body in Hes.
  assert (Hnext : exists d r,
             JSON.skip_ws (newline +:+ "  " +:+ body +:+ newline +:+ "]")
             = String d r /\ (d =? "]")%char = false).
  { subst body. destruct es; eexists _, _; split; reflexivity. }
  destruct Hnext as (d & r & Hws & Hd).
  pose proof (parse_value_array _ (newline +:+ "  " +:+ body +:+ newline +:+ "]")
                "" r d (map entry_json (e :: es)) Hws Hd Hes) as Hp.
  change (String "[" (newline +:+ "  " +:+ body +:+ newline +:+ "]"))
    with text in Hp.
  rewrite Hp. reflexivity.
Qed.

(** ** Export, import *)

(** C9 (as amended): when the buffer is within its capacity and every
    entry has a non-empty time, level and namespace, exporting and importing
    back with [{append: false}] answers true and leaves the buffer, and the
    rest of the world, as it was; [exportBuffer] itself always answers its
    text, the serialisation of entries never failing. *)
Theorem C9_export_import_round_trip (h : Host) (w : World) :
  Z.of_nat (length (buffer (st w))) <= config_bufferSize (st w) ->
  forallb entry_filled (buffer (st w)) = true ->
  export_then_import h w = (Ok true, w)
  /\ stringify_entries (buffer (st w)) = Ok (exportBuffer (st w)).
Proof.
  intros Hlen Hfilled. split.
  - unfold export_then_import. rewrite importBuffer_run.
    cbn [import_source to_string]. rewrite parse_exportBuffer.
    rewrite (import_entries_exported h _ Hfilled).
    unfold store_imported, evict. cbn [import_appends app].
    destruct (Z.ltb_spec 0 (Z.of_nat (length (buffer (st w)))
                            - config_bufferSize (st w))) as [H | H]; [lia |].
    now rewrite with_buffer_same, with_state_same.
  - unfold exportBuffer, stringify_entries.
    destruct (buffer (st w)); reflexivity.
Qed.

(** C9, on the default state after three appends. *)
Lemma C9_export_import_round_trip_witness :
  (Z.of_nat (length (buffer (append_all [entry_a; entry_b; entry_c] default_state)))
   <= config_bufferSize (append_all [entry_a; entry_b; entry_c] default_state)
   /\ forallb entry_filled
        (buffer (append_all [entry_a; entry_b; entry_c] default_state)) = true)
  /\ export_then_import example_host
       (world_of (append_all [entry_a; entry_b; entry_c] default_state))
     = (Ok true, world_of (append_all [entry_a; entry_b; entry_c] default_state)).
Proof.
  split; [split; [vm_compute; discriminate | reflexivity] |].
  refine (proj1 (C9_export_import_round_trip example_host
                   (world_of (append_all [entry_a; entry_b; entry_c]
                                default_state)) _ _));
    [vm_compute; discriminate | reflexivity].
Defined.

(** C9 as stated fails on two kinds of buffer.  After two appends and
    [updateConfig({bufferSize: 1})] the buffer holds two entries and the
    round trip keeps the last one only.  After the import of
    [[{time: 't', level: [], namespace: 'db', preview: 'p'}]] the buffer
    holds an entry whose level is the empty string, and the round trip
    gives it the level ['log']. *)
Lemma C9_round_trip_can_change_the_buffer :
  (let s := updateConfig_bufferSize 1
              (append_all [entry_a; entry_b] default_state) in
   buffer s = [entry_a; entry_b]
   /\ exists w', export_then_import example_host (world_of s) = (Ok true, w')
                 /\ buffer (st w') = [entry_b])
  /\ (let w := (importBuffer example_host blank_level_data None
                  (world_of default_state)).2 in
      buffer (st w)
      = [{| time := "t"; level := ""; namespace := "db"; preview := "p" |}]
      /\ exists w', export_then_import example_host w = (Ok true, w')
                    /\ buffer (st w')
                       = [{| time := "t"; level := "log"; namespace := "db";
                             preview := "p" |}]).
Proof.
  split.
  - split; [reflexivity |]. eexists. split; vm_compute; reflexivity.
  - split; [reflexivity |]. eexists. split; vm_compute; reflexivity.
Qed.

(** C10 (as amended): for data that is read as a sequence of entries, an
    import without options puts the imported entries in place of the
    buffer, and so does one whose options are given and falsy ([null],
    [false], [0], the empty string); an import with an options object
    lacking [append] puts them after the entries held; the buffer is
    replaced exactly when the options are falsy, omitted or not, or their
    [append] is [false] itself. *)
Theorem C10_import_append_mode (h : Host) (data : import_data)
  (arr : list JSON.json) (imported : list BufferedEntry) (w w1 : World) :
  import_source h data = Some (JSON.JArr arr) ->
  import_entries h arr w = (Ok imported, w1) ->
  let cap := config_bufferSize (st w) in
  (exists w',
      importBuffer h data None w = (Ok true, w')
      /\ buffer (st w') = evict cap imported)
  /\ (exists w',
         importBuffer h data (Some (Options VUndefined)) w = (Ok true, w')
         /\ buffer (st w') = evict cap (buffer (st w) ++ imported))
  /\ (forall options,
         importBuffer h data options w
         = (Ok true,
            with_state
              (with_buffer
                 (evict cap ((if import_appends h options then buffer (st w)
                              else []) ++ imported)) (st w)) w1)
         /\ (import_appends h options = false
             <-> options = None
                 \/ (exists v,
                        options = Some (NotAnObject v) /\ truthy h v = false)
                 \/ options = Some (Options (VBool false)))).
Proof.
  intros Hsrc Himp cap.
  destruct (import_entries_frame _ _ _ _ _ Himp) as (Hst & _ & _).
  assert (Hrun : forall options,
             importBuffer h data options w
             = (Ok true,
                with_state
                  (with_buffer
                     (evict cap ((if import_appends h options
                                  then buffer (st w) else []) ++ imported))
                     (st w)) w1)).
  { intros options. rewrite importBuffer_run, Hsrc, Himp.
    unfold store_imported. now rewrite Hst. }
  split; [eexists; split; [apply Hrun | reflexivity] |].
  split; [eexists; split; [apply Hrun | reflexivity] |].
  intros options. split; [apply Hrun |].
  destruct options as [[v | v]|]; cbn [import_appends].
  - split.
    + intros Hv. right. right.
      destruct v as [| | [] | | | | | |]; congruence.
    + intros [Hn | [(v' & Ho & _) | Ho]]; [discriminate.. |].
      now injection Ho as ->.
  - split.
    + intros Hv. right. left. now exists v.
    + intros [Hn | [(v' & Ho & Hv) | Ho]]; [discriminate | | discriminate].
      now injection Ho as ->.
  - split; [now left | reflexivity].
Qed.

(** C10, on a buffer holding one entry and an array of one entry. *)
Lemma C10_import_append_mode_witness :
  let data := DataArray [entry_json entry_b] in
  let w := world_of (append_all [entry_a] default_state) in
  (import_source example_host data = Some (JSON.JArr [entry_json entry_b])
   /\ import_entries example_host [entry_json entry_b] w = (Ok [entry_b], w))
  /\ (exists w',
         importBuffer example_host data None w = (Ok true, w')
         /\ buffer (st w') = [entry_b])
  /\ (exists w',
         importBuffer example_host data (Some (Options VUndefined)) w
         = (Ok true, w')
         /\ buffer (st w') = [entry_a; entry_b]).
Proof.
  intros data w. split; [split; reflexivity |].
  pose proof (C10_import_append_mode example_host data
                [entry_json entry_b] [entry_b] w w eq_refl eq_refl) as H.
  split; [exact (proj1 H) | exact (proj1 (proj2 H))].
Defined.

(** C10 as stated fails on options that are given and falsy:
    [importBuffer(data, null)] on a buffer holding one entry puts the
    imported entry in its place, though the options are not omitted and
    have no [append] that is [false]. *)
Lemma C10_null_options_replace :
  let data := DataArray [entry_json entry_b] in
  let w := world_of (append_all [entry_a] default_state) in
  exists w',
    importBuffer example_host data (Some (NotAnObject VNull)) w = (Ok true, w')
    /\ buffer (st w') = [entry_b].
Proof. cbn zeta. eexists. split; reflexivity. Qed.

(** An element with a field that does not convert to a string, as in
    [[{time: {toString: 1}}]]: the import throws a [TypeError] and the
    buffer is as it was. *)
Example import_of_unconvertible_field :
  let data :=
    DataArray [JSON.JObj [("time", JSON.JObj [("toString", JSON.JNum "1")])]] in
  let w := world_of (append_all [entry_a] default_state) in
  importBuffer example_host data None w = (Throw "TypeError", w).
Proof. reflexivity. Qed.

(** * Further properties of the module *)

(** ** Level configuration *)

Lemma LEVELS_own_range (name : string) (w : Z) :
  LEVELS_own name = Some w -> 10 <= w <= 60.
Proof.
  unfold LEVELS_own, LEVELS. cbn [assoc].
  repeat (destruct (String.eqb _ name); [intros [= <-]; lia |]).
  discriminate.
Qed.

Lemma level_rule_value_not_above_error (name : string) :
  below 60 (level_rule_value name) = false.
Proof.
  unfold level_rule_value.
  destruct (LEVELS_own name) as [w|] eqn:E.
  - apply LEVELS_own_range in E. cbn. lia.
  - destruct (existsb _ _); reflexivity.
Qed.

(** The compiled rules, one per property, in the order of the map. *)
Lemma compile_rules_run {A V} (props : list (string * A)) (transform : A -> V) :
  compile_rules props transform
  = Ok (map (fun p => {| re := compiled p.1; rule_value := transform p.2 |})
          props).
Proof.
  induction props as [|[key a] rest IH]; [reflexivity |].
  cbn [compile_rules]. rewrite createWildcardRegex_ok, IH. reflexivity.
Qed.

Lemma first_match_compiled {A V} (props : list (string * A))
  (transform : A -> V) (ns : string) :
  (forall p, In p props -> ~ wildcard_matches p.1 ns) ->
  first_match
    (map (fun p => {| re := compiled p.1; rule_value := transform p.2 |}) props)
    ns = None.
Proof.
  induction props as [|p rest IH]; intros Hnone; [reflexivity |].
  cbn [map first_match re rule_value].
  destruct (RegExp.test (compiled p.1) ns) eqn:E.
  - apply test_createWildcardRegex in E. destruct (Hnone p (or_introl eq_refl) E).
  - apply IH. intros q Hq. apply Hnone. now right.
Qed.

(** What [enableNamespaces] leaves of the state. *)
Lemma enableNamespaces_frame (patternString : value) (s0 : State) :
  exists spec inc exc,
    enableNamespaces patternString s0 = Ok (with_namespaces spec inc exc s0).
Proof.
  unfold enableNamespaces. rewrite createWildcardRegex_ok.
  destruct patternString; try (cbn; eauto).
  destruct (Str.is_empty (Str.trim s)); [cbn; eauto |].
  rewrite compile_tokens_run.
  cbn -[split_tokens Str.split_comma Str.replace_space_runs].
  destruct (split_tokens _).1; cbn; eauto.
Qed.

Lemma with_level_coherent (name : string) (w : Z) (s : State) :
  LEVELS_own name = Some w -> levels_coherent s ->
  levels_coherent (with_level name w s).
Proof. intros Hown [_ Hrules]. split; [exact Hown | exact Hrules]. Qed.

Lemma setLevel_coherent (levelName : string) (s : State) :
  levels_coherent s -> levels_coherent (setLevel levelName s).
Proof.
  intros Hs. unfold setLevel.
  destruct (LEVELS_own levelName) eqn:E; [now apply with_level_coherent | exact Hs].
Qed.

Lemma setNamespaceLevels_coherent (map : option (list (string * string)))
  (s : State) :
  levels_coherent s ->
  exists s', setNamespaceLevels map s = Ok s' /\ levels_coherent s'.
Proof.
  intros [Hlevel _]. unfold setNamespaceLevels, compilePatternMap.
  destruct map as [props|].
  - rewrite compile_rules_run. eexists. split; [reflexivity |].
    split; [exact Hlevel |].
    cbn [nsLevelRules with_nsLevelRules].
    apply List.Forall_forall. intros r Hr. apply in_map_iff in Hr.
    destruct Hr as (p & <- & _). apply level_rule_value_not_above_error.
  - eexists. split; [reflexivity |]. split; [exact Hlevel | constructor].
Qed.

Lemma applyOverrides_coherent (overrides : option Overrides)
  (sp : State * Presentation) :
  levels_coherent sp.1 ->
  exists sp', applyOverrides overrides sp = Ok sp' /\ levels_coherent sp'.1.
Proof.
  intros Hs. destruct overrides as [o|]; [| now exists sp].
  destruct sp as [s p]. unfold applyOverrides. cbn [fst snd] in *.
  set (s1 := match ov_level o with
             | Some name => _
             | None => s
             end).
  assert (H1 : levels_coherent s1).
  { subst s1. destruct (ov_level o) as [name|]; [| exact Hs].
    destruct (LEVELS_own name) eqn:E; [now apply with_level_coherent | exact Hs]. }
  clearbody s1.
  assert (H2 : exists s2,
             match ov_namespaces o with
             | Some spec => enableNamespaces (VStr spec) s1
             | None => Ok s1
             end = Ok s2 /\ levels_coherent s2).
  { destruct (ov_namespaces o) as [spec|]; [| now exists s1].
    destruct (enableNamespaces_frame (VStr spec) s1) as (a & inc & exc & ->).
    eexists. split; [reflexivity | exact H1]. }
  destruct H2 as (s2 & -> & H2). cbn [mbind result_bind].
  eexists. split; [reflexivity |]. cbn [fst].
  assert (H3 : levels_coherent
                 match ov_bufferSize o with
                 | Some n =>
                     if is_positive n
                     then with_bufferSize (number_to_int32 n) s2 else s2
                 | None => s2
                 end).
  { destruct (ov_bufferSize o) as [n|]; [| exact H2].
    destruct (is_positive n); exact H2. }
  destruct (ov_captureStack o); exact H3.
Qed.

Lemma run_level_op_coherent (op : level_op) (sp : State * Presentation) :
  levels_coherent sp.1 -> levels_coherent (run_level_op sp op).1.
Proof.
  intros Hs. destruct op as [levelName|map|partial]; cbn [run_level_op].
  - now apply setLevel_coherent.
  - destruct (setNamespaceLevels_coherent map sp.1 Hs) as (s' & -> & Hs').
    exact Hs'.
  - unfold updateConfig. destruct partial as [o|]; [| exact Hs].
    destruct (applyOverrides_coherent (Some o) sp Hs) as (sp' & -> & Hs').
    exact Hs'.
Qed.

Lemma run_level_ops_coherent (ops : list level_op) :
  forall sp, levels_coherent sp.1 -> levels_coherent (run_level_ops ops sp).1.
Proof.
  induction ops as [|op rest IH]; intros sp Hs; [exact Hs |].
  cbn [run_level_ops fold_left]. apply IH. now apply run_level_op_coherent.
Qed.

Lemma default_state_coherent : levels_coherent default_state.
Proof. split; [reflexivity | constructor]. Qed.

Lemma coherent_threshold (namespace : value) (s : State) :
  levels_coherent s ->
  below 60 (getEffectiveLevelWeight namespace s) = false.
Proof.
  intros [Hlevel Hrules]. unfold getEffectiveLevelWeight.
  set (ns := namespace_or_global false namespace). clearbody ns.
  induction Hrules as [|r rest Hr _ IH]; cbn [first_match].
  - apply LEVELS_own_range in Hlevel. cbn. lia.
  - destruct (RegExp.test (re r) ns); [exact Hr | exact IH].
Qed.

(** X1: After any sequence of [setLevel], [setNamespaceLevels] and
    [updateConfig] calls on the module as loaded, whatever their arguments,
    [getLevel()] names the level whose weight is the threshold in force. *)
Theorem level_names_the_threshold (ops : list level_op) :
  let s := (run_level_ops ops (default_state, default_presentation)).1 in
  LEVELS_own (getLevel s) = Some (levelWeight s).
Proof.
  exact (proj1 (run_level_ops_coherent ops (default_state, default_presentation)
                  default_state_coherent)).
Qed.

Section ErrorCalls.

Context (h : Host).

(** X2: No level configuration reachable through [setLevel],
    [setNamespaceLevels] and [updateConfig] puts the threshold of a
    namespace above ['error']: a call at level ['error'] passes the level
    check of [emit], and is accepted whenever no sampling rule applies to
    its namespace and the namespace is enabled. *)
Theorem error_calls_pass_the_level_check (ops : list level_op)
  (namespace : string) (args : list value) (w : World) :
  st w = (run_level_ops ops (default_state, default_presentation)).1 ->
  below 60 (getEffectiveLevelWeight (VStr namespace) (st w)) = false
  /\ (first_match (sampleRules (st w)) namespace = None ->
      isNamespaceEnabled (VStr namespace) (st w) = true ->
      exists record w',
        emit h "error" namespace args w = (Ok (Some record), w')
        /\ rec_level record = "error"
        /\ buffer (st w') = buffer (addToBuffer (trimmed record) (st w))).
Proof.
  intros Hst.
  assert (Hbelow : below 60 (getEffectiveLevelWeight (VStr namespace) (st w))
                   = false).
  { rewrite Hst. apply coherent_threshold, run_level_ops_coherent.
    exact default_state_coherent. }
  split; [exact Hbelow |].
  intros Hrate Hen. rewrite emit_run.
  unfold level_rejects. change (normal_level "error") with "error".
  change (LEVELS_own "error") with (Some 60). cbv beta iota.
  rewrite Hbelow, Hrate, Hen.
  unfold deliver. eexists _, _. split; [reflexivity |].
  split; reflexivity.
Qed.

End ErrorCalls.

(** X2, after [setLevel('error')] and
    [setNamespaceLevels({'db:*': 'warn'})]. *)
Lemma error_calls_pass_the_level_check_witness :
  let ops := [SetLevel "error"; SetNamespaceLevels (Some [("db:*", "warn")])] in
  let w := world_of (run_level_ops ops (default_state, default_presentation)).1 in
  st w = (run_level_ops ops (default_state, default_presentation)).1
  /\ below 60 (getEffectiveLevelWeight (VStr "db:pool") (st w)) = false.
Proof.
  intros ops w. split; [reflexivity |].
  exact (proj1 (error_calls_pass_the_level_check example_host ops "db:pool"
                  [] w eq_refl)).
Defined.

(** ** Sampling *)

Lemma Qlt_bool_true (a b : Q) : (a < b)%Q -> Qlt_bool a b = true.
Proof.
  intros Hlt. unfold Qlt_bool. destruct (Qle_bool b a) eqn:E; [| reflexivity].
  apply Qle_bool_iff in E. destruct (Qlt_not_le _ _ Hlt E).
Qed.

Lemma Qlt_bool_false (a b : Q) : (b <= a)%Q -> Qlt_bool a b = false.
Proof.
  intros Hle. unfold Qlt_bool. apply Qle_bool_iff in Hle. now rewrite Hle.
Qed.

Lemma sample_rule_value_range (rate : option Q) :
  (0 <= sample_rule_value rate /\ sample_rule_value rate <= 1)%Q.
Proof.
  unfold sample_rule_value. destruct rate as [n|]; [| split; discriminate].
  destruct (Qle_bool 0 n) eqn:E0; cbn [andb]; [| split; discriminate].
  destruct (Qle_bool n 1) eqn:E1; [| split; discriminate].
  split; now apply Qle_bool_iff.
Qed.

(** X3: [setSampling] stores probabilities only: for every map, the rule of
    a pattern holds the rate given when it is a number from 0 to 1, and 1
    when it is not a number, negative or above 1. *)
Theorem sampling_rates_are_probabilities
  (props : list (string * option Q)) (s : State) :
  exists s',
    setSampling (Some props) s = Ok s'
    /\ map rule_value (sampleRules s') = map (fun p => sample_rule_value p.2) props
    /\ Forall (fun r => 0 <= rule_value r /\ rule_value r <= 1)%Q (sampleRules s')
    /\ sample_rule_value None = 1%Q
    /\ (forall n, (n < 0)%Q \/ (1 < n)%Q -> sample_rule_value (Some n) = 1%Q)
    /\ (forall n, (0 <= n)%Q -> (n <= 1)%Q -> sample_rule_value (Some n) = n).
Proof.
  unfold setSampling, compilePatternMap. rewrite compile_rules_run.
  eexists. split; [reflexivity |]. cbn [sampleRules with_sampleRules].
  split; [| split; [| split; [reflexivity | split]]].
  - rewrite map_map. reflexivity.
  - apply List.Forall_forall. intros r Hr. apply in_map_iff in Hr.
    destruct Hr as (p & <- & _). apply sample_rule_value_range.
  - intros n [Hn|Hn]; unfold sample_rule_value.
    + destruct (Qle_bool 0 n) eqn:E; [| reflexivity].
      apply Qle_bool_iff in E. destruct (Qlt_not_le _ _ Hn E).
    + destruct (Qle_bool n 1) eqn:E; [| now rewrite andb_false_r].
      apply Qle_bool_iff in E. destruct (Qlt_not_le _ _ Hn E).
  - intros n H0 H1. unfold sample_rule_value.
    apply Qle_bool_iff in H0, H1. now rewrite H0, H1.
Qed.

Section Sampling.

Context (h : Host).

(** X4: With [Math.random()] answering in the interval from 0 to 1, 1
    excluded: a namespace under a rule of rate 0 never produces a record,
    and its calls leave the buffer, the console and the sinks alone; under
    a rule of rate 1 the sampling check always passes. *)
Theorem sampling_at_the_extremes (levelName namespace : string) (rate : Q)
  (args : list value) (w : World) :
  (forall n, 0 <= random h n /\ random h n < 1)%Q ->
  first_match (sampleRules (st w)) namespace = Some rate ->
  ((rate == 0)%Q ->
   exists w',
     emit h levelName namespace args w = (Ok None, w')
     /\ st w' = st w /\ events w' = events w)
  /\ ((rate == 1)%Q ->
      shouldPassSampling h (VStr namespace) w = (Ok true, draw w)).
Proof.
  intros Hrandom Hrule. split; intros Hrate.
  - rewrite emit_run, Hrule.
    destruct (level_rejects levelName namespace (st w)); [now exists w |].
    rewrite Qlt_bool_false; [now exists (draw w) |].
    rewrite Hrate. apply Hrandom.
  - rewrite shouldPassSampling_run, Hrule. rewrite Qlt_bool_true; [reflexivity |].
    rewrite Hrate. apply Hrandom.
Qed.

End Sampling.

(** X4, on the host whose draws are all one
    half, under the rule [{'db': 0}]. *)
Lemma sampling_at_the_extremes_witness :
  (forall n, 0 <= random example_host n /\ random example_host n < 1)%Q
  /\ first_match (sampleRules silenced_state) "db" = Some 0%Q
  /\ exists w',
       emit example_host "info" "db" [VStr "query"] (world_of silenced_state)
       = (Ok None, w')
       /\ st w' = silenced_state /\ events w' = [].
Proof.
  assert (Hrandom : (forall n, 0 <= random example_host n
                               /\ random example_host n < 1)%Q).
  { intros n. split; [discriminate | reflexivity]. }
  split; [exact Hrandom |]. split; [reflexivity |].
  exact (proj1 (sampling_at_the_extremes example_host "info" "db" 0%Q
                  [VStr "query"] (world_of silenced_state) Hrandom eq_refl)
           (Qeq_refl 0)).
Defined.

(** ** Pausing *)

Lemma filter_sink_events (r : LogRecord) (sinks : list nat) :
  List.filter is_sink_event (map (fun sink => ESink sink r) sinks)
  = map (fun sink => ESink sink r) sinks.
Proof.
  induction sinks as [|x rest IH]; [reflexivity |].
  cbn [map List.filter is_sink_event]. now rewrite IH.
Qed.

Section Pausing.

Context (h : Host).

(** X5: [pause()] silences the native console and nothing else: a call made
    while paused is accepted or rejected as it would be after [resume()],
    builds the same record, appends the same entry to the buffer and
    invokes the same sinks; only the call of the native console is left
    out. *)
Theorem pause_silences_the_console_only (levelName namespace : string)
  (args : list value) (w : World) :
  let quiet := emit h levelName namespace args (with_state (pause (st w)) w) in
  let loud := emit h levelName namespace args (with_state (resume (st w)) w) in
  quiet.1 = loud.1
  /\ buffer (st quiet.2) = buffer (st loud.2)
  /\ draws quiet.2 = draws loud.2
  /\ exists fresh,
       events loud.2 = events w ++ fresh
       /\ events quiet.2 = events w ++ List.filter is_sink_event fresh.
Proof.
  cbn zeta. rewrite !emit_run. destruct w as [s d t e].
  cbn [st with_state draws ticks events].
  change (level_rejects levelName namespace (pause s))
    with (level_rejects levelName namespace s).
  change (level_rejects levelName namespace (resume s))
    with (level_rejects levelName namespace s).
  change (sampleRules (pause s)) with (sampleRules s).
  change (sampleRules (resume s)) with (sampleRules s).
  change (isNamespaceEnabled (VStr namespace) (pause s))
    with (isNamespaceEnabled (VStr namespace) s).
  change (isNamespaceEnabled (VStr namespace) (resume s))
    with (isNamespaceEnabled (VStr namespace) s).
  assert (Hnil : exists fresh : list event,
             e = e ++ fresh /\ e = e ++ List.filter is_sink_event fresh).
  { exists []. cbn. now rewrite app_nil_r. }
  assert (Hdeliver : forall w0 : World,
             events w0 = e ->
             let q := deliver h (normal_level levelName) namespace args
                        (with_state (pause s) w0) in
             let l := deliver h (normal_level levelName) namespace args
                        (with_state (resume s) w0) in
             q.1 = l.1 /\ buffer (st q.2) = buffer (st l.2)
             /\ draws q.2 = draws l.2
             /\ exists fresh,
                  events l.2 = e ++ fresh
                  /\ events q.2 = e ++ List.filter is_sink_event fresh).
  { intros w0 <-. unfold deliver. rewrite !addToBuffer_evict.
    cbn [fst snd st with_state add_events tick draws ticks events paused pause
         resume with_paused config_printToNative transports negb andb
         buffer with_buffer].
    split; [reflexivity |]. split; [reflexivity |]. split; [reflexivity |].
    eexists. split; [reflexivity |].
    destruct (config_printToNative s); cbn [app List.filter is_sink_event];
      now rewrite filter_sink_events. }
  destruct (level_rejects levelName namespace s).
  { cbn [fst snd st draws events]. repeat split; exact Hnil. }
  destruct (first_match (sampleRules s) namespace) as [rate|].
  - destruct (Qlt_bool (random h d) rate).
    + destruct (isNamespaceEnabled (VStr namespace) s).
      * specialize (Hdeliver
          {| st := s; draws := S d; ticks := t; events := e |} eq_refl).
        cbn zeta in Hdeliver. unfold draw. cbn [st draws ticks events].
        unfold with_state in Hdeliver. cbn [st draws ticks events] in Hdeliver.
        destruct (deliver _ _ _ _ _) as [r1 w1], (deliver _ _ _ _ _) as [r2 w2].
        cbn [fst snd] in *. destruct Hdeliver as (-> & Hb & Hd & Hf).
        repeat split; assumption.
      * cbn [fst snd st draws events draw]. repeat split; exact Hnil.
    + cbn [fst snd st draws events draw]. repeat split; exact Hnil.
  - destruct (isNamespaceEnabled (VStr namespace) s).
    + specialize (Hdeliver
        {| st := s; draws := d; ticks := t; events := e |} eq_refl).
      cbn zeta in Hdeliver.
      unfold with_state in Hdeliver. cbn [st draws ticks events] in Hdeliver.
      destruct (deliver _ _ _ _ _) as [r1 w1], (deliver _ _ _ _ _) as [r2 w2].
      cbn [fst snd] in *. destruct Hdeliver as (-> & Hb & Hd & Hf).
      repeat split; assumption.
    + cbn [fst snd st draws events]. repeat split; exact Hnil.
Qed.

End Pausing.

(** ** The preview *)

Section Preview.

Context (h : Host).

Lemma preview_parts_run (args : list value) :
  forall out,
    (String.length (join " " out) <= 300)%nat ->
    exists k,
      (k <= length args)%nat
      /\ preview_parts h args out = out ++ map (stringifyForPreview h) (take k args)
      /\ ((k < length args)%nat ->
          (300 < String.length (join " " (preview_parts h args out)))%nat)
      /\ (forall j, (j < k)%nat ->
             (String.length
                (join " " (out ++ map (stringifyForPreview h) (take j args)))
              <= 300)%nat).
Proof.
  induction args as [|a rest IH]; intros out Hout.
  - exists 0%nat. cbn. rewrite app_nil_r. repeat split; lia.
  - cbn [preview_parts].
    destruct (300 <? String.length (join " " (out ++ [stringifyForPreview h a])))%nat
      eqn:E.
    + exists 1%nat. cbn [length take map]. rewrite take_0. cbn [map].
      split; [lia |]. split; [reflexivity |].
      split; [intros _; now apply Nat.ltb_lt in E |].
      intros j Hj. assert (j = 0%nat) as -> by lia.
      cbn [take map]. now rewrite app_nil_r.
    + apply Nat.ltb_ge in E.
      destruct (IH (out ++ [stringifyForPreview h a]) E) as (k & Hk & Heq & Hover & Hunder).
      exists (S k). cbn [length take map].
      split; [lia |].
      split; [rewrite Heq, <- app_assoc; reflexivity |].
      split; [intros Hlt; apply Hover; lia |].
      intros [|j] Hj.
      * cbn [take map]. now rewrite app_nil_r.
      * cbn [take map]. specialize (Hunder j ltac:(lia)).
        now rewrite <- app_assoc in Hunder.
Qed.

(** X6: [buildPreview] renders the arguments in order, joined by spaces, and
    stops after the first argument that takes the text over 300
    characters: the preview is the rendering of the first [k] arguments,
    before the last of which the text was within 300 characters, and when
    arguments are left out the preview is longer than 300 characters (it
    is not cut).  So a text within 300 characters shows every argument. *)
Theorem preview_stops_after_300_characters (args : list value) :
  exists k,
    (k <= length args)%nat
    /\ buildPreview h args
       = join " " (map (stringifyForPreview h) (take k args))
    /\ ((k < length args)%nat ->
        (300 < String.length (buildPreview h args))%nat)
    /\ (forall j, (j < k)%nat ->
           (String.length (join " " (map (stringifyForPreview h) (take j args)))
            <= 300)%nat)
    /\ ((String.length (join " " (map (stringifyForPreview h) args)) <= 300)%nat ->
        buildPreview h args = join " " (map (stringifyForPreview h) args)).
Proof.
  destruct (preview_parts_run args [] ltac:(cbn; lia))
    as (k & Hk & Heq & Hover & Hunder).
  cbn [app] in *. exists k. unfold buildPreview.
  split; [exact Hk |]. split; [now rewrite Heq |].
  split; [exact Hover |]. split; [exact Hunder |].
  intros Hall. rewrite Heq.
  destruct (Nat.eq_dec k (length args)) as [->|Hne].
  - now rewrite firstn_all.
  - specialize (Hover ltac:(lia)). rewrite Heq in Hover.
    (* the text of a prefix of the arguments is no longer than the whole *)
    exfalso. revert Hover Hall. clear. revert k.
    assert (Hmono : forall (parts more : list string),
               (String.length (join " " parts)
                <= String.length (join " " (parts ++ more)))%nat).
    { induction parts as [|p [|q parts] IH]; intros more.
      - cbn. lia.
      - destruct more as [|m more]; cbn [app join]; [lia |].
        rewrite !length_append. lia.
      - specialize (IH more). cbn [app join] in *.
        rewrite !length_append in *. lia. }
    intros k Hover Hall.
    pose proof (Hmono (map (stringifyForPreview h) (take k args))
                  (map (stringifyForPreview h) (drop k args))) as Hm.
    rewrite <- map_app, take_drop in Hm. lia.
Qed.

End Preview.

(** ** Dedup keys across loggers *)

Section Once.

Context (h : Host).

Lemma logger_once_marks (lg : Logger) (key : value) (rest : list value)
  (ks : string) (w : World) :
  to_string h key = Ok ks ->
  lg_ns lg +:+ "|" +:+ ks ∈ onceKeys (st (logger_once h lg (key :: rest) w).2).
Proof.
  intros Hkey. rewrite logger_once_run, Hkey. cbn zeta.
  destruct (bool_decide _) eqn:E.
  - now apply bool_decide_eq_true in E.
  - rewrite emit_onceKeys. cbn. set_solver.
Qed.

(** X7: The marks of [once] belong to the module, not to a logger, and two
    pairs of namespace and key with the same text [ns + "|" + key] are one
    mark: after a [once] of one logger, a [once] of any logger whose
    composite key is the same text produces nothing and changes nothing.
    This is so for a logger and the one its [withContext] returns, and for
    the logger ['a'] with the key ['b|c'] and the logger ['a|b'] with the
    key ['c']. *)
Theorem once_marks_are_shared (lg1 lg2 : Logger) (key1 key2 : value)
  (rest1 rest2 : list value) (ks1 ks2 : string) (w : World) :
  to_string h key1 = Ok ks1 ->
  to_string h key2 = Ok ks2 ->
  lg_ns lg1 +:+ "|" +:+ ks1 = lg_ns lg2 +:+ "|" +:+ ks2 ->
  let first := logger_once h lg1 (key1 :: rest1) w in
  logger_once h lg2 (key2 :: rest2) first.2 = (Ok None, first.2)
  /\ (forall namespace : value,
         lg_ns (logger_withContext (createLogger namespace))
         = lg_ns (createLogger namespace))
  /\ (forall (x : ascii) (a b c : string),
         lg_ns (createLogger (VStr (String x a))) +:+ "|" +:+ (b +:+ "|" +:+ c)
         = lg_ns (createLogger (VStr (String x a +:+ "|" +:+ b))) +:+ "|" +:+ c).
Proof.
  intros Hk1 Hk2 Hsame first. split; [| split].
  - pose proof (logger_once_marks lg1 key1 rest1 ks1 w Hk1) as Hmark.
    fold first in Hmark. rewrite Hsame in Hmark.
    rewrite logger_once_run, Hk2. cbn zeta.
    now rewrite bool_decide_eq_true_2.
  - intros namespace. unfold logger_withContext, createLogger. cbn [lg_ns].
    destruct namespace; try reflexivity.
    cbn [namespace_or_global andb]. destruct s; reflexivity.
  - intros x a b c.
    cbn [createLogger lg_ns namespace_or_global andb Str.is_empty
         String.append].
    f_equal. now rewrite !append_assoc.
Qed.

End Once.

(** X7, on the logger ['a'] with the key ['b|c'] and
    the logger ['a|b'] with the key ['c']. *)
Lemma once_marks_are_shared_witness :
  let lg1 := createLogger (VStr "a") in
  let lg2 := createLogger (VStr "a|b") in
  let first :=
    logger_once example_host lg1 [VStr "b|c"; VStr "one"]
      (world_of default_state) in
  (to_string example_host (VStr "b|c") = Ok "b|c"
   /\ to_string example_host (VStr "c") = Ok "c"
   /\ lg_ns lg1 +:+ "|" +:+ "b|c" = lg_ns lg2 +:+ "|" +:+ "c")
  /\ logger_once example_host lg2 [VStr "c"; VStr "other"] first.2
     = (Ok None, first.2).
Proof.
  intros lg1 lg2 first. split; [repeat split |].
  exact (proj1 (once_marks_are_shared example_host lg1 lg2 (VStr "b|c")
                  (VStr "c") [VStr "one"] [VStr "other"] "b|c" "c"
                  (world_of default_state) eq_refl eq_refl eq_refl)).
Defined.

(** ** Counters and timers *)

Section Counters.

Context (h : Host).

Lemma label_key_default (label : value) :
  truthy h label = false -> label_key h label = Ok "default".
Proof. unfold label_key. now intros ->. Qed.

Lemma inherited_proto (k : string) :
  inherited k = false -> String.eqb k "__proto__" = false.
Proof.
  intros H. destruct (String.eqb_spec k "__proto__") as [-> |]; [| reflexivity].
  vm_compute in H. discriminate.
Qed.

Lemma own_lookup {V} (o : gmap string V) (k : string) :
  inherited k = false -> own o k = o !! k.
Proof. intros H. unfold own. now rewrite (inherited_proto k H). Qed.

Lemma assign_insert {V} (o : gmap string V) (k : string) (v : V) :
  inherited k = false -> assign k v o = <[k := v]> o.
Proof. intros H. unfold assign. now rewrite (inherited_proto k H). Qed.

(** A call of [count] under a name that is a map key: the counter goes
    up by one and the message tells its new value. *)
Lemma logger_count_run (lg : Logger) (label : value) (k : string) (w : World) :
  label_key h label = Ok k ->
  inherited k = false ->
  (forall t, lg_counters lg !! k <> Some (CountText t)) ->
  exists produced w',
    emit h "info" (lg_ns lg)
      [VStr ("count " +:+ k +:+ ": " +:+ Z_to_string (counted lg k + 1))] w
    = (Ok produced, w')
    /\ logger_count h lg label w
       = (Ok ({| lg_ns := lg_ns lg;
                 lg_counters := <[k := Count (counted lg k + 1)]> (lg_counters lg);
                 lg_timers := lg_timers lg |}, produced), w').
Proof.
  intros Hk Hmap Hnum.
  destruct (emit_returns_normally h "info" (lg_ns lg)
              [VStr ("count " +:+ k +:+ ": " +:+ Z_to_string (counted lg k + 1))]
              w)
    as (produced & w' & Hemit).
  exists produced, w'. split; [exact Hemit |].
  assert (Hnext : next_count h (lg_counters lg) k = Count (counted lg k + 1)).
  { unfold next_count, counted. rewrite (own_lookup _ _ Hmap), Hmap.
    destruct (lg_counters lg !! k) as [[n | t]|] eqn:E; try reflexivity.
    destruct (Hnum t eq_refl). }
  unfold logger_count, lift.
  unfold mbind at 1. unfold M_bind at 1. rewrite Hk.
  cbv zeta. rewrite Hnext, (assign_insert _ _ _ Hmap).
  unfold count_text. rewrite (own_lookup _ _ Hmap), lookup_insert_eq.
  cbn [counter_text].
  unfold mbind at 1. unfold M_bind at 1. rewrite Hemit. reflexivity.
Qed.

(** X8: [count] counts calls, not records: after [n] calls with a label, the
    counter of the label is [n] more than it was, whether the level, the
    sampling and the namespace gates let the messages through or not; the
    counters of the other labels are as they were; a falsy label ([count()]
    without one, [0], the empty string, [null]) is the label ['default'].
    This is so for the labels under which [counters] is a map: not the
    name of a member of [Object.prototype], under which [counters] answers
    the member and [+ 1] makes a text of it. *)
Theorem count_counts_calls (n : nat) (lg : Logger) (label : value)
  (k : string) (w : World) :
  label_key h label = Ok k ->
  inherited k = false ->
  (forall t, lg_counters lg !! k <> Some (CountText t)) ->
  (truthy h label = false -> k = "default")
  /\ exists lg' w',
       count_times h n lg label w = (Ok lg', w')
       /\ lg_ns lg' = lg_ns lg
       /\ counted lg' k = counted lg k + Z.of_nat n
       /\ (forall t, lg_counters lg' !! k <> Some (CountText t))
       /\ (forall k', k' <> k -> lg_counters lg' !! k' = lg_counters lg !! k').
Proof.
  intros Hk Hmap Hnum. split.
  { intros Hfalsy. rewrite (label_key_default label Hfalsy) in Hk.
    now injection Hk. }
  revert lg w Hnum. induction n as [|n IH]; intros lg w Hnum.
  - exists lg, w. cbn [count_times Z.of_nat]. repeat split; [lia | exact Hnum].
  - destruct (logger_count_run lg label k w Hk Hmap Hnum)
      as (produced & w1 & _ & Hrun).
    cbn [count_times]. rewrite Hrun.
    match goal with
    | |- context [count_times h n ?l label w1] =>
        destruct (IH l w1) as (lg' & w' & -> & Hns & Hcount & Hnum' & Hothers)
    end.
    { cbn [lg_counters]. intros t. now rewrite lookup_insert_eq. }
    exists lg', w'. cbn [lg_ns] in *.
    split; [reflexivity |]. split; [exact Hns |]. split; [| split].
    + rewrite Hcount. unfold counted at 1. cbn [lg_counters].
      rewrite lookup_insert_eq. lia.
    + exact Hnum'.
    + intros k' Hne. rewrite Hothers by exact Hne. cbn [lg_counters].
      now rewrite lookup_insert_ne by congruence.
Qed.

(** X9: [timeEnd] consumes the timer [time] started.  Without a timer of
    the label it emits nothing and reads no clock.  After [time(label)],
    [timeEnd(label)] hands [emit] one message at level ['info'], the text
    of the time elapsed between the two clock readings, and forgets the
    timer, so that a second [timeEnd(label)] emits nothing.  This is so
    for the labels under which [timers] is a map: not the name of a member
    of [Object.prototype], which [timeEnd] takes for a timer. *)
Theorem timeEnd_consumes_the_timer (lg : Logger) (label : value)
  (k : string) (w : World) :
  label_key h label = Ok k ->
  inherited k = false ->
  (lg_timers lg !! k = None ->
   logger_timeEnd h lg label w = (Ok (lg, None), w))
  /\ exists lg1,
       logger_time h lg label w = (Ok lg1, tick w)
       /\ lg_timers lg1 !! k = Some (monotonic h (ticks w))
       /\ exists lg2 produced w2,
            emit h "info" (lg_ns lg)
              [VStr ("Timer " +:+ k +:+ ": "
                     +:+ toFixed1 h (monotonic h (S (ticks w))
                                     - monotonic h (ticks w))%Q
                     +:+ "ms")] (tick (tick w))
            = (Ok produced, w2)
            /\ logger_timeEnd h lg1 label (tick w) = (Ok (lg2, produced), w2)
            /\ lg_timers lg2 !! k = None
            /\ logger_timeEnd h lg2 label w2 = (Ok (lg2, None), w2).
Proof.
  intros Hk Hmap.
  assert (Hsilent : forall (l : Logger) (w0 : World),
             lg_timers l !! k = None ->
             logger_timeEnd h l label w0 = (Ok (l, None), w0)).
  { intros l w0 Hnone. unfold logger_timeEnd, lift.
    unfold mbind at 1. unfold M_bind at 1.
    rewrite Hk, (own_lookup _ _ Hmap), Hnone, Hmap. reflexivity. }
  split; [apply Hsilent |].
  eexists. split.
  { unfold logger_time, lift. unfold mbind at 1. unfold M_bind at 1.
    rewrite Hk. reflexivity. }
  cbn [lg_timers]. rewrite (assign_insert _ _ _ Hmap).
  split; [now rewrite lookup_insert_eq |].
  match goal with
  | |- context [emit h "info" ?ns ?args ?w0] =>
      destruct (emit_returns_normally h "info" ns args w0)
        as (produced & w2 & Hemit)
  end.
  eexists _, produced, w2. split; [exact Hemit |]. split.
  { unfold logger_timeEnd, lift. unfold mbind at 1. unfold M_bind at 1.
    rewrite Hk. cbn [lg_timers].
    rewrite (own_lookup _ _ Hmap), lookup_insert_eq.
    unfold mbind at 1. unfold M_bind at 1. unfold nowMs at 1.
    change (ticks (tick w)) with (S (ticks w)).
    unfold mbind at 1. unfold M_bind at 1.
    cbn [lg_ns lg_counters lg_timers].
    unfold tick in Hemit. cbn [st draws ticks events] in Hemit.
    unfold tick. cbn [st draws ticks events].
    rewrite Hemit. reflexivity. }
  cbn [lg_timers]. split; [now rewrite lookup_delete_eq |].
  apply Hsilent. cbn [lg_timers]. now rewrite lookup_delete_eq.
Qed.

End Counters.

(** X8, on three calls of [count('hits')] after
    [setLevel('warn')], which lets none of the messages through. *)
Lemma count_counts_calls_witness :
  let w := world_of (setLevel "warn" default_state) in
  (label_key example_host (VStr "hits") = Ok "hits"
   /\ inherited "hits" = false
   /\ forall t, lg_counters db_logger !! "hits" <> Some (CountText t))
  /\ exists lg' w',
       count_times example_host 3 db_logger (VStr "hits") w = (Ok lg', w')
       /\ counted lg' "hits" = 3
       /\ buffer (st w') = [].
Proof.
  intros w.
  assert (Hnum : forall t, lg_counters db_logger !! "hits" <> Some (CountText t)).
  { intros t. cbn. now rewrite lookup_empty. }
  split; [split; [reflexivity | split; [reflexivity | exact Hnum]] |].
  destruct (proj2 (count_counts_calls example_host 3 db_logger (VStr "hits")
                     "hits" w eq_refl eq_refl Hnum))
    as (lg' & w' & Hrun & _ & Hcount & _).
  exists lg', w'. split; [exact Hrun |]. split; [exact Hcount |].
  revert Hrun. vm_compute. now intros [= _ <-].
Defined.

(** X9, on the label ['load']. *)
Lemma timeEnd_consumes_the_timer_witness :
  (label_key example_host (VStr "load") = Ok "load"
   /\ inherited "load" = false)
  /\ logger_timeEnd example_host db_logger (VStr "load") (world_of default_state)
     = (Ok (db_logger, None), world_of default_state).
Proof.
  split; [split; reflexivity |].
  exact (proj1 (timeEnd_consumes_the_timer example_host db_logger (VStr "load")
                  "load" (world_of default_state) eq_refl eq_refl) eq_refl).
Defined.

(** Under the name of a member of [Object.prototype] the two objects are
    no maps: [count('constructor')] appends [1] to the text of the
    inherited function, and [timeEnd('constructor')], without any
    [time], reads the clock and reports a duration that is not a
    number. *)
Example count_and_timeEnd_of_an_inherited_name :
  (exists lg' record w',
      logger_count example_host db_logger (VStr "constructor")
        (world_of default_state) = (Ok (lg', Some record), w')
      /\ rec_args record
         = [VStr "count constructor: function Object() { [native code] }1"])
  /\ (exists record w',
         logger_timeEnd example_host db_logger (VStr "constructor")
           (world_of default_state) = (Ok (db_logger, Some record), w')
         /\ rec_args record = [VStr "Timer constructor: NaNms"]
         /\ ticks w' = 2%nat).
Proof.
  split.
  - eexists _, _, _. split; [vm_compute; reflexivity | reflexivity].
  - eexists _, _. split; [vm_compute; reflexivity |]. split; reflexivity.
Qed.

(** ** Imports that store nothing *)

Section ImportFailures.

Context (h : Host).

Lemma json_elements_ind (P : JSON.json -> Prop) :
  P JSON.JNull ->
  (forall b, P (JSON.JBool b)) ->
  (forall lit, P (JSON.JNum lit)) ->
  (forall s, P (JSON.JStr s)) ->
  (forall elems, Forall P elems -> P (JSON.JArr elems)) ->
  (forall props, P (JSON.JObj props)) ->
  forall j, P j.
Proof.
  intros Hnull Hbool Hnum Hstr Harr Hobj.
  fix IH 1.
  intros [| b | lit | s | elems | props];
    [exact Hnull | apply Hbool | apply Hnum | apply Hstr | | apply Hobj].
  apply Harr. induction elems as [|e rest IHl]; constructor;
    [apply IH | exact IHl].
Qed.

Lemma json_to_string_throws (j : JSON.json) :
  forall m : string, json_to_string h j = Throw m -> m = "TypeError".
Proof.
  induction j as [| b | lit | s | elems Helems | props] using json_elements_ind;
    intros m; cbn [json_to_string]; try discriminate.
  - set (texts := fix texts (l : list JSON.json) : result (list string) :=
                    match l with
                    | [] => Ok []
                    | e :: rest =>
                        t ← (match e with
                             | JSON.JNull => Ok ""
                             | _ => json_to_string h e
                             end);
                        ts ← texts rest;
                        Ok (t :: ts)
                    end).
    assert (Hl : forall m', texts elems = Throw m' -> m' = "TypeError").
    { induction Helems as [|e rest He _ IHl]; intros m'; cbn [texts];
        [discriminate |].
      destruct (match e with JSON.JNull => Ok "" | _ => json_to_string h e end)
        as [t|m0] eqn:E.
      - cbn. destruct (texts rest) as [ts|m1]; cbn; [discriminate |].
        intros [= <-]. now apply IHl.
      - cbn. intros [= <-]. destruct e; try discriminate; exact (He _ E). }
    destruct (texts elems) as [parts|m0]; cbn; [discriminate |].
    intros [= <-]. now apply Hl.
  - destruct (JSON.lookup "toString" props); [| discriminate].
    now intros [= <-].
Qed.

Lemma import_entry_throws (e : JSON.json) (w w' : World) (m : string) :
  import_entry h e w = (Throw m, w') -> m = "TypeError".
Proof.
  rewrite import_entry_run.
  assert (Hc : forall now, coerce_entry h e now = Throw m -> m = "TypeError").
  { intros now. unfold coerce_entry, field_or.
    repeat match goal with
           | |- context [match ?o with Some j => _ | None => _ end] =>
               destruct o as [?j|]
           | |- context [if json_truthy h ?j then _ else _] =>
               destruct (json_truthy h j)
           | |- context [json_to_string h ?j] =>
               let E := fresh "E" in
               destruct (json_to_string h j) eqn:E;
               [| apply json_to_string_throws in E; subst ]
           end; cbn; congruence. }
  destruct e; try (destruct (time_given h _));
    intros H; pose proof (f_equal fst H) as Hr; cbn [fst] in Hr;
    first [now injection Hr as <- | now apply Hc in Hr].
Qed.

Lemma import_entries_null (arr : list JSON.json) :
  In JSON.JNull arr ->
  forall w, exists w',
    import_entries h arr w = (Throw "TypeError", w').
Proof.
  induction arr as [|e rest IH]; intros Hin w; [destruct Hin |].
  cbn [import_entries]. unfold mbind at 1. unfold M_bind at 1.
  destruct (import_entry h e w) as [[x|m] w0] eqn:E.
  - destruct Hin as [-> | Hin].
    + rewrite import_entry_run in E. discriminate.
    + unfold mbind at 1. unfold M_bind at 1.
      destruct (IH Hin w0) as (w' & ->). now exists w'.
  - apply import_entry_throws in E as ->. now exists w0.
Qed.

(** X10: [importBuffer] stores nothing in three cases.  It answers [false],
    and changes nothing, when its argument is not an array and its text is
    not the text of an array: the conversion to a string throws, the text
    does not parse, or it parses to something else (the text taken
    without [\u] escapes, which may stand for characters the strings of
    the model do not have).  It throws a [TypeError], the buffer left as
    it was, when an element of the array is [null]. *)
Theorem import_that_stores_nothing (data : import_data)
  (options : option import_options) (w : World) :
  (without_unicode_escape h data ->
   (forall arr, import_source h data <> Some (JSON.JArr arr)) ->
   importBuffer h data options w = (Ok false, w))
  /\ (forall arr,
         import_source h data = Some (JSON.JArr arr) ->
         In JSON.JNull arr ->
         exists w',
           importBuffer h data options w = (Throw "TypeError", w')
           /\ st w' = st w)
  /\ (forall text,
         no_unicode_escape text = true ->
         JSON.parse text = None ->
         importBuffer h (DataOther (VStr text)) options w = (Ok false, w))
  /\ (forall o m,
         obj_string o = Throw m ->
         importBuffer h (DataOther (VObj o)) options w = (Ok false, w)).
Proof.
  split; [| split; [| split]].
  - intros _ Hnot. rewrite importBuffer_run.
    destruct (import_source h data) as [[]|]; try reflexivity.
    destruct (Hnot _ eq_refl).
  - intros arr Hsrc Hnull. rewrite importBuffer_run, Hsrc.
    destruct (import_entries_null arr Hnull w) as (w' & Himp).
    rewrite Himp. exists w'. split; [reflexivity |].
    now destruct (import_entries_frame h arr w _ _ Himp).
  - intros text _ Hparse. rewrite importBuffer_run.
    cbn [import_source to_string]. now rewrite Hparse.
  - intros o m Hthrow. rewrite importBuffer_run.
    cbn [import_source to_string]. now rewrite Hthrow.
Qed.

End ImportFailures.

(** ** The exported text *)

Lemma entry_json_inj (a b : BufferedEntry) :
  entry_json a = entry_json b -> a = b.
Proof.
  destruct a, b. unfold entry_json. cbn [time level namespace preview].
  intros H. injection H as -> -> -> ->. reflexivity.
Qed.

Lemma map_entry_json_inj (l r : list BufferedEntry) :
  map entry_json l = map entry_json r -> l = r.
Proof.
  revert r. induction l as [|a l IH]; intros [|b r]; cbn [map];
    try discriminate; [reflexivity |].
  intros H.
  pose proof (f_equal (fun x => match x with y :: _ => y | [] => JSON.JNull end) H)
    as Hab.
  pose proof (f_equal (@tl _) H) as Hlr. cbv beta iota in Hab. cbn [tl] in Hlr.
  f_equal; [now apply entry_json_inj | now apply IH].
Qed.

(** X11: The text [exportBuffer] answers is JSON for every buffer, whatever
    characters the entries hold: [JSON.parse] reads it back as an array of
    one object per entry, in order, holding the four fields as they are.
    So two buffers with the same export hold the same entries. *)
Theorem export_reads_back (s : State) :
  JSON.parse (exportBuffer s) = Some (JSON.JArr (map entry_json (buffer s)))
  /\ (forall s2, exportBuffer s = exportBuffer s2 -> buffer s = buffer s2)
  /\ exportBuffer (clearBuffer s) = "[]".
Proof.
  split; [apply parse_exportBuffer |]. split; [| reflexivity].
  intros s2 Heq. apply map_entry_json_inj.
  pose proof (parse_exportBuffer s) as H1.
  pose proof (parse_exportBuffer s2) as H2.
  rewrite Heq, H2 in H1. now injection H1.
Qed.

(** ** Namespaces *)

Lemma wildcard_star_one_line (ns : string) :
  wildcard_matches "*" ns <-> one_line ns = true.
Proof.
  split.
  - intros H. inversion H as [| |run token ns' Hrun Hrest]; subst.
    + congruence.
    + inversion Hrest; subst.
      assert (Hnil : forall a : string, a +:+ "" = a).
      { induction a as [|x a IH]; cbn; [reflexivity | now rewrite IH]. }
      now rewrite Hnil.
  - intros H.
    assert (Hnil : forall a : string, a +:+ "" = a).
    { induction a as [|x a IH]; cbn; [reflexivity | now rewrite IH]. }
    rewrite <- (Hnil ns). apply wildcard_matches_star; [exact H | constructor].
Qed.

(** X12: As the module is loaded, [isNamespaceEnabled] answers true, on a
    namespace made of code units below 256, exactly when the namespace
    holds no line feed and no carriage return, a namespace that is not a
    non-empty string counting as ['global']: the pattern [*] the module
    starts with does not reach across a line terminator.  (Beyond those
    code units the line terminators are two more, U+2028 and U+2029.) *)
Theorem default_namespaces (namespace : value) :
  isNamespaceEnabled namespace default_state
  = one_line (gated_namespace namespace).
Proof.
  unfold isNamespaceEnabled.
  change (namespace_or_global true namespace) with (gated_namespace namespace).
  cbn [excludePatterns includePatterns default_state existsb orb].
  set (ns := gated_namespace namespace). clearbody ns.
  pose proof (test_createWildcardRegex "*" ns) as Htest.
  cbn [translate translate_char Ascii.eqb Bool.eqb app] in Htest.
  rewrite wildcard_star_one_line in Htest.
  destruct (RegExp.test _ ns), (one_line ns); try reflexivity.
  - now destruct (proj1 Htest eq_refl).
  - now destruct (proj2 Htest eq_refl).
Qed.

(** X13: The specification [getConfig().namespaces] holds is one
    [enableNamespaces] takes back: whatever the argument of
    [enableNamespaces], a second call with the specification the first one
    stored changes nothing. *)
Theorem stored_namespaces_reenable (patternString : value) (s0 : State) :
  exists s,
    enableNamespaces patternString s0 = Ok s
    /\ enableNamespaces (VStr (config_namespaces s)) s = Ok s
    /\ config_namespaces s
       = match patternString with
         | VStr spec => if Str.is_empty (Str.trim spec) then "*" else spec
         | _ => "*"
         end.
Proof.
  assert (Hreset : enableNamespaces (VStr "*")
                     (with_namespaces "*" [compiled "*"] [] s0)
                   = Ok (with_namespaces "*" [compiled "*"] [] s0)).
  { reflexivity. }
  assert (Hblank : forall v,
             match v with
             | VStr spec => Str.is_empty (Str.trim spec) = true
             | _ => True
             end ->
             enableNamespaces v s0
             = Ok (with_namespaces "*" [compiled "*"] [] s0)).
  { intros v Hv. unfold enableNamespaces. destruct v; try reflexivity.
    now rewrite Hv. }
  destruct patternString as [| | | | |spec| | |];
    try (eexists; split; [now apply Hblank | split; [exact Hreset | reflexivity]]).
  destruct (Str.is_empty (Str.trim spec)) eqn:E.
  { eexists. split; [now apply Hblank |]. split; [exact Hreset | reflexivity]. }
  set (tokens :=
         split_tokens
           (List.filter (fun t => negb (Str.is_empty t))
              (Str.split_comma (Str.replace_space_runs spec)))).
  set (inc := match tokens.1 with
              | [] => [compiled "*"]
              | _ => map compiled tokens.1
              end).
  assert (Hrun : forall s1,
             enableNamespaces (VStr spec) s1
             = Ok (with_namespaces spec inc (map compiled tokens.2) s1)).
  { intros s1. unfold enableNamespaces. rewrite E, compile_tokens_run.
    cbn -[split_tokens Str.split_comma Str.replace_space_runs
          createWildcardRegex].
    rewrite createWildcardRegex_ok. fold tokens. subst inc.
    destruct tokens.1; reflexivity. }
  exists (with_namespaces spec inc (map compiled tokens.2) s0).
  split; [apply Hrun |]. split; [| reflexivity].
  cbn [config_namespaces with_namespaces]. rewrite Hrun. reflexivity.
Qed.

(** ** Rules are tried in order *)

Lemma first_match_decides {A V} (before after : list (string * A))
  (pattern : string) (a : A) (transform : A -> V) (ns : string) :
  (forall p, In p before -> ~ wildcard_matches p.1 ns) ->
  wildcard_matches pattern ns ->
  first_match
    (map (fun p => {| re := compiled p.1; rule_value := transform p.2 |})
       (before ++ (pattern, a) :: after))
    ns = Some (transform a).
Proof.
  induction before as [|p rest IH]; intros Hnone Hmatch.
  - cbn [app map first_match re rule_value fst snd].
    apply test_createWildcardRegex in Hmatch. unfold compiled.
    now rewrite Hmatch.
  - cbn [app map first_match re rule_value].
    destruct (RegExp.test (compiled p.1) ns) eqn:E.
    + apply test_createWildcardRegex in E.
      destruct (Hnone p (or_introl eq_refl) E).
    + apply IH; [| exact Hmatch]. intros q Hq. apply Hnone. now right.
Qed.

(** X14: The rules of [setNamespaceLevels] and of [setSampling] are tried in
    the order of the properties of the map, and the first whose pattern
    matches the namespace decides alone, whatever the patterns after it:
    the threshold of the namespace is the weight of its level, the rate
    the one given with it.  When no pattern matches, and after a call with
    an argument that is not an object, the threshold is the global one and
    no sampling applies. *)
Theorem first_matching_rule_decides (s : State) (ns : string) :
  (forall before after pattern levelName,
      (forall p : string * string, In p before -> ~ wildcard_matches p.1 ns) ->
      wildcard_matches pattern ns ->
      exists s',
        setNamespaceLevels (Some (before ++ (pattern, levelName) :: after)) s
        = Ok s'
        /\ getEffectiveLevelWeight (VStr ns) s' = level_rule_value levelName)
  /\ (forall before after pattern rate,
         (forall p : string * option Q,
             In p before -> ~ wildcard_matches p.1 ns) ->
         wildcard_matches pattern ns ->
         exists s',
           setSampling (Some (before ++ (pattern, rate) :: after)) s = Ok s'
           /\ first_match (sampleRules s') ns = Some (sample_rule_value rate))
  /\ (forall props : list (string * string),
         (forall p, In p props -> ~ wildcard_matches p.1 ns) ->
         exists s',
           setNamespaceLevels (Some props) s = Ok s'
           /\ getEffectiveLevelWeight (VStr ns) s' = Weight (levelWeight s))
  /\ (exists s',
         setNamespaceLevels None s = Ok s'
         /\ getEffectiveLevelWeight (VStr ns) s' = Weight (levelWeight s))
  /\ (exists s',
         setSampling None s = Ok s'
         /\ first_match (sampleRules s') ns = None).
Proof.
  split; [| split; [| split; [| split]]].
  - intros before after pattern levelName Hnone Hmatch.
    unfold setNamespaceLevels, compilePatternMap. rewrite compile_rules_run.
    eexists. split; [reflexivity |].
    unfold getEffectiveLevelWeight.
    cbn [namespace_or_global nsLevelRules with_nsLevelRules andb].
    now rewrite (first_match_decides before after pattern levelName
                   level_rule_value ns Hnone Hmatch).
  - intros before after pattern rate Hnone Hmatch.
    unfold setSampling, compilePatternMap. rewrite compile_rules_run.
    eexists. split; [reflexivity |].
    cbn [sampleRules with_sampleRules].
    exact (first_match_decides before after pattern rate sample_rule_value ns
             Hnone Hmatch).
  - intros props Hnone.
    unfold setNamespaceLevels, compilePatternMap. rewrite compile_rules_run.
    eexists. split; [reflexivity |].
    unfold getEffectiveLevelWeight.
    cbn [namespace_or_global nsLevelRules with_nsLevelRules andb].
    now rewrite (first_match_compiled props level_rule_value ns Hnone).
  - eexists. split; reflexivity.
  - eexists. split; reflexivity.
Qed.

(** ** The capacity given to [updateConfig] *)

Lemma to_int32_small (n : Z) :
  -2147483648 <= n < 2147483648 -> to_int32 n = n.
Proof.
  intros Hn. unfold to_int32.
  rewrite Z.mod_small by lia. lia.
Qed.

Lemma updateConfig_bufferSize_run (n : number) (sp : State * Presentation) :
  updateConfig (Some (bufferSize_overrides n)) sp
  = Ok (if is_positive n then with_bufferSize (number_to_int32 n) sp.1 else sp.1,
        sp.2).
Proof.
  destruct sp as [s [c1 c2 c3 c4 c5 c6 c7]]. unfold updateConfig, applyOverrides.
  cbn [bufferSize_overrides ov_level ov_namespaces ov_enableColors ov_showTime
       ov_showNamespace ov_showIcons ov_bufferSize ov_overlay ov_overlayLimit
       ov_autoInstall ov_captureStack fst snd mbind result_bind default
       from_option id
       config_enableColors config_showTime config_showNamespace
       config_showIcons config_overlay config_overlayLimit config_autoInstall].
  reflexivity.
Qed.

Lemma addToBuffer_no_capacity (e : BufferedEntry) (s : State) :
  config_bufferSize s <= 0 -> buffer (addToBuffer e s) = [].
Proof.
  intros Hcap. rewrite addToBuffer_evict. cbn [buffer with_buffer].
  unfold evict. rewrite length_app. cbn [length].
  destruct (0 <? _) eqn:E; [| apply Z.ltb_ge in E; lia].
  apply drop_ge. rewrite length_app. cbn [length]. lia.
Qed.

(** X15: [updateConfig({bufferSize: n})] keeps the integer part of a positive
    [n] as a 32-bit integer, and leaves the buffer alone.  For [n] from 1
    up to 2147483647 the capacity is the integer part of [n]; the buffer
    may then hold more than the capacity until the next append, which cuts
    it to the last entries.  For [n] between 0 and 1, and for [Infinity],
    the capacity is 0, and from then on an append leaves the buffer empty.
    An [n] that is zero, negative or [NaN] changes nothing. *)
Theorem bufferSize_given_to_updateConfig (n : number)
  (sp : State * Presentation) :
  exists sp',
    updateConfig (Some (bufferSize_overrides n)) sp = Ok sp'
    /\ buffer sp'.1 = buffer sp.1
    /\ (forall q,
           n = Finite q -> (1 <= q)%Q -> (q < 2147483648)%Q ->
           config_bufferSize sp'.1 = Qfloor q
           /\ forall e,
                buffer (addToBuffer e sp'.1)
                = last_n (Z.to_nat (Qfloor q)) (buffer sp.1 ++ [e]))
    /\ ((n = PosInfinity \/ exists q, n = Finite q /\ (0 < q)%Q /\ (q < 1)%Q) ->
        config_bufferSize sp'.1 = 0
        /\ forall e, buffer (addToBuffer e sp'.1) = [])
    /\ ((n = NaN \/ n = NegInfinity \/ exists q, n = Finite q /\ (q <= 0)%Q) ->
        sp' = sp).
Proof.
  rewrite updateConfig_bufferSize_run. eexists. split; [reflexivity |].
  cbn [fst snd].
  split; [destruct (is_positive n); reflexivity |].
  split; [| split].
  - intros q -> H1 H2. cbn [is_positive number_to_int32].
    rewrite Qlt_bool_true by (eapply Qlt_le_trans; [| exact H1]; reflexivity).
    assert (Hpos : Qle_bool 0 q = true).
    { apply Qle_bool_iff. eapply Qle_trans; [| exact H1]. discriminate. }
    unfold truncate. rewrite Hpos.
    assert (Hlow : 1 <= Qfloor q).
    { change 1 with (Qfloor 1). now apply Qfloor_resp_le. }
    assert (Hhigh : Qfloor q < 2147483648).
    { apply Z.lt_nge. intros Hge.
      pose proof (Qfloor_le q) as Hfl.
      apply (Qlt_not_le _ _ H2). eapply Qle_trans; [| exact Hfl].
      change (inject_Z 2147483648 <= inject_Z (Qfloor q))%Q.
      rewrite <- Zle_Qle. lia. }
    rewrite to_int32_small by lia.
    split; [reflexivity |]. intros e.
    rewrite addToBuffer_evict. cbn [buffer with_buffer with_bufferSize
                                     config_bufferSize].
    apply evict_last_n. lia.
  - intros Hn.
    assert (Hzero : is_positive n = true /\ number_to_int32 n = 0).
    { destruct Hn as [-> | (q & -> & H0 & H1)]; [split; reflexivity |].
      cbn [is_positive number_to_int32]. split; [now apply Qlt_bool_true |].
      assert (Hpos : Qle_bool 0 q = true).
      { apply Qle_bool_iff. now apply Qlt_le_weak. }
      unfold truncate. rewrite Hpos.
      assert (Hfl : Qfloor q = 0).
      { pose proof (Qfloor_le q) as Hle. pose proof (Qlt_floor q) as Hlt.
        assert (0 <= Qfloor q).
        { change 0 with (Qfloor 0). apply Qfloor_resp_le. now apply Qlt_le_weak. }
        assert (Qfloor q < 1).
        { apply Z.lt_nge. intros Hge. apply (Qlt_not_le _ _ H1).
          eapply Qle_trans; [| exact Hle].
          change (inject_Z 1 <= inject_Z (Qfloor q))%Q.
          rewrite <- Zle_Qle. lia. }
        lia. }
      now rewrite Hfl. }
    destruct Hzero as [-> ->].
    split; [reflexivity |]. intros e. now apply addToBuffer_no_capacity.
  - intros Hn.
    assert (Hneg : is_positive n = false).
    { destruct Hn as [-> | [-> | (q & -> & Hq)]]; try reflexivity.
      cbn [is_positive]. now apply Qlt_bool_false. }
    rewrite Hneg. now destruct sp.
Qed.

(** ** The clock text *)

Lemma below_bound (P : Z -> bool) (bound : nat) :
  forallb (fun k => P (Z.of_nat k)) (seq 0 bound) = true ->
  forall n, 0 <= n < Z.of_nat bound -> P n = true.
Proof.
  intros Hall n Hn. rewrite forallb_forall in Hall.
  specialize (Hall (Z.to_nat n)). rewrite Z2Nat.id in Hall by lia.
  apply Hall, in_seq. lia.
Qed.

Lemma pad2_digits (n : Z) :
  0 <= n < 100 ->
  exists a b,
    pad2 n = String a (String b "")
    /\ JSON.is_digit a = true /\ JSON.is_digit b = true
    /\ 10 * digit_value a + digit_value b = n.
Proof.
  intros Hn.
  pose proof (below_bound
    (fun n => match pad2 n with
              | String a (String b "") =>
                  JSON.is_digit a && JSON.is_digit b
                  && (10 * digit_value a + digit_value b =? n)
              | _ => false
              end) 100 ltac:(vm_compute; reflexivity) n Hn) as Hcheck.
  cbv beta in Hcheck.
  destruct (pad2 n) as [|a [|b [|]]]; try discriminate.
  apply andb_prop in Hcheck. destruct Hcheck as [Hd Hv].
  apply andb_prop in Hd. destruct Hd as [Ha Hb].
  exists a, b. repeat split; try assumption. now apply Z.eqb_eq.
Qed.

Lemma pad3_digits (n : Z) :
  0 <= n < 1000 ->
  exists a b c,
    pad3 n = String a (String b (String c ""))
    /\ JSON.is_digit a = true /\ JSON.is_digit b = true
    /\ JSON.is_digit c = true
    /\ 100 * digit_value a + 10 * digit_value b + digit_value c = n.
Proof.
  intros Hn.
  pose proof (below_bound
    (fun n => match pad3 n with
              | String a (String b (String c "")) =>
                  JSON.is_digit a && JSON.is_digit b && JSON.is_digit c
                  && (100 * digit_value a + 10 * digit_value b + digit_value c
                      =? n)
              | _ => false
              end) 1000 ltac:(vm_compute; reflexivity) n Hn) as Hcheck.
  cbv beta in Hcheck.
  destruct (pad3 n) as [|a [|b [|c [|]]]]; try discriminate.
  apply andb_prop in Hcheck. destruct Hcheck as [Hd Hv].
  apply andb_prop in Hd. destruct Hd as [Hd Hc].
  apply andb_prop in Hd. destruct Hd as [Ha Hb].
  exists a, b, c. repeat split; try assumption. now apply Z.eqb_eq.
Qed.

(** X16: For a time of day within its ranges, [formatTime] answers a text of
    twelve characters of the form [HH:MM:SS.mmm], every field padded with
    zeros to its width, and the text tells the time: two times of day with
    the same text are the same. *)
Theorem formatTime_is_fixed_width (d : Date) :
  in_day d ->
  shaped "dd:dd:dd.ddd" (formatTime d) = true
  /\ String.length (formatTime d) = 12%nat
  /\ (forall d2, in_day d2 -> formatTime d2 = formatTime d -> d2 = d).
Proof.
  assert (Hform : forall d0, in_day d0 ->
             exists h1 h2 m1 m2 s1 s2 x1 x2 x3,
               formatTime d0
               = String h1 (String h2 (String ":" (String m1 (String m2
                   (String ":" (String s1 (String s2 (String "."
                      (String x1 (String x2 (String x3 "")))))))))))
               /\ forallb JSON.is_digit [h1; h2; m1; m2; s1; s2; x1; x2; x3]
                  = true
               /\ getHours d0 = 10 * digit_value h1 + digit_value h2
               /\ getMinutes d0 = 10 * digit_value m1 + digit_value m2
               /\ getSeconds d0 = 10 * digit_value s1 + digit_value s2
               /\ getMilliseconds d0
                  = 100 * digit_value x1 + 10 * digit_value x2 + digit_value x3).
  { intros d0 (Hh & Hm & Hs & Hx).
    destruct (pad2_digits (getHours d0) ltac:(lia))
      as (h1 & h2 & Eh & Dh1 & Dh2 & Vh).
    destruct (pad2_digits (getMinutes d0) ltac:(lia))
      as (m1 & m2 & Em & Dm1 & Dm2 & Vm).
    destruct (pad2_digits (getSeconds d0) ltac:(lia))
      as (s1 & s2 & Es & Ds1 & Ds2 & Vs).
    destruct (pad3_digits _ Hx) as (x1 & x2 & x3 & Ex & Dx1 & Dx2 & Dx3 & Vx).
    exists h1, h2, m1, m2, s1, s2, x1, x2, x3.
    unfold formatTime. rewrite Eh, Em, Es, Ex. cbn [forallb].
    rewrite Dh1, Dh2, Dm1, Dm2, Ds1, Ds2, Dx1, Dx2, Dx3.
    repeat split; try reflexivity; symmetry; assumption. }
  intros Hd. destruct (Hform d Hd)
    as (h1 & h2 & m1 & m2 & s1 & s2 & x1 & x2 & x3 & Etext & Hdigits & Vh & Vm
        & Vs & Vx).
  split; [| split].
  - rewrite Etext. cbn [shaped Ascii.eqb Bool.eqb]. cbn [forallb] in Hdigits.
    do 9 (apply andb_prop in Hdigits; destruct Hdigits as [? Hdigits]).
    repeat match goal with H : JSON.is_digit _ = true |- _ => rewrite H; clear H end.
    reflexivity.
  - now rewrite Etext.
  - intros d2 Hd2 Hsame. destruct (Hform d2 Hd2)
      as (a1 & a2 & b1 & b2 & c1 & c2 & y1 & y2 & y3 & Etext2 & _ & Wh & Wm
          & Ws & Wx).
    rewrite Etext, Etext2 in Hsame.
    injection Hsame as -> -> -> -> -> -> -> -> ->.
    destruct d, d2. cbn [getHours getMinutes getSeconds getMilliseconds] in *.
    congruence.
Qed.

(** X16, at five past nine and 7 milliseconds. *)
Lemma formatTime_is_fixed_width_witness :
  let d := {| getHours := 9; getMinutes := 5; getSeconds := 0;
              getMilliseconds := 7 |} in
  in_day d /\ formatTime d = "09:05:00.007"
  /\ shaped "dd:dd:dd.ddd" (formatTime d) = true.
Proof.
  intros d.
  assert (Hd : in_day d) by (unfold in_day, d; cbn; lia).
  split; [exact Hd |]. split; [reflexivity |].
  exact (proj1 (formatTime_is_fixed_width d Hd)).
Defined.

(** ** The text escaping of the viewer *)

Lemma escape_entity_safe (c : ascii) (rest : string) :
  Str.all (fun x => negb (Str.mem x markup_characters)) rest = true ->
  entities_only rest = true ->
  Str.all (fun x => negb (Str.mem x markup_characters))
    (escape_entity c +:+ rest) = true
  /\ entities_only (escape_entity c +:+ rest) = true.
Proof.
  intros Hall Hent.
  set (p := fun x => negb (Str.mem x markup_characters)) in *.
  destruct c as [[] [] [] [] [] [] [] []];
    cbn [escape_entity Ascii.eqb Bool.eqb String.append Str.all entities_only
         begins_with andb orb];
    rewrite ?Hall, ?Hent; split; reflexivity.
Qed.

Lemma escape_entity_plain (c : ascii) :
  Str.mem c escaped_characters = false -> escape_entity c = String c "".
Proof.
  destruct c as [[] [] [] [] [] [] [] []]; cbn; intros H;
    first [reflexivity | discriminate H].
Qed.

Section ViewerProperties.

Context (h : Host).

(** X17: The text [escapeHtml] answers holds no [<], no [>], no double quote
    and no apostrophe, and each of its ampersands begins one of the
    entities [&amp;], [&lt;], [&gt], [&quot;] and [&#39;]; a text without
    any of the five characters is answered as it is.  When the conversion
    of the argument to a string throws, [escapeHtml] throws. *)
Theorem escapeHtml_leaves_no_markup (s : value) :
  match to_string h s with
  | Ok text =>
      exists out,
        escapeHtml h s = Ok out
        /\ Str.all (fun c => negb (Str.mem c markup_characters)) out = true
        /\ entities_only out = true
        /\ (Str.all (fun c => negb (Str.mem c escaped_characters)) text = true ->
            out = text)
  | Throw m => escapeHtml h s = Throw m
  end.
Proof.
  unfold escapeHtml. destruct (to_string h s) as [text|m]; [| reflexivity].
  eexists. split; [reflexivity |].
  induction text as [|c text (Hall & Hent & Hplain)];
    [repeat split; reflexivity |].
  cbn [Str.flat_map].
  destruct (escape_entity_safe c _ Hall Hent) as [Hall' Hent'].
  split; [exact Hall' |]. split; [exact Hent' |].
  cbn [Str.all]. intros Hclean. apply andb_prop in Hclean.
  destruct Hclean as [Hc Hrest]. apply negb_true_iff in Hc.
  rewrite (escape_entity_plain c Hc), (Hplain Hrest). reflexivity.
Qed.

End ViewerProperties.

(** ** Installation over the console *)

Lemma applyOverrides_total (overrides : option Overrides)
  (sp : State * Presentation) :
  exists sp', applyOverrides overrides sp = Ok sp'.
Proof.
  destruct overrides as [o|]; [| now exists sp].
  unfold applyOverrides.
  set (s1 := match ov_level o with Some name => _ | None => sp.1 end).
  clearbody s1.
  destruct (ov_namespaces o) as [spec|].
  - destruct (enableNamespaces_frame (VStr spec) s1) as (a & inc & exc & ->).
    cbn [mbind result_bind]. eauto.
  - cbn [mbind result_bind]. eauto.
Qed.

Lemma assign_all_lookup (props : list (string * member)) :
  forall (o : gmap string member) (k : string),
    assign_all props o !! k
    = match last_assigned k props with
      | Some v => Some v
      | None => o !! k
      end.
Proof.
  unfold assign_all.
  induction props as [|[k' v] rest IH]; intros o k; [reflexivity |].
  cbn [fold_left last_assigned fst snd]. rewrite IH.
  destruct (last_assigned k rest); [reflexivity |].
  destruct (String.eqb k' k) eqn:E.
  - apply String.eqb_eq in E. subst. apply lookup_insert_eq.
  - apply String.eqb_neq in E. now apply lookup_insert_ne.
Qed.

Lemma captured_lookup (c : gmap string member) (methods : list string) :
  forall (o : gmap string member) (k : string),
    fold_left (fun acc m => <[m := capture c m]> acc) methods o !! k
    = if existsb (String.eqb k) methods then Some (capture c k) else o !! k.
Proof.
  induction methods as [|m rest IH]; intros o k; [reflexivity |].
  cbn [fold_left existsb]. rewrite IH.
  destruct (existsb (String.eqb k) rest); [now rewrite orb_true_r |].
  rewrite orb_false_r. destruct (String.eqb k m) eqn:E.
  - apply String.eqb_eq in E. subst. apply lookup_insert_eq.
  - apply String.eqb_neq in E. apply lookup_insert_ne. congruence.
Qed.

Lemma existsb_eqb_In (k : string) (l : list string) :
  existsb (String.eqb k) l = true <-> In k l.
Proof.
  rewrite existsb_exists. split.
  - intros (x & Hx & E). apply String.eqb_eq in E. now subst.
  - intros H. exists k. split; [exact H | apply String.eqb_refl].
Qed.

Lemma restore_lookup (r : Runtime) (k : string) :
  installed r = true ->
  console (restore r) !! k
  = match original r !! k with
    | Some fn => Some fn
    | None => console r !! k
    end.
Proof.
  intros Hin. unfold restore. rewrite Hin. cbn [negb console].
  apply (map_fold_weak_ind
           (fun (res : gmap string member) (m : gmap string member) =>
              res !! k = match m !! k with
                         | Some fn => Some fn
                         | None => console r !! k
                         end)).
  - now rewrite lookup_empty.
  - intros i x m res Hnone IH.
    destruct (decide (i = k)) as [->|Hne].
    + now rewrite !lookup_insert_eq.
    + now rewrite !lookup_insert_ne by exact Hne.
Qed.

Lemma capture_not_wrapper (c : gmap string member) (m : string) :
  (forall k fn, c !! k = Some fn -> is_wrapper fn = false) ->
  is_wrapper (capture c m) = false.
Proof.
  intros Hc. unfold capture.
  destruct (is_function (c !! m)).
  - destruct (c !! m) eqn:E; [now apply (Hc m) | reflexivity].
  - destruct (is_function (c !! "log")); [| reflexivity].
    destruct (c !! "log") eqn:E; [now apply (Hc "log") | reflexivity].
Qed.

Lemma capture_function (c : gmap string member) (m : string) :
  is_function (c !! m) = true -> Some (capture c m) = c !! m.
Proof.
  intros Hf. unfold capture. rewrite Hf.
  destruct (c !! m); [reflexivity | discriminate].
Qed.

Lemma install_run (config : option Overrides) (r : Runtime) :
  installed r = false ->
  exists sp,
    install config r
    = Ok {| rt_state := sp.1; rt_config := sp.2; installed := true;
            original :=
              fold_left (fun acc m => <[m := capture (console r) m]> acc)
                console_methods (original r);
            wrappers := assign_all created_wrappers (wrappers r);
            console :=
              assign_all
                (created_wrappers
                 ++ [("groupEnd", GroupEndPassthrough);
                     ("assert", AssertWrapper); ("table", TableWrapper)])
                (console r) |}.
Proof.
  intros Hout. unfold install. rewrite Hout.
  destruct (applyOverrides_total config (rt_state r, rt_config r)) as (sp & ->).
  now exists sp.
Qed.

Lemma install_restore_outcome (config : option Overrides) (r : Runtime) :
  installed r = false ->
  exists r1,
    install config r = Ok r1
    /\ installed r1 = true
    /\ (forall k fn, In (k, fn) created_wrappers -> console r1 !! k = Some fn)
    /\ (forall k, In k console_methods ->
                  original r1 !! k = Some (capture (console r) k))
    /\ installed (restore r1) = false
    /\ ((forall k, is_Some (original r !! k) -> In k console_methods) ->
        (forall k,
            console (restore r1) !! k
            = if existsb (String.eqb k) console_methods
              then Some (capture (console r) k)
              else console r !! k)
        /\ ((forall k, In k console_methods ->
                       is_function (console r !! k) = true) ->
            console (restore r1) = console r)).
Proof.
  intros Hout. destruct (install_run config r Hout) as (sp & Hrun).
  eexists. split; [exact Hrun |]. cbn [installed console original].
  split; [reflexivity |].
  split.
  { intros k fn Hin. rewrite assign_all_lookup.
    cbn [created_wrappers In] in Hin.
    repeat (destruct Hin as [[= <- <-] | Hin]; [reflexivity |]).
    destruct Hin. }
  split.
  { intros k Hk. rewrite captured_lookup.
    now rewrite (proj2 (existsb_eqb_In k console_methods) Hk). }
  split; [reflexivity |].
  intros Hdom.
  assert (Hlookup : forall k,
             console (restore
               {| rt_state := sp.1; rt_config := sp.2; installed := true;
                  original :=
                    fold_left (fun acc m => <[m := capture (console r) m]> acc)
                      console_methods (original r);
                  wrappers := assign_all created_wrappers (wrappers r);
                  console :=
                    assign_all
                      (created_wrappers
                       ++ [("groupEnd", GroupEndPassthrough);
                           ("assert", AssertWrapper); ("table", TableWrapper)])
                      (console r) |}) !! k
             = if existsb (String.eqb k) console_methods
               then Some (capture (console r) k)
               else console r !! k).
  { intros k. rewrite restore_lookup by reflexivity.
    cbn [original console]. rewrite captured_lookup.
    destruct (existsb (String.eqb k) console_methods) eqn:E; [reflexivity |].
    destruct (original r !! k) eqn:Eo.
    - assert (Hk : In k console_methods) by (apply Hdom; eauto).
      apply existsb_eqb_In in Hk. congruence.
    - rewrite assign_all_lookup.
      assert (Hnone : last_assigned k
                        (created_wrappers
                         ++ [("groupEnd", GroupEndPassthrough);
                             ("assert", AssertWrapper); ("table", TableWrapper)])
                      = None).
      { cbn [existsb console_methods] in E.
        cbn [created_wrappers app last_assigned].
        repeat (apply orb_false_elim in E; destruct E as [?E E]).
        repeat match goal with
               | H : String.eqb k ?m = false |- _ =>
                   rewrite String.eqb_sym in H; rewrite H; clear H
               end.
        reflexivity. }
      now rewrite Hnone. }
  split; [exact Hlookup |].
  intros Hall. apply map_eq. intros k. rewrite Hlookup.
  destruct (existsb (String.eqb k) console_methods) eqn:E; [| reflexivity].
  apply capture_function, Hall. now apply existsb_eqb_In.
Qed.

(** X18: [install] puts the wrappers in place of the eight logging methods
    of the console and keeps an original for each of the eleven methods it
    manages; [restore] gives the console back its originals.  A console
    that had the eleven methods is after [install] and [restore] as it was
    before.  A method the console did not have is not taken away again by
    [restore]: it is left bound to the console's [log], or to a function
    that does nothing when the console had no [log] either. *)
Theorem install_then_restore (config : option Overrides) (r : Runtime) :
  installed r = false ->
  exists r1,
    install config r = Ok r1
    /\ installed r1 = true
    /\ (forall k fn, In (k, fn) created_wrappers -> console r1 !! k = Some fn)
    /\ (forall k, In k console_methods ->
                  original r1 !! k = Some (capture (console r) k))
    /\ installed (restore r1) = false
    /\ ((forall k, is_Some (original r !! k) -> In k console_methods) ->
        (forall k,
            console (restore r1) !! k
            = if existsb (String.eqb k) console_methods
              then Some (capture (console r) k)
              else console r !! k)
        /\ ((forall k, In k console_methods ->
                       is_function (console r !! k) = true) ->
            console (restore r1) = console r)).
Proof. apply install_restore_outcome. Qed.

(** X18, on a console whose only method is [log]:
    after [install] and [restore] its [table] is that [log]. *)
Lemma install_then_restore_witness :
  installed (loaded log_only_console) = false
  /\ exists r1,
       install None (loaded log_only_console) = Ok r1
       /\ console r1 !! "log" = Some (ConsoleWrapper "log")
       /\ console (restore r1) !! "log" = log_only_console !! "log"
       /\ console (restore r1) !! "table" = log_only_console !! "log".
Proof.
  split; [reflexivity |].
  destruct (install_then_restore None (loaded log_only_console) eq_refl)
    as (r1 & Hrun & _ & Hwrapped & _ & _ & Hrestored).
  exists r1. split; [exact Hrun |].
  split; [apply Hwrapped; cbn; tauto |].
  destruct Hrestored as [Hlookup _].
  { intros k [fn Hfn]. cbn in Hfn. now rewrite lookup_empty in Hfn. }
  rewrite !Hlookup. split; reflexivity.
Defined.

Lemma install_sound (config : option Overrides) (r r' : Runtime) :
  installation_sound r -> install config r = Ok r' -> installation_sound r'.
Proof.
  intros Hr Hrun.
  destruct (installed r) eqn:Hin.
  { unfold install in Hrun. rewrite Hin in Hrun. injection Hrun as <-.
    exact Hr. }
  destruct Hr as (I1 & I2 & I3 & I4).
  assert (Hclean : forall k fn, console r !! k = Some fn -> is_wrapper fn = false).
  { intros k fn Hk. destruct (is_wrapper fn) eqn:E; [| reflexivity].
    destruct (I2 k fn Hk E) as [Hyes _]. congruence. }
  destruct (install_restore_outcome config r Hin)
    as (r1 & Hrun1 & Hin1 & Hwrapped & Horig & _).
  rewrite Hrun in Hrun1. injection Hrun1 as <-.
  destruct (install_run config r Hin) as (sp & Hrun2).
  rewrite Hrun in Hrun2.
  pose proof (f_equal (fun x => match x with Ok a => a | Throw _ => r end) Hrun2)
    as Hr'.
  cbv beta iota in Hr'. clear Hrun2.
  split; [| split; [| split]].
  - intros k fn Hk. rewrite Hr' in Hk. cbn [original] in Hk.
    rewrite captured_lookup in Hk.
    destruct (existsb (String.eqb k) console_methods).
    + injection Hk as <-. now apply capture_not_wrapper.
    + now apply (I1 k).
  - intros k fn Hk Hw. split; [exact Hin1 |].
    rewrite Hr' in Hk. cbn [console] in Hk. rewrite assign_all_lookup in Hk.
    destruct (existsb (String.eqb k) console_methods) eqn:E;
      [now apply existsb_eqb_In |].
    exfalso.
    cbn [existsb console_methods] in E.
    cbn [created_wrappers app last_assigned] in Hk.
    repeat (apply orb_false_elim in E; destruct E as [?E E]).
    repeat match goal with
           | H : String.eqb k ?m = false |- _ =>
               rewrite String.eqb_sym in H; rewrite H in Hk; clear H
           end.
    rewrite (Hclean k fn Hk) in Hw. discriminate.
  - intros _ k Hk. rewrite (Horig k Hk). eauto.
  - intros _. exact Hwrapped.
Qed.

Lemma restore_sound (r : Runtime) :
  installation_sound r -> installation_sound (restore r).
Proof.
  intros Hr.
  destruct (installed r) eqn:Hin;
    [| unfold restore; rewrite Hin; exact Hr].
  destruct Hr as (I1 & I2 & I3 & I4).
  assert (Hout : installed (restore r) = false).
  { unfold restore. now rewrite Hin. }
  assert (Horig : original (restore r) = original r).
  { unfold restore. now rewrite Hin. }
  split; [| split; [| split]].
  - intros k fn. rewrite Horig. apply I1.
  - intros k fn Hk Hw. exfalso. rewrite restore_lookup in Hk by exact Hin.
    destruct (original r !! k) eqn:Eo.
    + injection Hk as <-. rewrite (I1 k _ Eo) in Hw. discriminate.
    + destruct (I2 k fn Hk Hw) as [_ Hmethod].
      destruct (I3 Hin k Hmethod) as [x Hx]. congruence.
  - rewrite Hout. discriminate.
  - rewrite Hout. discriminate.
Qed.

Lemma run_install_ops_sound (ops : list install_op) :
  forall r, installation_sound r -> installation_sound (run_install_ops ops r).
Proof.
  induction ops as [|op rest IH]; intros r Hr; [exact Hr |].
  cbn [run_install_ops fold_left]. apply IH.
  destruct op as [config|]; cbn [run_install_op].
  - destruct (install config r) as [r'|] eqn:E; [| exact Hr].
    now apply (install_sound config r).
  - now apply restore_sound.
Qed.

(** X19: Whatever calls of [install] and [restore] are made, in whatever
    order, on the module loaded over a console of the host: no original
    the module prints through is ever one of its own wrappers; while
    installed the eight logging methods of the console are the wrappers;
    and once restored the console holds no wrapper at all. *)
Theorem originals_are_never_wrappers (ops : list install_op)
  (c : gmap string member) :
  (forall k fn, c !! k = Some fn -> is_wrapper fn = false) ->
  let r := run_install_ops ops (loaded c) in
  (forall k fn, original r !! k = Some fn -> is_wrapper fn = false)
  /\ (installed r = true ->
      forall k fn, In (k, fn) created_wrappers -> console r !! k = Some fn)
  /\ (installed r = false ->
      forall k fn, console r !! k = Some fn -> is_wrapper fn = false).
Proof.
  intros Hc r.
  assert (Hloaded : installation_sound (loaded c)).
  { split; [| split; [| split]]; cbn [loaded original console installed].
    - intros k fn Hk. now rewrite lookup_empty in Hk.
    - intros k fn Hk Hw. rewrite (Hc k fn Hk) in Hw. discriminate.
    - discriminate.
    - discriminate. }
  destruct (run_install_ops_sound ops (loaded c) Hloaded) as (I1 & I2 & I3 & I4).
  fold r in I1, I2, I3, I4.
  split; [exact I1 |]. split; [exact I4 |].
  intros Hout k fn Hk. destruct (is_wrapper fn) eqn:E; [| reflexivity].
  destruct (I2 k fn Hk E) as [Hyes _]. congruence.
Qed.

(** X19, on [install(); restore(); install()]
    over a console whose only method is [log]. *)
Lemma originals_are_never_wrappers_witness :
  let r := run_install_ops [Install None; Restore; Install None]
             (loaded log_only_console) in
  (forall k fn, log_only_console !! k = Some fn -> is_wrapper fn = false)
  /\ installed r = true
  /\ original r !! "log" = log_only_console !! "log"
  /\ console r !! "log" = Some (ConsoleWrapper "log").
Proof.
  intros r.
  assert (Hc : forall k fn,
             log_only_console !! k = Some fn -> is_wrapper fn = false).
  { intros k fn Hk. unfold log_only_console in Hk.
    apply lookup_singleton_Some in Hk. destruct Hk as [_ <-]. reflexivity. }
  split; [exact Hc |].
  destruct (originals_are_never_wrappers
              [Install None; Restore; Install None] log_only_console Hc)
    as (_ & Hwrapped & _).
  fold r in Hwrapped.
  assert (Hin : installed r = true) by reflexivity.
  split; [exact Hin |]. split; [| apply (Hwrapped Hin); cbn; tauto].
  subst r. cbn [run_install_ops fold_left run_install_op].
  destruct (install_restore_outcome None (loaded log_only_console) eq_refl)
    as (r1 & -> & Hin1 & _ & _ & Hout1 & Hrestored).
  destruct Hrestored as [Hlookup _].
  { intros k [fn Hfn]. cbn in Hfn. now rewrite lookup_empty in Hfn. }
  destruct (install_restore_outcome None (restore r1) Hout1)
    as (r2 & -> & _ & _ & Horig & _).
  rewrite (Horig "log" ltac:(cbn; tauto)).
  unfold capture. rewrite !Hlookup. reflexivity.
Defined.

(** ** The HTTP transport *)

Section HttpProperties.

Context (h : Host).
Context (stringify_payload : list LogRecord -> result string).
Context (has_fetch : bool).

Abbreviation do_flush := (flush h stringify_payload has_fetch).
Abbreviation do_transport := (transport h stringify_payload has_fetch).
Abbreviation run_op := (run_http_op h stringify_payload has_fetch).
Abbreviation run_ops := (run_http_ops h stringify_payload has_fetch).
Abbreviation sends := (sending h stringify_payload has_fetch).
Abbreviation well_formed := (well_formed_request stringify_payload).

Lemma flush_frame (t : HttpTransport) :
  ht_url (do_flush t).1 = ht_url t
  /\ ht_batch (do_flush t).1 = ht_batch t
  /\ ht_timer (do_flush t).1 = ht_timer t.
Proof.
  unfold flush. destruct (ht_queue t); [now repeat split |].
  destruct (negb _); [now repeat split |].
  destruct (stringify_payload _); [| now repeat split].
  destruct has_fetch; now repeat split.
Qed.

Lemma flush_queue (t : HttpTransport) :
  ht_queue (do_flush t).1
  = if ht_batch t then [] else tail (ht_queue t).
Proof.
  unfold flush. destruct (ht_queue t) eqn:Eq.
  { cbn [fst]. rewrite Eq. now destruct (ht_batch t). }
  destruct (negb _); [reflexivity |].
  destruct (stringify_payload _); [| reflexivity].
  destruct has_fetch; reflexivity.
Qed.

(** The payload [flush] takes off the queue. *)
Lemma flush_sent (t : HttpTransport) :
  let taken := if ht_batch t then ht_queue t else take 1 (ht_queue t) in
  ((do_flush t).2 = []
   \/ exists body,
        taken <> [] /\ stringify_payload taken = Ok body
        /\ (do_flush t).2 = [{| req_payload := taken; req_body := body |}])
  /\ (sends t -> sent_entries (do_flush t).2 = taken).
Proof.
  cbn zeta. unfold flush. destruct (ht_queue t) as [|first rest] eqn:Eq.
  { split; [now left |]. intros _. now destruct (ht_batch t). }
  assert (Htaken : (if ht_batch t then first :: rest else take 1 (first :: rest))
                   = (if ht_batch t then first :: rest else [first])).
  { destruct (ht_batch t); [reflexivity |]. cbn [take]. now rewrite take_0. }
  rewrite Htaken.
  set (payload := if ht_batch t then first :: rest else [first]).
  assert (Hne : payload <> []) by (subst payload; now destruct (ht_batch t)).
  destruct (truthy h (ht_url t)) eqn:Eu; cbn [negb].
  - destruct (stringify_payload payload) as [body|m] eqn:Es.
    + destruct has_fetch eqn:Ef; cbn [snd].
      * split; [right; now exists body |].
        intros _. unfold sent_entries. cbn. now rewrite app_nil_r.
      * split; [now left |]. intros (_ & Hf & _). discriminate.
    + cbn [snd]. split; [now left |].
      intros (_ & _ & Hs). destruct (Hs payload) as [body Hb]. congruence.
  - cbn [snd]. split; [now left |]. intros (Hu & _). congruence.
Qed.

Lemma take_1_tail {A} (l : list A) : take 1 l ++ tail l = l.
Proof. destruct l; [reflexivity |]. cbn [take tail app]. now rewrite take_0. Qed.

Lemma flush_conserves (t : HttpTransport) :
  sublist (sent_entries (do_flush t).2 ++ ht_queue (do_flush t).1) (ht_queue t)
  /\ (sends t ->
      sent_entries (do_flush t).2 ++ ht_queue (do_flush t).1 = ht_queue t)
  /\ Forall well_formed (do_flush t).2.
Proof.
  destruct (flush_sent t) as [Hsent Hall]. cbn zeta in *.
  rewrite flush_queue.
  assert (Hwhole : (if ht_batch t then ht_queue t else take 1 (ht_queue t))
                   ++ (if ht_batch t then [] else tail (ht_queue t))
                   = ht_queue t).
  { destruct (ht_batch t); [apply app_nil_r | apply take_1_tail]. }
  split; [| split].
  - destruct Hsent as [-> | (body & _ & _ & ->)].
    + cbn [sent_entries map concat app].
      destruct (ht_batch t); [apply sublist_nil_l |].
      destruct (ht_queue t); [reflexivity | now apply sublist_cons].
    + unfold sent_entries. cbn [map concat req_payload].
      rewrite app_nil_r, Hwhole. reflexivity.
  - intros Hs. now rewrite (Hall Hs).
  - destruct Hsent as [-> | (body & Hne & Hbody & ->)]; [constructor |].
    constructor; [| constructor]. split; assumption.
Qed.

Lemma transport_frame (entry : LogRecord) (t : HttpTransport) :
  ht_url (do_transport entry t).1 = ht_url t
  /\ ht_batch (do_transport entry t).1 = ht_batch t.
Proof.
  unfold transport. destruct (negb _); [now split |].
  cbn [ht_batch with_queue].
  destruct (ht_batch t) eqn:Eb.
  - cbn [fst]. destruct (ht_timer _); now split.
  - destruct (flush_frame (with_queue (ht_queue t ++ [entry]) t))
      as (Hu & Hb & _).
    cbn [ht_url ht_batch with_queue] in Hu, Hb. rewrite Hu, Hb. now split.
Qed.

Lemma run_http_op_frame (op : http_op) (t : HttpTransport) :
  ht_url (run_op op t).1 = ht_url t
  /\ ht_batch (run_op op t).1 = ht_batch t.
Proof.
  destruct op as [entry| | |]; cbn [run_http_op].
  - apply transport_frame.
  - destruct (flush_frame t) as (Hu & Hb & _). now split.
  - destruct (ht_timer t); [| now split].
    destruct (flush_frame t) as (Hu & Hb & _). now split.
  - now split.
Qed.

Lemma run_http_op_conserves (op : http_op) (t : HttpTransport) :
  sublist (sent_entries (run_op op t).2 ++ ht_queue (run_op op t).1)
    (ht_queue t ++ http_input op)
  /\ (sends t ->
      sent_entries (run_op op t).2 ++ ht_queue (run_op op t).1
      = ht_queue t ++ http_input op)
  /\ Forall well_formed (run_op op t).2.
Proof.
  destruct op as [entry| | |];
    cbn [run_http_op http_input]; rewrite ?app_nil_r.
  - unfold transport.
    destruct (truthy h (ht_url t)) eqn:Eu; cbn [negb].
    + cbn [ht_batch with_queue]. destruct (ht_batch t) eqn:Eb.
      * cbn [fst snd sent_entries map concat app].
        assert (Hq : ht_queue (if ht_timer (with_queue (ht_queue t ++ [entry]) t)
                               then with_queue (ht_queue t ++ [entry]) t
                               else with_timer true
                                      (with_queue (ht_queue t ++ [entry]) t))
                     = ht_queue t ++ [entry]).
        { now destruct (ht_timer _). }
        rewrite Hq. split; [reflexivity |]. split; [reflexivity | constructor].
      * destruct (flush_conserves (with_queue (ht_queue t ++ [entry]) t))
          as (Hsub & Heq & Hwf).
        cbn [ht_queue with_queue] in Hsub, Heq.
        split; [exact Hsub |]. split; [| exact Hwf].
        intros (Hu & Hf & Hs). apply Heq. now repeat split.
    + cbn [fst snd sent_entries map concat app].
      split; [apply sublist_inserts_r; reflexivity |].
      split; [| constructor]. intros (Hu & _). congruence.
  - apply flush_conserves.
  - destruct (ht_timer t).
    + apply flush_conserves.
    + cbn [fst snd sent_entries map concat app].
      split; [reflexivity |]. split; [reflexivity | constructor].
  - cbn [fst snd sent_entries map concat app dispose ht_queue with_timer].
    split; [reflexivity |]. split; [reflexivity | constructor].
Qed.

Lemma run_http_ops_cons (op : http_op) (rest : list http_op)
  (t : HttpTransport) :
  run_ops (op :: rest) t
  = ((run_ops rest (run_op op t).1).1,
     (run_op op t).2 ++ (run_ops rest (run_op op t).1).2).
Proof.
  cbn [run_http_ops].
  destruct (run_op op t) as [t1 sent1]. cbn [fst snd].
  now destruct (run_ops rest t1).
Qed.

Lemma sent_entries_app (a b : list request) :
  sent_entries (a ++ b) = sent_entries a ++ sent_entries b.
Proof. unfold sent_entries. now rewrite map_app, concat_app. Qed.

Lemma run_http_ops_conserves (ops : list http_op) :
  forall t,
    sublist (sent_entries (run_ops ops t).2 ++ ht_queue (run_ops ops t).1)
      (ht_queue t ++ delivered ops)
    /\ (sends t ->
        sent_entries (run_ops ops t).2 ++ ht_queue (run_ops ops t).1
        = ht_queue t ++ delivered ops)
    /\ Forall well_formed (run_ops ops t).2
    /\ ht_url (run_ops ops t).1 = ht_url t
    /\ ht_batch (run_ops ops t).1 = ht_batch t.
Proof.
  induction ops as [|op rest IH]; intros t.
  - cbn [run_http_ops delivered fst snd sent_entries map concat app].
    rewrite app_nil_r. repeat split; try reflexivity. constructor.
  - rewrite run_http_ops_cons. cbn [fst snd].
    destruct (run_http_op_conserves op t) as (Hsub1 & Heq1 & Hwf1).
    destruct (run_http_op_frame op t) as (Hu1 & Hb1).
    destruct (IH (run_op op t).1) as (Hsub2 & Heq2 & Hwf2 & Hu2 & Hb2).
    assert (Hin : ht_queue t ++ delivered (op :: rest)
                  = (ht_queue t ++ http_input op) ++ delivered rest).
    { rewrite <- app_assoc. now destruct op. }
    rewrite Hin, sent_entries_app, <- app_assoc.
    split; [| split; [| split; [| split]]].
    + etransitivity; [apply sublist_app; [reflexivity | exact Hsub2] |].
      rewrite app_assoc. apply sublist_app; [exact Hsub1 | reflexivity].
    + intros Hs. rewrite Heq2, app_assoc, (Heq1 Hs); [reflexivity |].
      destruct Hs as (Hu & Hf & Hst). repeat split; try assumption.
      now rewrite Hu1.
    + apply Forall_app. now split.
    + now rewrite Hu2.
    + now rewrite Hb2.
Qed.

(** X20: Whatever is done with a transport of [createHttpTransport]
    (entries handed to it, [flush] called by hand or by the interval,
    [dispose]), and whether or not sending succeeds: the entries of the
    payloads sent, in the order of the requests, followed by the entries
    still queued, are entries handed over, in the order they were handed
    over, none twice; every request carries the text of a payload that is
    not empty. *)
Theorem http_transport_keeps_the_order (opts : option HttpOptions)
  (ops : list http_op) :
  let r := run_ops ops (createHttpTransport h opts) in
  sublist (sent_entries r.2 ++ ht_queue r.1) (delivered ops)
  /\ Forall well_formed r.2.
Proof.
  cbn zeta.
  destruct (run_http_ops_conserves ops (createHttpTransport h opts))
    as (Hsub & _ & Hwf & _).
  split; [exact Hsub | exact Hwf].
Qed.

Lemma run_http_ops_immediate (ops : list http_op) :
  forall t,
    sends t -> ht_batch t = false -> ht_queue t = [] ->
    ht_queue (run_ops ops t).1 = []
    /\ map req_payload (run_ops ops t).2
       = map (fun entry => [entry]) (delivered ops).
Proof.
  induction ops as [|op rest IH]; intros t Hs Hb Hq.
  - cbn. now split.
  - rewrite run_http_ops_cons. cbn [fst snd].
    destruct (run_http_op_frame op t) as (Hu1 & Hb1).
    assert (Hstep : ht_queue (run_op op t).1 = []
                    /\ map req_payload (run_op op t).2
                       = map (fun entry => [entry]) (http_input op)).
    { destruct Hs as (Hu & Hf & Hst).
      destruct op as [entry| | |]; cbn [run_http_op http_input map].
      - unfold transport. rewrite Hu. cbn [negb ht_batch with_queue].
        rewrite Hb, Hq. cbn [app].
        unfold flush. cbn [ht_queue with_queue ht_batch ht_url].
        rewrite Hb, Hu. cbn [negb]. destruct (Hst [entry]) as [body ->].
        rewrite Hf. now split.
      - unfold flush. rewrite Hq. now split.
      - destruct (ht_timer t); [| now split].
        unfold flush. rewrite Hq. now split.
      - now split. }
    destruct Hstep as [Hq1 Hsent1].
    destruct (IH (run_op op t).1) as [Hq2 Hsent2].
    + destruct Hs as (Hu & Hf & Hst). repeat split; try assumption.
      now rewrite Hu1.
    + now rewrite Hb1.
    + exact Hq1.
    + split; [exact Hq2 |].
      rewrite map_app, Hsent1, Hsent2.
      destruct op; reflexivity.
Qed.

(** X21: With a URL, a [fetch] and payloads that serialise, nothing is lost:
    the entries sent and the entries queued are together the entries
    handed over.  Without [batch], every entry is sent at once, alone in
    its payload, and the queue is empty between the calls. *)
Theorem http_transport_loses_nothing (opts : option HttpOptions)
  (ops : list http_op) :
  sends (createHttpTransport h opts) ->
  let r := run_ops ops (createHttpTransport h opts) in
  sent_entries r.2 ++ ht_queue r.1 = delivered ops
  /\ (ht_batch (createHttpTransport h opts) = false ->
      ht_queue r.1 = []
      /\ map req_payload r.2 = map (fun entry => [entry]) (delivered ops)).
Proof.
  intros Hs. cbn zeta.
  destruct (run_http_ops_conserves ops (createHttpTransport h opts))
    as (_ & Heq & _).
  split; [exact (Heq Hs) |].
  intros Hb. now apply run_http_ops_immediate.
Qed.

Lemma deliver_batch (entries : list LogRecord) :
  forall t,
    truthy h (ht_url t) = true -> ht_batch t = true ->
    run_ops (map Deliver entries) t
    = (with_timer (match entries with [] => ht_timer t | _ => true end)
         (with_queue (ht_queue t ++ entries) t), []).
Proof.
  induction entries as [|entry rest IH]; intros t Hu Hb.
  - cbn [map run_http_ops]. rewrite app_nil_r. now destruct t.
  - cbn [map]. rewrite run_http_ops_cons.
    assert (Hstep : run_op (Deliver entry) t
                    = (with_timer true (with_queue (ht_queue t ++ [entry]) t), [])).
    { cbn [run_http_op]. unfold transport.
      rewrite Hu. cbn [negb ht_batch with_queue]. rewrite Hb.
      cbn [ht_timer with_queue]. destruct t as [u b i q []]; reflexivity. }
    rewrite Hstep. cbn [fst snd app]. rewrite IH by assumption.
    cbn [fst snd ht_queue ht_timer with_timer with_queue].
    rewrite <- app_assoc. cbn [app].
    destruct rest; reflexivity.
Qed.

(** X22: With [batch], entries handed to the transport are queued, not sent,
    and the first of them schedules the interval; a [flush] then takes the
    whole queue as one payload and leaves the queue empty, whether the
    payload is sent or not: a payload that does not serialise is
    dropped. *)
Theorem http_transport_batches (t : HttpTransport) (entries : list LogRecord) :
  truthy h (ht_url t) = true ->
  ht_batch t = true ->
  let queued := run_ops (map Deliver entries) t in
  queued.2 = []
  /\ ht_queue queued.1 = ht_queue t ++ entries
  /\ (entries <> [] -> ht_timer queued.1 = true)
  /\ ht_queue (do_flush queued.1).1 = []
  /\ (has_fetch = true ->
      match stringify_payload (ht_queue t ++ entries) with
      | Ok body =>
          ht_queue t ++ entries <> [] ->
          (do_flush queued.1).2
          = [{| req_payload := ht_queue t ++ entries; req_body := body |}]
      | Throw _ => (do_flush queued.1).2 = []
      end).
Proof.
  intros Hu Hb. cbn zeta. rewrite deliver_batch by assumption.
  cbn [fst snd ht_queue ht_timer with_timer with_queue].
  split; [reflexivity |]. split; [reflexivity |].
  split; [now destruct entries |].
  split.
  { rewrite flush_queue. cbn [ht_batch with_timer with_queue]. now rewrite Hb. }
  intros Hf. unfold flush.
  cbn [ht_queue ht_batch ht_url with_timer with_queue].
  rewrite Hb, Hu, Hf. cbn [negb].
  destruct (ht_queue t ++ entries) as [|first rest] eqn:Eq.
  - destruct (stringify_payload []); [intros Hne; now destruct Hne | reflexivity].
  - destruct (stringify_payload (first :: rest)); [intros _ |]; reflexivity.
Qed.

(** X23: Without a URL the transport [createHttpTransport] returns does
    nothing at all: whatever is handed to it and whatever is called, it
    queues nothing, schedules nothing and sends nothing. *)
Theorem http_transport_without_url (opts : option HttpOptions)
  (ops : list http_op) :
  match opts with
  | Some o => truthy h (opt_url o) = false
  | None => True
  end ->
  run_ops ops (createHttpTransport h opts)
  = (createHttpTransport h opts, []).
Proof.
  intros Hurl.
  assert (Hinert : forall t,
             truthy h (ht_url t) = false -> ht_queue t = [] ->
             ht_timer t = false ->
             run_ops ops t = (t, [])).
  { induction ops as [|op rest IH]; intros t Hu Hq Ht; [reflexivity |].
    rewrite run_http_ops_cons.
    assert (Hstep : run_op op t = (t, [])).
    { destruct op as [entry| | |]; cbn [run_http_op].
      - unfold transport. now rewrite Hu.
      - unfold flush. now rewrite Hq.
      - now rewrite Ht.
      - unfold dispose. destruct t. cbn in *. now subst. }
    rewrite Hstep. cbn [fst snd app]. now rewrite IH. }
  apply Hinert; [| reflexivity | reflexivity].
  unfold createHttpTransport. cbn [ht_url].
  destruct opts as [o|]; [| reflexivity].
  now rewrite Hurl.
Qed.

End HttpProperties.

(** X21, on three entries handed to the
    transport of [{url: '/logs'}], with a [flush] in between. *)
Lemma http_transport_loses_nothing_witness :
  let ops := [Deliver (sample_record "a"); Deliver (sample_record "b"); Flush;
              Deliver (sample_record "c")] in
  let r := run_http_ops example_host preview_list true ops
             (createHttpTransport example_host (Some (logs_options false))) in
  sending example_host preview_list true
    (createHttpTransport example_host (Some (logs_options false)))
  /\ sent_entries r.2 ++ ht_queue r.1
     = [sample_record "a"; sample_record "b"; sample_record "c"]
  /\ map req_body r.2 = ["[a]"; "[b]"; "[c]"].
Proof.
  intros ops r.
  assert (Hs : sending example_host preview_list true
                 (createHttpTransport example_host (Some (logs_options false)))).
  { split; [reflexivity |]. split; [reflexivity |].
    intros payload. eexists. reflexivity. }
  split; [exact Hs |]. split; [| reflexivity].
  exact (proj1 (http_transport_loses_nothing example_host preview_list true
                  (Some (logs_options false)) ops Hs)).
Defined.

(** X22, on two entries handed to the transport
    of [{url: '/logs', batch: true}]. *)
Lemma http_transport_batches_witness :
  let t := createHttpTransport example_host (Some (logs_options true)) in
  let queued :=
    run_http_ops example_host preview_list true
      (map Deliver [sample_record "a"; sample_record "b"]) t in
  (truthy example_host (ht_url t) = true /\ ht_batch t = true)
  /\ queued.2 = []
  /\ ht_queue queued.1 = [sample_record "a"; sample_record "b"]
  /\ map req_body (flush example_host preview_list true queued.1).2 = ["[a,b]"].
Proof.
  intros t queued. split; [split; reflexivity |].
  destruct (http_transport_batches example_host preview_list true t
              [sample_record "a"; sample_record "b"] eq_refl eq_refl)
    as (Hnone & Hqueue & _).
  split; [exact Hnone |]. split; [exact Hqueue | reflexivity].
Defined.

(** X23, on the transport of
    [createHttpTransport()]. *)
Lemma http_transport_without_url_witness :
  run_http_ops example_host preview_list true
    [Deliver (sample_record "a"); Flush; IntervalFires; Dispose]
    (createHttpTransport example_host None)
  = (createHttpTransport example_host None, []).
Proof.
  exact (http_transport_without_url example_host preview_list true None
           [Deliver (sample_record "a"); Flush; IntervalFires; Dispose] I).
Defined.

(** ** Callbacks that act on what they are given *)

Lemma with_state_add_events (es : list event) (w : World) :
  with_state (st w) (add_events es w) = add_events es w.
Proof. reflexivity. Qed.

Lemma live_applyRedaction_run (cb : Callbacks) (args : list value)
  (levelName namespace : string) (w : World) :
  Live.applyRedaction cb args levelName namespace w
  = (Ok (live_redacted cb args levelName namespace (st w)).1,
     with_state (live_redacted cb args levelName namespace (st w)).2 w).
Proof.
  unfold Live.applyRedaction, live_redacted.
  destruct (redactorFn (st w)) as [fn|];
    [| cbn [fst snd]; now rewrite with_state_same].
  now destruct (redactor_run cb fn args levelName namespace (st w)) as [[out arr] s].
Qed.

(** [Live.emit], gate by gate. *)
Lemma live_emit_run (h : Host) (cb : Callbacks) (fuel : nat)
  (levelName namespace : string) (args : list value) (w : World) :
  Live.emit h cb fuel levelName namespace args w
  = if level_rejects levelName namespace (st w) then Some (Ok None, w)
    else
      let after (w1 : World) :=
        if isNamespaceEnabled (VStr namespace) (st w)
        then live_deliver h cb fuel (normal_level levelName) namespace args w1
        else Some (Ok None, w1) in
      match first_match (sampleRules (st w)) namespace with
      | Some rate =>
          if Qlt_bool (random h (draws w)) rate then after (draw w)
          else Some (Ok None, draw w)
      | None => after w
      end.
Proof.
  unfold Live.emit, level_rejects. fold (normal_level levelName).
  unfold mbind at 1. unfold Live.LM_bind at 1. unfold Live.run at 1.
  unfold get_state at 1.
  destruct (match LEVELS_own (normal_level levelName) with
            | Some w0 => below w0 (getEffectiveLevelWeight (VStr namespace) (st w))
            | None => false
            end); [reflexivity |].
  unfold mbind at 1. unfold Live.LM_bind at 1. unfold Live.run at 1.
  rewrite shouldPassSampling_run.
  assert (Hdeliver : forall w1, st w1 = st w ->
    (time ← Live.run (read_wall_clock h);
     sanitized ← Live.run (Live.applyRedaction cb args (normal_level levelName)
                             namespace);
     s1 ← Live.run get_state;
     _ ← Live.run
           (if negb (paused s1) && config_printToNative s1
            then try_catch (print_native h (normal_level levelName) sanitized)
                   (mret tt)
            else mret tt);
     let stack := maybeCaptureStack h (normal_level levelName) s1 in
     let entry :=
       {| rec_time := time; rec_level := normal_level levelName;
          rec_namespace := namespace;
          rec_preview := buildPreview h sanitized;
          rec_args := sanitized;
          rec_stack := if Str.is_empty stack then None else Some stack |} in
     entry' ← Live.notifyTransports cb fuel entry;
     _ ← Live.run
           (modify (addToBuffer
                      {| time := rec_time entry'; level := rec_level entry';
                         namespace := rec_namespace entry';
                         preview := rec_preview entry' |}));
     mret (Some entry')) w1
    = live_deliver h cb fuel (normal_level levelName) namespace args w1).
  { intros w1 _.
    unfold mbind at 1. unfold Live.LM_bind at 1. unfold Live.run at 1.
    unfold read_wall_clock at 1.
    unfold mbind at 1. unfold Live.LM_bind at 1. unfold Live.run at 1.
    rewrite live_applyRedaction_run.
    unfold live_deliver.
    change (st {| st := st w1; draws := draws w1; ticks := S (ticks w1);
                  events := events w1 |}) with (st w1).
    destruct (live_redacted cb args (normal_level levelName) namespace (st w1))
      as [sanitized s1].
    cbn [fst snd].
    unfold mbind at 1. unfold Live.LM_bind at 1. unfold Live.run at 1.
    unfold get_state at 1. cbn [st with_state].
    unfold mbind at 1. unfold Live.LM_bind at 1. unfold Live.run at 1.
    unfold Live.notifyTransports.
    set (entry := {| rec_time := wall_clock h (ticks w1);
                     rec_level := normal_level levelName;
                     rec_namespace := namespace;
                     rec_preview := buildPreview h sanitized;
                     rec_args := sanitized;
                     rec_stack := _ |}).
    assert (Hend : forall w4,
               (entry' ← Live.notify_from cb fuel 0 entry;
                _ ← Live.run
                      (modify (addToBuffer
                                 {| time := rec_time entry';
                                    level := rec_level entry';
                                    namespace := rec_namespace entry';
                                    preview := rec_preview entry' |}));
                mret (Some entry')) w4
               = match Live.notify_from cb fuel 0 entry w4 with
                 | Some (Ok entry', w') =>
                     Some (Ok (Some entry'),
                           with_state (addToBuffer (trimmed entry') (st w')) w')
                 | Some (Throw m, w') => Some (Throw m, w')
                 | None => None
                 end).
    { intros w4. unfold mbind at 1. unfold Live.LM_bind at 1.
      destruct (Live.notify_from cb fuel 0 entry w4) as [[[entry'|m] w5]|];
        reflexivity. }
    destruct (negb (paused s1) && config_printToNative s1).
    - unfold try_catch, print_native, mbind at 1, M_bind at 1, emit_event, lift.
      cbn [st draws ticks events].
      destruct (native_call h (normal_level levelName) sanitized) as [[]|];
        try (unfold mret at 1, M_ret at 1); rewrite Hend; reflexivity.
    - unfold mret at 1, M_ret at 1. rewrite Hend.
      unfold add_events. cbn [st draws ticks events with_state tick].
      now rewrite app_nil_r. }
  destruct (first_match (sampleRules (st w)) namespace) as [rate|].
  - destruct (Qlt_bool (random h (draws w)) rate); cbn [negb]; [| reflexivity].
    destruct (isNamespaceEnabled (VStr namespace) (st w)); cbn [negb];
      [| reflexivity].
    apply Hdeliver. reflexivity.
  - cbn [negb].
    destruct (isNamespaceEnabled (VStr namespace) (st w)); cbn [negb];
      [| reflexivity].
    apply Hdeliver. reflexivity.
Qed.

Lemma notify_from_passive (h : Host) (entry : LogRecord)
  (rest : list nat) :
  forall (done : list nat) (fuel : nat) (w : World),
    transports (st w) = done ++ rest ->
    (length rest <= fuel)%nat ->
    Live.notify_from (passive h) fuel (length done) entry w
    = Some (Ok entry,
            add_events (map (fun sink => ESink sink entry) rest) w).
Proof.
  induction rest as [|sink rest IH]; intros done fuel w Hs Hfuel.
  - rewrite app_nil_r in Hs.
    assert (Hend : transports (st w) !! length done = None).
    { rewrite Hs. now apply lookup_ge_None_2. }
    destruct fuel; cbn [Live.notify_from]; rewrite Hend;
      now rewrite add_events_nil.
  - assert (Hat : transports (st w) !! length done = Some sink).
    { rewrite Hs. now apply list_lookup_middle. }
    destruct fuel as [|fuel]; [cbn in Hfuel; lia |].
    cbn [Live.notify_from]. rewrite Hat.
    cbn [passive sink_run]. rewrite with_state_add_events.
    replace (S (length done)) with (length (done ++ [sink]))
      by (rewrite length_app; cbn; lia).
    rewrite IH.
    + now rewrite add_events_app.
    + cbn [add_events st]. rewrite Hs, <- app_assoc. reflexivity.
    + cbn in Hfuel. lia.
Qed.

Lemma notify_from_same_effects (cb1 cb2 : Callbacks) :
  (forall sink entry s,
      (sink_run cb1 sink entry s).1.2 = (sink_run cb2 sink entry s).1.2
      /\ (sink_run cb1 sink entry s).2 = (sink_run cb2 sink entry s).2) ->
  forall fuel i entry w,
    Live.notify_from cb1 fuel i entry w = Live.notify_from cb2 fuel i entry w.
Proof.
  intros Hsame. induction fuel as [|fuel IH]; intros i entry w;
    cbn [Live.notify_from]; [reflexivity |].
  destruct (transports (st w) !! i) as [sink|]; [| reflexivity].
  destruct (Hsame sink entry (st w)) as [He Hs].
  destruct (sink_run cb1 sink entry (st w)) as [[r1 e1] s1].
  destruct (sink_run cb2 sink entry (st w)) as [[r2 e2] s2].
  cbn [fst snd] in He, Hs. subst e2 s2. apply IH.
Qed.

Lemma live_redacted_passive (h : Host) (args : list value)
  (levelName namespace : string) (s : State) :
  live_redacted (passive h) args levelName namespace s
  = (redacted h s args levelName namespace, s).
Proof.
  unfold live_redacted, redacted. cbn [passive redactor_run].
  destruct (redactorFn s) as [fn|]; [| reflexivity].
  now destruct (redactor_call h fn args levelName namespace) as [[arr|]|].
Qed.

(** With callbacks that only answer, and fuel for one invocation per
    registered sink, the live pipeline is the pipeline. *)
Lemma live_emit_of_passive_callbacks (h : Host) (fuel : nat)
  (levelName namespace : string) (args : list value) (w : World) :
  (length (transports (st w)) <= fuel)%nat ->
  Live.emit h (passive h) fuel levelName namespace args w
  = Some (emit h levelName namespace args w).
Proof.
  intros Hfuel. rewrite live_emit_run, emit_run.
  destruct (level_rejects levelName namespace (st w)); [reflexivity |].
  assert (Hdeliver : forall w1,
             st w1 = st w ->
             live_deliver h (passive h) fuel (normal_level levelName) namespace
               args w1
             = Some (let '(r, w2) := deliver h (normal_level levelName)
                                       namespace args w1 in
                     (Ok (Some r), w2))).
  { intros w1 Hst. unfold live_deliver, deliver, built_record.
    rewrite live_redacted_passive.
    set (r := {| rec_time := wall_clock h (ticks w1); rec_level := _;
                 rec_namespace := _; rec_preview := _; rec_args := _;
                 rec_stack := _ |}).
    rewrite (notify_from_passive h r (transports (st w1)) []).
    - rewrite add_events_app. reflexivity.
    - destruct (negb (paused (st w1)) && config_printToNative (st w1));
        reflexivity.
    - now rewrite Hst. }
  cbn zeta.
  destruct (first_match (sampleRules (st w)) namespace) as [rate|].
  - destruct (Qlt_bool (random h (draws w)) rate); [| reflexivity].
    destruct (isNamespaceEnabled (VStr namespace) (st w)); [| reflexivity].
    now rewrite Hdeliver.
  - destruct (isNamespaceEnabled (VStr namespace) (st w)); [| reflexivity].
    now rewrite Hdeliver.
Qed.

(** The buffer is filled from the record as the sinks leave it: with
    sink 3, which assigns the preview, before sink 2, sink 2 is handed the
    record with the new preview and the buffer holds that preview. *)
Example sink_edits_reach_the_buffer :
  let s := addTransport (VFun 2 "") (addTransport (VFun 3 "") default_state) in
  exists record w',
    Live.emit example_host example_callbacks 2 "info" "db" [VStr "token"]
      (world_of s) = Some (Ok (Some record), w')
    /\ rec_preview record = "(hidden)"
    /\ map preview (buffer (st w')) = ["(hidden)"]
    /\ exists built,
         events w' = [ENative "info" [VStr "token"]; ESink 3 built;
                      ESink 2 record]
         /\ rec_preview built = "token".
Proof.
  cbn zeta. eexists _, _. split; [vm_compute; reflexivity |].
  split; [reflexivity |]. split; [reflexivity |].
  eexists. split; reflexivity.
Qed.

Section HostFailures.

Context (h1 h2 : Host) (cb1 cb2 : Callbacks).

Hypothesis Hsame : same_but_sinks_and_console h1 h2.
Hypothesis Heffects : same_effects cb1 cb2.

Lemma stringifyForPreview_same (v : value) :
  stringifyForPreview h1 v = stringifyForPreview h2 v.
Proof.
  destruct Hsame as (_ & _ & _ & _ & Htext & _).
  destruct v; cbn [stringifyForPreview]; now rewrite ?Htext.
Qed.

Lemma preview_parts_same (args : list value) :
  forall out, preview_parts h1 args out = preview_parts h2 args out.
Proof.
  induction args as [|a rest IH]; intros out; [reflexivity |].
  cbn [preview_parts]. rewrite stringifyForPreview_same.
  destruct (_ <? _)%nat; [reflexivity | apply IH].
Qed.

Lemma maybeCaptureStack_same (levelName : string) (s : State) :
  maybeCaptureStack h1 levelName s = maybeCaptureStack h2 levelName s.
Proof.
  destruct Hsame as (_ & _ & _ & _ & _ & Htruthy & Hstack & _).
  unfold maybeCaptureStack. rewrite Hstack.
  assert (Ht : truthy h1 (config_captureStack s)
               = truthy h2 (config_captureStack s)).
  { destruct (config_captureStack s); cbn [truthy]; now rewrite ?Htruthy. }
  now rewrite Ht.
Qed.

Lemma live_deliver_same (fuel : nat) (levelName namespace : string)
  (args : list value) (w : World) :
  live_deliver h1 cb1 fuel levelName namespace args w
  = live_deliver h2 cb2 fuel levelName namespace args w.
Proof.
  unfold live_deliver, live_redacted, buildPreview.
  destruct Hsame as (_ & Hclock & _). destruct Heffects as [Hsinks Hred].
  rewrite Hclock, Hred.
  destruct (match redactorFn (st w) with
            | Some fn => _
            | None => _
            end) as [sanitized s1].
  rewrite maybeCaptureStack_same, !preview_parts_same.
  now rewrite (notify_from_same_effects cb1 cb2 Hsinks).
Qed.

(** X24: Neither the outcome of [emit] nor what it leaves behind depends on
    whether the sinks and the native console throw or return: with sinks
    that do the same to the record and to the module whatever their
    outcome, on two hosts that differ in the native console only, a call
    is accepted or rejected alike, builds the same record, makes the same
    calls in the same order and leaves the same state. *)
Theorem emit_does_not_depend_on_sinks_or_console (fuel : nat)
  (levelName namespace : string) (args : list value) (w : World) :
  Live.emit h1 cb1 fuel levelName namespace args w
  = Live.emit h2 cb2 fuel levelName namespace args w.
Proof.
  rewrite !live_emit_run. cbn zeta.
  destruct Hsame as (Hrandom & _).
  now rewrite Hrandom, !live_deliver_same.
Qed.

End HostFailures.

(** X24, on the example host and callbacks and on the same host and
    callbacks with sinks and console that always throw, with two sinks
    registered, the first of which removes itself. *)
Lemma emit_does_not_depend_on_sinks_or_console_witness :
  let s := addTransport (VFun 2 "") (addTransport (VFun 1 "") default_state) in
  (same_but_sinks_and_console example_host failing_host
   /\ same_effects example_callbacks failing_callbacks)
  /\ Live.emit failing_host failing_callbacks 2 "warn" "db" [VStr "slow"]
       (world_of s)
     = Live.emit example_host example_callbacks 2 "warn" "db" [VStr "slow"]
         (world_of s)
  /\ exists record w',
       Live.emit failing_host failing_callbacks 2 "warn" "db" [VStr "slow"]
         (world_of s)
       = Some (Ok (Some record), w')
       /\ length (events w') = 2%nat /\ length (buffer (st w')) = 1%nat.
Proof.
  intros s.
  assert (Hsame : same_but_sinks_and_console example_host failing_host).
  { repeat split. }
  assert (Heffects : same_effects example_callbacks failing_callbacks).
  { split; [| reflexivity]. intros sink entry s0. split; reflexivity. }
  split; [split; [exact Hsame | exact Heffects] |]. split.
  - symmetry.
    exact (emit_does_not_depend_on_sinks_or_console example_host failing_host
             example_callbacks failing_callbacks Hsame Heffects 2 "warn" "db"
             [VStr "slow"] (world_of s)).
  - eexists _, _. vm_compute. split; [reflexivity |]. split; reflexivity.
Defined.

(** ** Which logging calls return normally *)

Section LoggingCalls.

Context (h : Host).

Lemma label_key_throws (label : value) (m : string) :
  label_key h label = Throw m
  <-> truthy h label = true /\ to_string h label = Throw m.
Proof.
  unfold label_key. destruct (truthy h label).
  - split; [now split | now intros [_ H]].
  - cbn [to_string]. split; [discriminate | now intros [H _]].
Qed.

(** X25: Which logging calls return normally.  The six severity methods
    always do, whatever the arguments, the redactor, the sinks and the
    native console do.  [once] does exactly when the conversion of its key
    to a string does not throw, and [count], [countReset], [time] and
    [timeEnd] exactly when that of their label does not (a falsy label is
    not converted); otherwise they throw what the conversion throws,
    before anything is marked, counted or emitted. *)
Theorem logging_calls_return_normally (lg : Logger) (w : World) :
  (forall method args,
      In method severity_methods ->
      exists produced w', logger_log h lg method args w = (Ok produced, w'))
  /\ (forall key rest,
         match to_string h key with
         | Ok _ =>
             exists produced w',
               logger_once h lg (key :: rest) w = (Ok produced, w')
         | Throw m => logger_once h lg (key :: rest) w = (Throw m, w)
         end)
  /\ (forall label,
         match label_key h label with
         | Ok _ =>
             (exists r w', logger_count h lg label w = (Ok r, w'))
             /\ (exists r w', logger_countReset h lg label w = (Ok r, w'))
             /\ (exists lg' w', logger_time h lg label w = (Ok lg', w'))
             /\ (exists r w', logger_timeEnd h lg label w = (Ok r, w'))
         | Throw m =>
             logger_count h lg label w = (Throw m, w)
             /\ logger_countReset h lg label w = (Throw m, w)
             /\ logger_time h lg label w = (Throw m, w)
             /\ logger_timeEnd h lg label w = (Throw m, w)
         end)
  /\ (forall label m,
         label_key h label = Throw m
         <-> truthy h label = true /\ to_string h label = Throw m).
Proof.
  split; [| split; [| split]].
  - intros method args _. apply logger_log_returns_normally.
  - intros key rest. apply logger_once_outcome.
  - intros label.
    pose proof (logger_count_outcome h lg label w) as Hc.
    pose proof (logger_countReset_outcome h lg label w) as Hr.
    pose proof (logger_time_outcome h lg label w) as Ht.
    pose proof (logger_timeEnd_outcome h lg label w) as He.
    destruct (label_key h label); repeat split; assumption.
  - apply label_key_throws.
Qed.

(** X26: [console.assert] as [install] defines it: with a truthy first
    argument it does nothing; with a falsy one, or none, it is a call at
    level ['error'] in the namespace ['global'] whose arguments are
    ['Assertion failed:'] and the arguments after the first.  No level
    configuration silences it: it is recorded whenever no sampling rule
    applies to ['global'] and ['global'] is enabled. *)
Theorem failed_assertions_are_errors (ops : list level_op)
  (arguments : list value) (w : World) :
  st w = (run_level_ops ops (default_state, default_presentation)).1 ->
  (truthy h (hd VUndefined arguments) = true ->
   console_assert h arguments w = (Ok None, w))
  /\ (truthy h (hd VUndefined arguments) = false ->
      console_assert h arguments w
      = emit h "error" "global" (VStr "Assertion failed:" :: tail arguments) w
      /\ (first_match (sampleRules (st w)) "global" = None ->
          isNamespaceEnabled (VStr "global") (st w) = true ->
          exists record w',
            console_assert h arguments w = (Ok (Some record), w')
            /\ rec_level record = "error"
            /\ rec_namespace record = "global"
            /\ rec_args record
               = redacted h (st w) (VStr "Assertion failed:" :: tail arguments)
                   "error" "global"
            /\ buffer (st w') = buffer (addToBuffer (trimmed record) (st w)))).
Proof.
  intros Hst. unfold console_assert. split; intros Hcond; rewrite Hcond.
  - reflexivity.
  - split; [reflexivity |]. intros Hrate Hen.
    assert (Hbelow : below 60 (getEffectiveLevelWeight (VStr "global") (st w))
                     = false).
    { rewrite Hst. apply coherent_threshold, run_level_ops_coherent.
      exact default_state_coherent. }
    rewrite emit_run. unfold level_rejects.
    change (normal_level "error") with "error".
    change (LEVELS_own "error") with (Some 60). cbv beta iota.
    rewrite Hbelow, Hrate, Hen. unfold deliver.
    eexists _, _. split; [reflexivity |]. repeat split.
Qed.

End LoggingCalls.

(** X26, on [console.assert()] after
    [setLevel('error')]. *)
Lemma failed_assertions_are_errors_witness :
  let w := world_of (run_level_ops [SetLevel "error"]
                       (default_state, default_presentation)).1 in
  st w = (run_level_ops [SetLevel "error"]
            (default_state, default_presentation)).1
  /\ console_assert example_host [] w
     = emit example_host "error" "global" [VStr "Assertion failed:"] w.
Proof.
  intros w. split; [reflexivity |].
  exact (proj1 (proj2 (failed_assertions_are_errors example_host
                         [SetLevel "error"] [] w eq_refl) eq_refl)).
Defined.

(** ** Prefixes, groups and tables *)

Lemma capture_is_function (c : gmap string member) (m : string) :
  is_function (Some (capture c m)) = true.
Proof.
  unfold capture. destruct (is_function (c !! m)) eqn:E.
  - now destruct (c !! m).
  - destruct (is_function (c !! "log")) eqn:El; [| reflexivity].
    now destruct (c !! "log").
Qed.

Lemma installed_originals (config : option Overrides) (r r1 : Runtime)
  (name : string) :
  installed r = false -> install config r = Ok r1 ->
  In name console_methods ->
  is_function (original r1 !! name) = true
  /\ is_function (original (restore r1) !! name) = true.
Proof.
  intros Hout Hrun Hname.
  destruct (install_run config r Hout) as (sp & Hrun').
  rewrite Hrun in Hrun'.
  pose proof (f_equal (fun x => match x with Ok a => a | Throw _ => r end) Hrun')
    as Hr1.
  cbv beta iota in Hr1. clear Hrun'.
  assert (Horig : original r1 !! name = Some (capture (console r) name)).
  { rewrite Hr1. cbn [original]. rewrite captured_lookup.
    now rewrite (proj2 (existsb_eqb_In name console_methods) Hname). }
  assert (Hkept : original (restore r1) = original r1).
  { unfold restore. now destruct (negb (installed r1)). }
  rewrite Hkept, Horig. split; apply capture_is_function.
Qed.

Lemma bind_run {A B} (m : M A) (k : A -> M B) (w : World) :
  (x ← m; k x) w
  = match m w with
    | (Ok a, w') => k a w'
    | (Throw e, w') => (Throw e, w')
    end.
Proof. reflexivity. Qed.

Lemma ret_run {A} (a : A) (w : World) : (mret a : M A) w = (Ok a, w).
Proof. reflexivity. Qed.

Section PrintingProperties.

Context (h : Host).
Context (toUpperCase : string -> string).
Context (LEVEL_ICONS : string -> option string).
Context (local_time : nat -> Date).
Context (array_length : object -> result (option nat)).
Context (key_count : object -> result nat).

Lemma print_native_run (name : string) (args : list value) (w : World) :
  print_native h name args w
  = (native_call h name args, add_events [ENative name args] w).
Proof. reflexivity. Qed.

Lemma apply_original_run (original : gmap string member) (name : string)
  (args : list value) (w : World) :
  apply_original h original name args w
  = if is_function (original !! name)
    then (native_call h name args, add_events [ENative name args] w)
    else (Throw "TypeError", w).
Proof.
  unfold apply_original. destruct (is_function _); reflexivity.
Qed.

Lemma groupWithNamespace_run (p : Presentation)
  (original : gmap string member) (collapsed : bool) (namespace : string)
  (colorOverride : option string) (args : list value) (w : World) :
  exists prefix,
    groupWithNamespace h toUpperCase LEVEL_ICONS local_time p original
      collapsed namespace colorOverride args w
    = if paused (st w) then (Ok tt, tick w)
      else
        apply_original h original
          (if collapsed then "groupCollapsed" else "group")
          (VStr prefix :: args) (tick w).
Proof.
  eexists. unfold groupWithNamespace.
  unfold mbind at 1. unfold M_bind at 1. unfold read_local_time at 1.
  unfold mbind at 1. unfold M_bind at 1. unfold get_state at 1.
  cbn [st]. fold (tick w). destruct (paused (st w)); reflexivity.
Qed.

(** X27: The prefix printed with colours on is the plain prefix between a
    colour code and the reset code: the colour given to the logger when
    there is one, else the colour of the level, which every level has.
    Colours change nothing else of the text. *)
Theorem node_prefix_wraps_the_plain_one (p : Presentation)
  (levelName timeText nsLabel : string) (colorOverride : option string) :
  exists color,
    buildNodePrefix toUpperCase LEVEL_ICONS p levelName timeText nsLabel
      colorOverride
    = color
      +:+ buildPlainPrefix toUpperCase LEVEL_ICONS p levelName timeText nsLabel
      +:+ ANSI_reset
    /\ color
       = match colorOverride with
         | Some c =>
             if Str.is_empty c
             then default "" (assoc levelName LEVEL_COLORS_NODE) else c
         | None => default "" (assoc levelName LEVEL_COLORS_NODE)
         end
    /\ (forall weight,
           LEVELS_own levelName = Some weight ->
           colorOverride = None -> Str.is_empty color = false).
Proof.
  eexists. split; [| split; [reflexivity |]].
  - unfold buildNodePrefix, buildPlainPrefix. cbn zeta.
    now rewrite !append_assoc.
  - intros weight Hown ->. revert Hown.
    unfold LEVELS_own, LEVELS, LEVEL_COLORS_NODE. cbn [assoc].
    repeat (destruct (String.eqb _ levelName); [reflexivity |]).
    discriminate.
Qed.

(** X28: The group methods of a logger are outside the pipeline.  While
    paused they do nothing.  Otherwise they call the original [group] (or
    [groupCollapsed]) of the console with the prefix and the arguments,
    whatever the level, the namespaces and the sampling; nothing is
    buffered and no sink is invoked.  When [state.original] holds no such
    function they throw a [TypeError]: that is so until the first
    [install], and never after it, [restore] or not.  [groupEnd] does the
    same, paused or not. *)
Theorem groups_are_outside_the_pipeline (p : Presentation)
  (originals : gmap string member) (lg : Logger) (collapsed : bool)
  (colorOverride : option string) (args : list value) (w : World) :
  let name := if collapsed then "groupCollapsed" else "group" in
  let outcome :=
    logger_group h toUpperCase LEVEL_ICONS local_time p originals lg collapsed
      colorOverride args w in
  (paused (st w) = true -> outcome = (Ok tt, tick w))
  /\ (paused (st w) = false -> is_function (originals !! name) = false ->
      outcome = (Throw "TypeError", tick w))
  /\ (paused (st w) = false -> is_function (originals !! name) = true ->
      exists prefix,
        outcome
        = (native_call h name (VStr prefix :: args),
           add_events [ENative name (VStr prefix :: args)] (tick w)))
  /\ st outcome.2 = st w
  /\ draws outcome.2 = draws w
  /\ List.filter is_sink_event (events outcome.2)
     = List.filter is_sink_event (events w)
  /\ (is_function (originals !! "groupEnd") = false ->
      logger_groupEnd h originals w = (Throw "TypeError", w))
  /\ (forall c config r1,
         is_function (original (loaded c) !! name) = false
         /\ (install config (loaded c) = Ok r1 ->
             is_function (original r1 !! name) = true
             /\ is_function (original (restore r1) !! name) = true
             /\ is_function (original r1 !! "groupEnd") = true)).
Proof.
  intros name outcome. subst outcome. unfold logger_group.
  destruct (groupWithNamespace_run p originals collapsed (lg_ns lg)
              colorOverride args w) as (prefix & ->).
  fold name. rewrite apply_original_run.
  split; [now intros -> |].
  split; [now intros -> -> |].
  split; [intros -> ->; now exists prefix |].
  assert (Hframe :
    let o := if paused (st w) then (Ok tt, tick w)
             else if is_function (originals !! name)
                  then (native_call h name (VStr prefix :: args),
                        add_events [ENative name (VStr prefix :: args)] (tick w))
                  else (Throw "TypeError", tick w) in
    st o.2 = st w /\ draws o.2 = draws w
    /\ List.filter is_sink_event (events o.2)
       = List.filter is_sink_event (events w)).
  { cbn zeta. destruct (paused (st w)); [now repeat split |].
    destruct (is_function _); [| now repeat split].
    cbn [snd st draws events add_events tick].
    split; [reflexivity |]. split; [reflexivity |].
    rewrite List.filter_app. cbn. apply app_nil_r. }
  destruct Hframe as (Hst & Hdraws & Hsinks).
  split; [exact Hst |]. split; [exact Hdraws |]. split; [exact Hsinks |].
  split.
  { intros Hnone. unfold logger_groupEnd. rewrite apply_original_run.
    now rewrite Hnone. }
  intros c config r1. split.
  { cbn [loaded original]. now rewrite lookup_empty. }
  intros Hrun.
  assert (Hname : In name console_methods).
  { subst name. destruct collapsed; cbn; tauto. }
  destruct (installed_originals config (loaded c) r1 name eq_refl Hrun Hname)
    as [H1 H2].
  split; [exact H1 |]. split; [exact H2 |].
  apply (installed_originals config (loaded c) r1 "groupEnd" eq_refl Hrun).
  cbn; tauto.
Qed.

(** X29: [console.table] as [install] defines it is outside the pipeline too.
    Whatever the level, the namespaces and the sampling, and paused or
    not, a call that returns has appended one entry to the buffer, of
    level ['log'] and namespace ['global'], whose preview is ['TABLE ']
    and the summary of the first argument; no sink is invoked and no
    random draw is made.  It returns when paused, and otherwise when the
    original [log] and [table] do; an exception of theirs comes out of the
    call, which then buffers nothing. *)
Theorem tables_are_outside_the_pipeline (p : Presentation)
  (original : gmap string member) (args : list value) (w : World) :
  let outcome :=
    console_table h toUpperCase LEVEL_ICONS local_time array_length key_count
      p original args w in
  (outcome.1 = Ok tt ->
   st outcome.2
   = addToBuffer
       {| time := wall_clock h (S (ticks w)); level := "log";
          namespace := "global";
          preview :=
            "TABLE "
            +:+ summarizeTable array_length key_count (hd VUndefined args) |}
       (st w))
  /\ (forall m, outcome.1 = Throw m -> st outcome.2 = st w)
  /\ (paused (st w) = true
      \/ (forall name a, native_call h name a = Ok tt) ->
      outcome.1 = Ok tt)
  /\ draws outcome.2 = draws w
  /\ List.filter is_sink_event (events outcome.2)
     = List.filter is_sink_event (events w).
Proof.
  intros outcome.
  pose (finish :=
          (time ← read_wall_clock h;
           modify (addToBuffer
                     {| time := time; level := "log"; namespace := "global";
                        preview :=
                          "TABLE "
                          +:+ summarizeTable array_length key_count
                                (hd VUndefined args) |})) : M unit).
  pose (text :=
          VStr (buildPlainPrefix toUpperCase LEVEL_ICONS p "log"
                  (formatTime (local_time (ticks w))) "" +:+ " TABLE")).
  assert (Hout : outcome
                 = (_ ← (if negb (paused (st w))
                            && is_function (original !! "log")
                         then print_native h "log" [text] else mret tt);
                    _ ← (if negb (paused (st w))
                            && is_function (original !! "table")
                         then print_native h "table" args else mret tt);
                    finish) (tick w)) by reflexivity.
  clearbody outcome. subst outcome.
  assert (Hrest : forall w0 : World,
             st w0 = st w -> ticks w0 = S (ticks w) ->
             (finish w0).1 = Ok tt
             /\ st (finish w0).2
                = addToBuffer
                    {| time := wall_clock h (S (ticks w)); level := "log";
                       namespace := "global";
                       preview :=
                         "TABLE "
                         +:+ summarizeTable array_length key_count
                               (hd VUndefined args) |}
                    (st w)
             /\ draws (finish w0).2 = draws w0
             /\ events (finish w0).2 = events w0).
  { intros w0 Hst Hticks. subst finish.
    unfold mbind, M_bind, read_wall_clock, modify, get_state, put_state.
    unfold mbind, M_bind. cbn [fst snd st draws events ticks].
    now rewrite Hst, Hticks. }
  clearbody finish.
  assert (Hsinks : forall (e : event) (w0 : World),
             is_sink_event e = false ->
             List.filter is_sink_event (events (add_events [e] w0))
             = List.filter is_sink_event (events w0)).
  { intros e w0 He. cbn [events add_events]. rewrite List.filter_app.
    cbn [List.filter]. rewrite He. apply app_nil_r. }
  assert (Hfinish : forall w0 : World,
             st w0 = st w -> ticks w0 = S (ticks w) -> draws w0 = draws w ->
             List.filter is_sink_event (events w0)
             = List.filter is_sink_event (events w) ->
             ((finish w0).1 = Ok tt ->
              st (finish w0).2
              = addToBuffer
                  {| time := wall_clock h (S (ticks w)); level := "log";
                     namespace := "global";
                     preview :=
                       "TABLE "
                       +:+ summarizeTable array_length key_count
                             (hd VUndefined args) |}
                  (st w))
             /\ (forall m, (finish w0).1 = Throw m -> st (finish w0).2 = st w)
             /\ (finish w0).1 = Ok tt
             /\ draws (finish w0).2 = draws w
             /\ List.filter is_sink_event (events (finish w0).2)
                = List.filter is_sink_event (events w)).
  { intros w0 Hst Hticks Hdraws Hev.
    destruct (Hrest w0 Hst Hticks) as (Hok & Hs & Hd & He).
    split; [intros _; exact Hs |].
    split; [intros m Hm; rewrite Hok in Hm; discriminate |].
    split; [exact Hok |]. split; [now rewrite Hd | now rewrite He]. }
  clear Hrest.
  assert (Hsecond : forall w0 : World,
             st w0 = st w -> ticks w0 = S (ticks w) -> draws w0 = draws w ->
             List.filter is_sink_event (events w0)
             = List.filter is_sink_event (events w) ->
             forall guard : bool,
               let o := (_ ← (if guard then print_native h "table" args
                              else mret tt);
                         finish) w0 in
               (o.1 = Ok tt ->
                st o.2
                = addToBuffer
                    {| time := wall_clock h (S (ticks w)); level := "log";
                       namespace := "global";
                       preview :=
                         "TABLE "
                         +:+ summarizeTable array_length key_count
                               (hd VUndefined args) |}
                    (st w))
               /\ (forall m, o.1 = Throw m -> st o.2 = st w)
               /\ (guard = false
                   \/ (forall name a, native_call h name a = Ok tt) ->
                   o.1 = Ok tt)
               /\ draws o.2 = draws w
               /\ List.filter is_sink_event (events o.2)
                  = List.filter is_sink_event (events w)).
  { intros w0 Hst Hticks Hdraws Hev guard. cbn zeta.
    rewrite !bind_run.
    destruct guard.
    - rewrite !print_native_run.
      destruct (native_call h "table" args) as [[]|m] eqn:En.
      + destruct (Hfinish (add_events [ENative "table" args] w0) Hst Hticks
                    Hdraws) as (H1 & H2 & H3 & H4 & H5).
        { now rewrite Hsinks. }
        split; [exact H1 |]. split; [exact H2 |].
        split; [intros _; exact H3 |]. split; [exact H4 | exact H5].
      + cbn [fst snd].
        split; [discriminate |]. split; [intros _ _; exact Hst |].
        split; [intros [Hg | Hall]; [discriminate |];
                rewrite Hall in En; discriminate |].
        split; [exact Hdraws |]. now rewrite Hsinks.
    - rewrite !ret_run.
      destruct (Hfinish w0 Hst Hticks Hdraws Hev) as (H1 & H2 & H3 & H4 & H5).
      split; [exact H1 |]. split; [exact H2 |].
      split; [intros _; exact H3 |]. split; [exact H4 | exact H5]. }
  rewrite !bind_run.
  destruct (negb (paused (st w)) && is_function (original !! "log")) eqn:Eg.
  - rewrite !print_native_run.
    assert (Hp : paused (st w) = false).
    { destruct (paused (st w)); [discriminate | reflexivity]. }
    destruct (native_call h "log" [text]) as [[]|m] eqn:En.
    + destruct (Hsecond (add_events [ENative "log" [text]] (tick w))
                  eq_refl eq_refl eq_refl ltac:(now rewrite Hsinks)
                  (negb (paused (st w)) && is_function (original !! "table")))
        as (H1 & H2 & H3 & H4 & H5).
      cbn zeta in H1, H2, H3, H4, H5.
      split; [exact H1 |]. split; [exact H2 |].
      split; [| split; [exact H4 | exact H5]].
      intros [Hc | Hall]; [congruence |]. apply H3. now right.
    + cbn [fst snd st draws tick add_events].
      split; [discriminate |]. split; [reflexivity |].
      split; [intros [Hc | Hall]; [congruence |];
              rewrite Hall in En; discriminate |].
      split; [reflexivity |]. now rewrite Hsinks.
  - rewrite !ret_run.
    destruct (Hsecond (tick w) eq_refl eq_refl eq_refl eq_refl
                (negb (paused (st w)) && is_function (original !! "table")))
      as (H1 & H2 & H3 & H4 & H5).
    cbn zeta in H1, H2, H3, H4, H5.
    split; [exact H1 |]. split; [exact H2 |].
    split; [| split; [exact H4 | exact H5]].
    intros [Hc | Hall]; apply H3; [left; now rewrite Hc | now right].
Qed.

End PrintingProperties.

(** ** A redactor that fails *)

Section Redaction.

Context (h : Host) (cb1 cb2 : Callbacks).

(** X30: When the redactor throws, or answers something that is not an
    array, [emit] goes on with the array the redactor was handed as the
    redactor left it: the call is in every respect the one made with a
    redactor that makes the same edits and answers the array.  The
    original arguments are what the call falls back on only when the
    redactor did not edit the array. *)
Theorem failed_redaction_keeps_the_edits (fn : nat) (fuel : nat)
  (levelName namespace : string) (args arr : list value)
  (out : result (option (list value))) (s' : State) (w : World) :
  sink_run cb1 = sink_run cb2 ->
  redactorFn (st w) = Some fn ->
  redactor_run cb1 fn args (normal_level levelName) namespace (st w)
  = (out, arr, s') ->
  (forall answer, out <> Ok (Some answer)) ->
  redactor_run cb2 fn args (normal_level levelName) namespace (st w)
  = (Ok (Some arr), arr, s') ->
  Live.applyRedaction cb1 args (normal_level levelName) namespace w
  = (Ok arr, with_state s' w)
  /\ Live.emit h cb1 fuel levelName namespace args w
     = Live.emit h cb2 fuel levelName namespace args w.
Proof.
  intros Hsinks Hfn Hrun1 Hfails Hrun2.
  assert (Hred1 : forall w0, st w0 = st w ->
             live_redacted cb1 args (normal_level levelName) namespace (st w0)
             = (arr, s')).
  { intros w0 ->. unfold live_redacted. rewrite Hfn, Hrun1.
    destruct out as [[answer|]|m]; try reflexivity.
    now destruct (Hfails answer). }
  assert (Hred2 : forall w0, st w0 = st w ->
             live_redacted cb2 args (normal_level levelName) namespace (st w0)
             = (arr, s')).
  { intros w0 ->. unfold live_redacted. now rewrite Hfn, Hrun2. }
  split.
  { rewrite live_applyRedaction_run. now rewrite (Hred1 w eq_refl). }
  assert (Hdeliver : forall w0, st w0 = st w ->
             live_deliver h cb1 fuel (normal_level levelName) namespace args w0
             = live_deliver h cb2 fuel (normal_level levelName) namespace args
                 w0).
  { intros w0 Hst. unfold live_deliver.
    rewrite (Hred1 w0 Hst), (Hred2 w0 Hst).
    rewrite (notify_from_same_effects cb1 cb2); [reflexivity |].
    intros sink entry s0. now rewrite Hsinks. }
  rewrite !live_emit_run.
  destruct (level_rejects levelName namespace (st w)); [reflexivity |].
  cbv zeta.
  destruct (first_match (sampleRules (st w)) namespace) as [rate|].
  - destruct (Qlt_bool (random h (draws w)) rate); [| reflexivity].
    destruct (isNamespaceEnabled (VStr namespace) (st w)); [| reflexivity].
    now apply Hdeliver.
  - destruct (isNamespaceEnabled (VStr namespace) (st w)); [| reflexivity].
    now apply Hdeliver.
Qed.

End Redaction.

(** X30, on the redactor that blanks the first argument and throws: the
    record holds the blanked argument. *)
Lemma failed_redaction_keeps_the_edits_witness :
  let s := setRedactor (VFun 1 "") default_state in
  (sink_run example_callbacks = sink_run answering_callbacks
   /\ redactorFn s = Some 1%nat
   /\ redactor_run example_callbacks 1 [VStr "secret"; VStr "x"]
        (normal_level "info") "db" s
      = (Throw "redactor", [VStr "***"; VStr "x"], s)
   /\ redactor_run answering_callbacks 1 [VStr "secret"; VStr "x"]
        (normal_level "info") "db" s
      = (Ok (Some [VStr "***"; VStr "x"]), [VStr "***"; VStr "x"], s))
  /\ exists record w',
       Live.emit example_host example_callbacks 0 "info" "db"
         [VStr "secret"; VStr "x"] (world_of s)
       = Some (Ok (Some record), w')
       /\ rec_args record = [VStr "***"; VStr "x"]
       /\ rec_preview record = "*** x".
Proof.
  intros s.
  split; [repeat split |].
  rewrite (proj2 (failed_redaction_keeps_the_edits example_host
                    example_callbacks answering_callbacks 1 0 "info" "db"
                    [VStr "secret"; VStr "x"] [VStr "***"; VStr "x"]
                    (Throw "redactor") s (world_of s)
                    eq_refl eq_refl eq_refl
                    ltac:(intros answer; discriminate) eq_refl)).
  eexists _, _. vm_compute. split; [reflexivity |]. split; reflexivity.
Defined.
